(** * A shallow embedding of the Java-8 visualizer's execution engine

    The development follows [src/jvm/runtime/JVMSimulator.ts] (the stepping
    interpreter, its scheduler, monitor table, history and the [Thread] and
    [String.hashCode] parts of the standard-library emulation), the helpers
    of [types/JVMState.ts] and [types/Bytecode.ts], and the main-class
    selection and [System.out.println] lowering of the bytecode compiler.

    Conventions of the embedding:
    - a JavaScript number that carries data (a primitive payload, a sleep
      deadline, [Math.random()]) is a binary64 [float]; counters and indices
      that the engine only ever increments or copies from the program
      ([pc], [stepNumber], slots, line numbers) are [Z];
    - JavaScript arrays used as stacks ([operandStack], a thread's [stack])
      are lists whose head is the top of the stack; every other array keeps
      its order;
    - objects used as dictionaries ([monitors], [staticFields],
      [loadedClasses], [methodOffsets]) are [gmap]s keyed by strings;
    - in-place mutation is explicit state passing over [Simulator]. *)

From Stdlib Require Import ZArith Floats String Ascii List Bool Lia.
From stdpp Require Import base option list gmap strings pretty.

Set Warnings "-register-all".

Open Scope string_scope.
Open Scope Z_scope.

(** ** Host (JavaScript) arithmetic *)

Module Js.

(** An integer as a number; exact for magnitudes below 2^53. *)
Definition Z2F (z : Z) : float :=
  if z <? 0 then PrimFloat.opp (PrimFloat.of_uint63 (Uint63.of_Z (- z)))
  else PrimFloat.of_uint63 (Uint63.of_Z z).

Definition signed_zero (neg : bool) : float :=
  if neg then PrimFloat.neg_zero else PrimFloat.zero.

(** [Math.trunc]: drop the fractional bits of the mantissa. *)
Definition Math_trunc (x : float) : float :=
  match Prim2SF x with
  | S754_finite s m e =>
      if 0 <=? e then x
      else let q := Z.shiftr (Z.pos m) (- e) in
           if q =? 0 then signed_zero s
           else if s then PrimFloat.opp (Z2F q) else Z2F q
  | _ => x
  end.

(** [Math.floor]. *)
Definition Math_floor (x : float) : float :=
  match Prim2SF x with
  | S754_finite s m e =>
      if 0 <=? e then x
      else let n := if s then Z.neg m else Z.pos m in
           let q := Z.shiftr n (- e) in
           if q =? 0 then PrimFloat.zero else Z2F q
  | _ => x
  end.

(** [Math.round]: nearest integer, ties towards positive infinity. *)
Definition Math_round (x : float) : float :=
  match Prim2SF x with
  | S754_finite s m e =>
      if 0 <=? e then x
      else let n := if s then Z.neg m else Z.pos m in
           let k := - e in
           let q := Z.shiftr (2 * n + Z.shiftl 1 k) (k + 1) in
           if q =? 0 then signed_zero s else Z2F q
  | _ => x
  end.

(** [Math.max] of two numbers. *)
Definition Math_max (a b : float) : float :=
  if PrimFloat.is_nan a || PrimFloat.is_nan b then PrimFloat.nan
  else if PrimFloat.ltb a b then b
  else if PrimFloat.ltb b a then a
  else if PrimFloat.is_zero a && PrimFloat.get_sign a then b else a.

(** The remainder operator [x % y] on numbers (sign of the dividend). *)
Definition rem (x y : float) : float :=
  match Prim2SF x, Prim2SF y with
  | S754_nan, _ | _, S754_nan => PrimFloat.nan
  | S754_infinity _, _ => PrimFloat.nan
  | _, S754_zero _ => PrimFloat.nan
  | _, S754_infinity _ => x
  | S754_zero _, _ => x
  | S754_finite sx mx ex, S754_finite _ my ey =>
      let e := Z.min ex ey in
      let a := Z.shiftl (Z.pos mx) (ex - e) in
      let b := Z.shiftl (Z.pos my) (ey - e) in
      let r := Z.modulo a b in
      if r =? 0 then signed_zero sx
      else let f := Z.ldexp (Z2F r) e in
           if sx then PrimFloat.opp f else f
  end.

(** The integer a number denotes, when it denotes one. *)
Definition F2Z (x : float) : option Z :=
  match Prim2SF x with
  | S754_zero _ => Some 0
  | S754_finite s m e =>
      let n := if s then Z.neg m else Z.pos m in
      if 0 <=? e then Some (Z.shiftl n e)
      else if Z.land (Z.pos m) (Z.ones (- e)) =? 0
           then Some (Z.shiftr n (- e)) else None
  | _ => None
  end.

(** [x | 0] on an integer: wrap to 32-bit two's complement. *)
Definition to_int32 (z : Z) : Z := (z + 2 ^ 31) mod 2 ^ 32 - 2 ^ 31.

(** [Math.imul]. *)
Definition Math_imul (a b : Z) : Z := to_int32 (a * b).

(** What JSON.stringify followed by JSON.parse makes of a number: a finite
    number comes back (negative zero as zero), any other becomes null. *)
Definition json_number (x : float) : option float :=
  if PrimFloat.is_nan x || PrimFloat.is_infinity x then None
  else if PrimFloat.is_zero x then Some PrimFloat.zero
  else Some x.

End Js.

(** The two host conversions between numbers and strings that the engine
    relies on ([String(n)], template literals, and the implicit [ToNumber]
    of a string operand).  Their tables belong to the JavaScript runtime,
    not to the repository. *)
Class JsHost := {
  numberToString : float -> string;
  stringToNumber : string -> float
}.

(** ** Data model ([types/JVMState.ts]) *)

Inductive PrimitiveType :=
  | TInt | TLong | TFloat | TDouble | TBoolean | TChar | TByte | TShort
  | TString | TVoid.

(** [PrimitiveValue.value : number | boolean | string | null]. *)
Inductive Payload :=
  | PNum (n : float)
  | PBool (b : bool)
  | PStr (s : string)
  | PNull.

(** [Value].  The engine itself only ever builds primitives and references;
    the captured variables of a lambda value are not represented. *)
Inductive Value :=
  | Primitive (type : PrimitiveType) (value : Payload)
  | Reference (objectId : option string)
  | ArrayValue (objectId : string) (elementType : string)
  | LambdaValue (objectId : string) (targetMethod : string).

Record LocalVariable := mkLocalVariable {
  lv_name : string;
  lv_type : string;
  lv_value : Value;
  lv_slot : Z
}.

Record StackFrame := mkStackFrame {
  f_id : string;
  f_className : string;
  f_methodName : string;
  f_methodSignature : string;
  f_localVariables : list LocalVariable;
  f_operandStack : list Value;      (* head = top of the operand stack *)
  f_pc : Z;
  f_lineNumber : Z;
  f_isNative : bool
}.

Record HeapField := mkHeapField {
  hf_name : string;
  hf_type : string;
  hf_value : Value;
  hf_isStatic : bool
}.

Inductive HeapKind := KObject | KArray | KLambda | KString.

(** An array slot is [None] when it is a hole (or the [null] a hole becomes
    in a snapshot). *)
Record HeapObject := mkHeapObject {
  ho_id : string;
  ho_type : HeapKind;
  ho_className : string;
  ho_fields : list HeapField;
  ho_arrayElements : option (list (option Value));
  ho_arrayLength : option Z;
  ho_stringValue : option string;
  ho_isReachable : bool;
  ho_gcRoot : bool;
  ho_createdAtStep : Z;
  ho_references : list string
}.

Record FieldInfo := mkFieldInfo {
  fi_name : string;
  fi_type : string;
  fi_accessModifiers : list string;
  fi_isStatic : bool;
  fi_initialValue : option Value
}.

(** [lineNumberTable] is a [Map] that is always empty; it is left out. *)
Record MethodInfo := mkMethodInfo {
  mi_name : string;
  mi_returnType : string;
  mi_accessModifiers : list string;
  mi_isStatic : bool;
  mi_isAbstract : bool;
  mi_isDefault : bool;
  mi_isNative : bool;
  mi_bytecodeStartIndex : Z;
  mi_bytecodeEndIndex : Z
}.

Record ClassInfo := mkClassInfo {
  ci_name : string;
  ci_superClass : string;
  ci_interfaces : list string;
  ci_fields : list FieldInfo;
  ci_methods : list MethodInfo;
  ci_isInterface : bool;
  ci_isAbstract : bool;
  ci_loadedAtStep : Z
}.

Record MethodArea := mkMethodArea {
  loadedClasses : gmap string ClassInfo;
  staticFields : gmap string (gmap string Value)
}.

Record ProgramCounter := mkProgramCounter {
  currentInstruction : Z;
  currentLine : Z;
  currentMethod : string;
  currentClass : string
}.

Inductive ExecutionStatus :=
  | st_idle | st_running | st_paused | st_completed | st_error.

Inductive ThreadStatus :=
  | NEW | RUNNABLE | RUNNING | BLOCKED | WAITING | TIMED_WAITING | TERMINATED.

(** [sleepUntilStep] is absent ([None]), a number, or the [null] a
    non-finite number becomes in a snapshot ([Some None]). *)
Record ThreadState := mkThreadState {
  t_id : string;
  t_name : string;
  t_stack : list StackFrame;        (* head = top frame *)
  t_status : ThreadStatus;
  t_sleepUntilStep : option (option float);
  t_waitingOnMonitor : option string;
  t_holdingMonitors : list string;
  t_objectId : option string;
  t_priority : Z;
  t_isDaemon : bool;
  t_stepCount : Z;
  t_interrupted : bool
}.

(** [monitors] maps an object id to its holder; [Some None] is a released
    entry ([null]), no entry is [undefined]. *)
Record JVMState := mkJVMState {
  stack : list StackFrame;
  heap : list HeapObject;
  methodArea : MethodArea;
  pc : ProgramCounter;
  nativeStack : list StackFrame;
  status : ExecutionStatus;
  stepNumber : Z;
  output : list string;
  error : option string;
  threads : list ThreadState;
  activeThread : nat;
  monitors : gmap string (option string)
}.

#[global] Instance PrimitiveType_eq_dec : EqDecision PrimitiveType.
Proof. solve_decision. Defined.
#[global] Instance ExecutionStatus_eq_dec : EqDecision ExecutionStatus.
Proof. solve_decision. Defined.
#[global] Instance ThreadStatus_eq_dec : EqDecision ThreadStatus.
Proof. solve_decision. Defined.
#[global] Instance HeapKind_eq_dec : EqDecision HeapKind.
Proof. solve_decision. Defined.

(** ** Bytecode ([types/Bytecode.ts]) *)

Inductive InstructionOperand :=
  | OpInt (value : float)
  | OpFloat (value : float)
  | OpString (value : string)
  | OpBoolean (value : bool)
  | OpClass (value : string)
  | OpMethod (value descriptor : string)
  | OpField (value owner : string)
  | OpLocal (index : Z) (name : string)
  | OpLabel (target : Z)
  | OpType (value : string).

(** An opcode together with the operands the interpreter casts
    [instr.operands] to.  [DUP_X1], [MONITORENTER] and [MONITOREXIT] are
    dispatched on by the interpreter and listed in the instruction set,
    although the enum declaration at hand does not spell them out.  [OTHER]
    stands for the opcodes the interpreter has no case for
    (STREAM_FLATMAP, STREAM_REDUCE, STREAM_COUNT, BREAKPOINT, LOAD_CLASS). *)
Module OpCode.
Inductive arith := ADD | SUB | MUL | DIV | MOD.
Inductive cmp := CMP_EQ | CMP_NE | CMP_LT | CMP_LE | CMP_GT | CMP_GE.
Inductive invoke :=
  | INVOKE_VIRTUAL | INVOKE_INTERFACE | INVOKE_SPECIAL | INVOKE_STATIC.
Inductive stream :=
  | STREAM_SOURCE | STREAM_MAP | STREAM_FILTER | STREAM_COLLECT
  | STREAM_FOREACH.
Inductive t :=
  | NOP
  | LINE (line : Z)
  | LOAD_CONST (operand : InstructionOperand)
  | PUSH_NULL
  | LOAD_LOCAL (index : Z) (name : string)
  | STORE_LOCAL (index : Z) (name : string)
  | NEW (className : string)
  | NEWARRAY (elementType : string)
  | ARRAYLENGTH
  | ARRAYLOAD
  | ARRAYSTORE
  | GETFIELD (value owner : string)
  | PUTFIELD (value owner : string)
  | GETSTATIC (value owner : string)
  | PUTSTATIC (value owner : string)
  | DUP
  | DUP_X1
  | POP
  | SWAP
  | ARITH (op : arith)
  | NEG
  | CMP (op : cmp)
  | AND
  | OR
  | NOT
  | GOTO (target : Z)
  | IF_TRUE (target : Z)
  | IF_FALSE (target : Z)
  | INVOKE (kind : invoke) (value descriptor : string)
           (classOp : option string)
  | RETURN
  | RETURN_VALUE
  | PRINT (isPrintln : option bool)
  | MONITORENTER
  | MONITOREXIT
  | LAMBDA_CREATE (info : string)
  | LAMBDA_INVOKE
  | STREAM (op : stream)
  | INSTANCEOF (value : string)
  | CHECKCAST
  | THROW
  | OTHER (name : string).

Definition arith_name (o : arith) : string :=
  match o with
  | ADD => "ADD" | SUB => "SUB" | MUL => "MUL" | DIV => "DIV" | MOD => "MOD"
  end.

Definition is_add (o : arith) : bool :=
match o with ADD => true | _ => false end.

Definition stream_name (o : stream) : string :=
  match o with
  | STREAM_SOURCE => "STREAM_SOURCE" | STREAM_MAP => "STREAM_MAP"
  | STREAM_FILTER => "STREAM_FILTER" | STREAM_COLLECT => "STREAM_COLLECT"
  | STREAM_FOREACH => "STREAM_FOREACH"
  end.
End OpCode.

Record Instruction := mkInstruction {
  opcode : OpCode.t;
  sourceLine : Z;
  comment : option string
}.

Record LocalVariableEntry := mkLocalVariableEntry {
  lve_index : Z;
  lve_name : string;
  lve_type : string;
  lve_startPc : Z;
  lve_endPc : Z
}.

Record CompiledMethod := mkCompiledMethod {
  cm_className : string;
  cm_methodName : string;
  cm_signature : string;
  cm_instructions : list Instruction;
  cm_localVariableTable : list LocalVariableEntry;
  cm_maxStack : Z;
  cm_maxLocals : Z
}.

Record CompiledField := mkCompiledField {
  cf_name : string;
  cf_type : string;
  cf_isStatic : bool;
  cf_initialValue : option InstructionOperand
}.

Record CompiledClass := mkCompiledClass {
  cc_name : string;
  cc_superClass : string;
  cc_interfaces : list string;
  cc_fields : list CompiledField;
  cc_methods : list CompiledMethod;
  cc_isInterface : bool;
  cc_sourceFile : string
}.

Record CompiledProgram := mkCompiledProgram {
  classes : list CompiledClass;
  mainClass : string;
  mainMethod : string;
  allInstructions : list Instruction;
  methodOffsets : gmap string Z
}.

(** ** The simulator object *)

(** [history] keeps the oldest snapshot first; [push] appends and [shift]
    drops the head. *)
Record Simulator := mkSimulator {
  program : CompiledProgram;
  state : JVMState;
  history : list JVMState;
  maxHistory : nat;
  nextObjectId : Z
}.

Record ExecutionResult := mkExecutionResult {
  er_state : JVMState;
  er_instruction : option Instruction;
  er_description : string
}.

(** What one step draws from the host's clock and random generator: the
    value of [Math.random()] and the identifier [generateFrameId] builds
    from [Date.now()] and [Math.random()]. *)
Record HostEntropy := mkHostEntropy {
  ent_random : float;
  ent_frameId : string
}.

(** ** Helpers of [types/JVMState.ts] *)

Definition createPrimitiveValue (type : PrimitiveType) (value : Payload) : Value :=
  Primitive type value.

Definition createReferenceValue (objectId : option string) : Value :=
  Reference objectId.

Definition createNullValue : Value := Reference None.

Definition createInitialJVMState : JVMState :=
  {| stack := [];
     heap := [];
     methodArea := {| loadedClasses := ∅; staticFields := ∅ |};
     pc := {| currentInstruction := 0; currentLine := 0;
              currentMethod := ""; currentClass := "" |};
     nativeStack := [];
     status := st_idle;
     stepNumber := 0;
     output := [];
     error := None;
     threads := [];
     activeThread := 0%nat;
     monitors := ∅ |}.

(** The one-character string holding a double quote. *)
Definition dquote : string := String (ascii_of_nat 34) EmptyString.

(** A string used as a condition: [undefined], [null] and the empty string
    are falsy. *)
Definition truthy_id (o : option string) : option string :=
  match o with
  | Some s => if decide (s = "") then None else Some s
  | None => None
  end.

Section Coercions.
Context {host : JsHost}.

Definition ToNumber (p : Payload) : float :=
  match p with
  | PNum n => n
  | PBool true => PrimFloat.one
  | PBool false => PrimFloat.zero
  | PStr s => stringToNumber s
  | PNull => PrimFloat.zero
  end.

(** [String(p)], also what a template literal makes of [p]. *)
Definition ToString (p : Payload) : string :=
  match p with
  | PNum n => numberToString n
  | PBool true => "true"
  | PBool false => "false"
  | PStr s => s
  | PNull => "null"
  end.

Definition ToBoolean (p : Payload) : bool :=
  match p with
  | PNum n => negb (PrimFloat.eqb n PrimFloat.zero || PrimFloat.is_nan n)
  | PBool b => b
  | PStr s => negb (bool_decide (s = ""))
  | PNull => false
  end.

(** The binary [+]: concatenation as soon as one side is a string. *)
Definition js_add (a b : Payload) : Payload :=
  match a, b with
  | PStr _, _ | _, PStr _ => PStr (ToString a ++ ToString b)
  | _, _ => PNum (PrimFloat.add (ToNumber a) (ToNumber b))
  end.

Definition js_sub (a b : Payload) : Payload :=
  PNum (PrimFloat.sub (ToNumber a) (ToNumber b)).
Definition js_mul (a b : Payload) : Payload :=
  PNum (PrimFloat.mul (ToNumber a) (ToNumber b)).
Definition js_div (a b : Payload) : float :=
  PrimFloat.div (ToNumber a) (ToNumber b).
Definition js_rem (a b : Payload) : float :=
  Js.rem (ToNumber a) (ToNumber b).

(** [p !== 0]. *)
Definition strict_ne_zero (p : Payload) : bool :=
  match p with
  | PNum n => negb (PrimFloat.eqb n PrimFloat.zero)
  | _ => true
  end.

(** [a === b] on payloads. *)
Definition js_strict_eq (a b : Payload) : bool :=
  match a, b with
  | PNum x, PNum y => PrimFloat.eqb x y
  | PBool x, PBool y => bool_decide (x = y)
  | PStr x, PStr y => bool_decide (x = y)
  | PNull, PNull => true
  | _, _ => false
  end.

(** [a < b] and [a <= b]: by code units on two strings, numerically
    otherwise. *)
Definition js_lt (a b : Payload) : bool :=
  match a, b with
  | PStr x, PStr y => String.ltb x y
  | _, _ => PrimFloat.ltb (ToNumber a) (ToNumber b)
  end.

Definition js_le (a b : Payload) : bool :=
  match a, b with
  | PStr x, PStr y => negb (String.ltb y x)
  | _, _ => PrimFloat.leb (ToNumber a) (ToNumber b)
  end.

Definition valueToString (v : Value) : string :=
  match v with
  | Primitive ty p =>
      match p with
      | PNull => "null"
      | _ =>
          match ty with
          | TString => dquote ++ ToString p ++ dquote
          | TChar => "'" ++ ToString p ++ "'"
          | TBoolean => if ToBoolean p then "true" else "false"
          | _ => ToString p
          end
      end
  | Reference o =>
      match truthy_id o with
      | Some id => "@" ++ id
      | None => "null"
      end
  | ArrayValue id ety => ety ++ "[]@" ++ id
  | LambdaValue id _ => "Lambda@" ++ id
  end.

(** [JVMSimulator.valToString]. *)
Definition valToString (v : Value) : string :=
  match v with
  | Primitive _ PNull => "null"
  | Primitive _ p => ToString p
  | Reference o =>
      match truthy_id o with
      | Some id => "@" ++ id
      | None => "null"
      end
  | _ => valueToString v
  end.

End Coercions.

Definition operandToValue (operand : InstructionOperand) : Value :=
  match operand with
  | OpInt n => createPrimitiveValue TInt (PNum n)
  | OpFloat n => createPrimitiveValue TDouble (PNum n)
  | OpString s => createPrimitiveValue TString (PStr s)
  | OpBoolean b => createPrimitiveValue TBoolean (PBool b)
  | _ => createNullValue
  end.

Definition getDefaultValue (type : string) : Value :=
  if bool_decide (type = "int") || bool_decide (type = "long")
     || bool_decide (type = "short") || bool_decide (type = "byte")
  then createPrimitiveValue TInt (PNum PrimFloat.zero)
  else if bool_decide (type = "float") || bool_decide (type = "double")
  then createPrimitiveValue TDouble (PNum PrimFloat.zero)
  else if bool_decide (type = "boolean")
  then createPrimitiveValue TBoolean (PBool false)
  else if bool_decide (type = "char")
  then createPrimitiveValue TChar (PStr (String (ascii_of_nat 0) ""))
  else createNullValue.

(** ** Field updates *)

Definition set_f_operandStack (v : list Value) (f : StackFrame) : StackFrame :=
  mkStackFrame (f_id f) (f_className f) (f_methodName f) (f_methodSignature f)
    (f_localVariables f) v (f_pc f) (f_lineNumber f) (f_isNative f).

Definition set_f_pc (v : Z) (f : StackFrame) : StackFrame :=
  mkStackFrame (f_id f) (f_className f) (f_methodName f) (f_methodSignature f)
    (f_localVariables f) (f_operandStack f) v (f_lineNumber f) (f_isNative f).

Definition set_f_lineNumber (v : Z) (f : StackFrame) : StackFrame :=
  mkStackFrame (f_id f) (f_className f) (f_methodName f) (f_methodSignature f)
    (f_localVariables f) (f_operandStack f) (f_pc f) v (f_isNative f).

Definition set_f_localVariables (v : list LocalVariable) (f : StackFrame) : StackFrame :=
  mkStackFrame (f_id f) (f_className f) (f_methodName f) (f_methodSignature f)
    v (f_operandStack f) (f_pc f) (f_lineNumber f) (f_isNative f).

Definition set_t_stack (v : list StackFrame) (t : ThreadState) : ThreadState :=
  mkThreadState (t_id t) (t_name t) v (t_status t) (t_sleepUntilStep t)
    (t_waitingOnMonitor t) (t_holdingMonitors t) (t_objectId t) (t_priority t)
    (t_isDaemon t) (t_stepCount t) (t_interrupted t).

Definition set_t_status (v : ThreadStatus) (t : ThreadState) : ThreadState :=
  mkThreadState (t_id t) (t_name t) (t_stack t) v (t_sleepUntilStep t)
    (t_waitingOnMonitor t) (t_holdingMonitors t) (t_objectId t) (t_priority t)
    (t_isDaemon t) (t_stepCount t) (t_interrupted t).

Definition set_t_sleepUntilStep (v : option (option float)) (t : ThreadState) : ThreadState :=
  mkThreadState (t_id t) (t_name t) (t_stack t) (t_status t) v
    (t_waitingOnMonitor t) (t_holdingMonitors t) (t_objectId t) (t_priority t)
    (t_isDaemon t) (t_stepCount t) (t_interrupted t).

Definition set_t_waitingOnMonitor (v : option string) (t : ThreadState) : ThreadState :=
  mkThreadState (t_id t) (t_name t) (t_stack t) (t_status t) (t_sleepUntilStep t)
    v (t_holdingMonitors t) (t_objectId t) (t_priority t)
    (t_isDaemon t) (t_stepCount t) (t_interrupted t).

Definition set_t_holdingMonitors (v : list string) (t : ThreadState) : ThreadState :=
  mkThreadState (t_id t) (t_name t) (t_stack t) (t_status t) (t_sleepUntilStep t)
    (t_waitingOnMonitor t) v (t_objectId t) (t_priority t)
    (t_isDaemon t) (t_stepCount t) (t_interrupted t).

Definition set_t_stepCount (v : Z) (t : ThreadState) : ThreadState :=
  mkThreadState (t_id t) (t_name t) (t_stack t) (t_status t) (t_sleepUntilStep t)
    (t_waitingOnMonitor t) (t_holdingMonitors t) (t_objectId t) (t_priority t)
    (t_isDaemon t) v (t_interrupted t).

Definition set_t_interrupted (v : bool) (t : ThreadState) : ThreadState :=
  mkThreadState (t_id t) (t_name t) (t_stack t) (t_status t) (t_sleepUntilStep t)
    (t_waitingOnMonitor t) (t_holdingMonitors t) (t_objectId t) (t_priority t)
    (t_isDaemon t) (t_stepCount t) v.

Definition set_ho_fields (v : list HeapField) (o : HeapObject) : HeapObject :=
  mkHeapObject (ho_id o) (ho_type o) (ho_className o) v (ho_arrayElements o)
    (ho_arrayLength o) (ho_stringValue o) (ho_isReachable o) (ho_gcRoot o)
    (ho_createdAtStep o) (ho_references o).

Definition set_ho_arrayElements (v : option (list (option Value))) (o : HeapObject) : HeapObject :=
  mkHeapObject (ho_id o) (ho_type o) (ho_className o) (ho_fields o) v
    (ho_arrayLength o) (ho_stringValue o) (ho_isReachable o) (ho_gcRoot o)
    (ho_createdAtStep o) (ho_references o).

Definition set_hf_value (v : Value) (f : HeapField) : HeapField :=
  mkHeapField (hf_name f) (hf_type f) v (hf_isStatic f).

Definition set_lv_value (v : Value) (l : LocalVariable) : LocalVariable :=
  mkLocalVariable (lv_name l) (lv_type l) v (lv_slot l).

Definition set_stack (v : list StackFrame) (s : JVMState) : JVMState :=
  mkJVMState v (heap s) (methodArea s) (pc s) (nativeStack s) (status s)
    (stepNumber s) (output s) (error s) (threads s) (activeThread s) (monitors s).

Definition set_heap (v : list HeapObject) (s : JVMState) : JVMState :=
  mkJVMState (stack s) v (methodArea s) (pc s) (nativeStack s) (status s)
    (stepNumber s) (output s) (error s) (threads s) (activeThread s) (monitors s).

Definition set_methodArea (v : MethodArea) (s : JVMState) : JVMState :=
  mkJVMState (stack s) (heap s) v (pc s) (nativeStack s) (status s)
    (stepNumber s) (output s) (error s) (threads s) (activeThread s) (monitors s).

Definition set_pc (v : ProgramCounter) (s : JVMState) : JVMState :=
  mkJVMState (stack s) (heap s) (methodArea s) v (nativeStack s) (status s)
    (stepNumber s) (output s) (error s) (threads s) (activeThread s) (monitors s).

Definition set_status (v : ExecutionStatus) (s : JVMState) : JVMState :=
  mkJVMState (stack s) (heap s) (methodArea s) (pc s) (nativeStack s) v
    (stepNumber s) (output s) (error s) (threads s) (activeThread s) (monitors s).

Definition set_stepNumber (v : Z) (s : JVMState) : JVMState :=
  mkJVMState (stack s) (heap s) (methodArea s) (pc s) (nativeStack s) (status s)
    v (output s) (error s) (threads s) (activeThread s) (monitors s).

Definition set_output (v : list string) (s : JVMState) : JVMState :=
  mkJVMState (stack s) (heap s) (methodArea s) (pc s) (nativeStack s) (status s)
    (stepNumber s) v (error s) (threads s) (activeThread s) (monitors s).

Definition set_error (v : option string) (s : JVMState) : JVMState :=
  mkJVMState (stack s) (heap s) (methodArea s) (pc s) (nativeStack s) (status s)
    (stepNumber s) (output s) v (threads s) (activeThread s) (monitors s).

Definition set_threads (v : list ThreadState) (s : JVMState) : JVMState :=
  mkJVMState (stack s) (heap s) (methodArea s) (pc s) (nativeStack s) (status s)
    (stepNumber s) (output s) (error s) v (activeThread s) (monitors s).

Definition set_activeThread (v : nat) (s : JVMState) : JVMState :=
  mkJVMState (stack s) (heap s) (methodArea s) (pc s) (nativeStack s) (status s)
    (stepNumber s) (output s) (error s) (threads s) v (monitors s).

Definition set_monitors (v : gmap string (option string)) (s : JVMState) : JVMState :=
  mkJVMState (stack s) (heap s) (methodArea s) (pc s) (nativeStack s) (status s)
    (stepNumber s) (output s) (error s) (threads s) (activeThread s) v.

Definition set_state (v : JVMState) (m : Simulator) : Simulator :=
  mkSimulator (program m) v (history m) (maxHistory m) (nextObjectId m).

Definition set_history (v : list JVMState) (m : Simulator) : Simulator :=
  mkSimulator (program m) (state m) v (maxHistory m) (nextObjectId m).

Definition set_nextObjectId (v : Z) (m : Simulator) : Simulator :=
  mkSimulator (program m) (state m) (history m) (maxHistory m) v.

(** Update the thread at index [i] in place. *)
Definition upd_thread (i : nat) (g : ThreadState -> ThreadState) (s : JVMState) : JVMState :=
  set_threads (alter g i (threads s)) s.

(** Update the top frame of a stack in place. *)
Definition upd_top (g : StackFrame -> StackFrame) (st : list StackFrame) : list StackFrame :=
  match st with
  | f :: rest => g f :: rest
  | [] => []
  end.

(** Write the frame [fr] back as the top frame of thread [i]: the effect of
    the interpreter's in-place updates of [frame]. *)
Definition put_frame (i : nat) (fr : StackFrame) (s : JVMState) : JVMState :=
  upd_thread i (fun t => set_t_stack (upd_top (fun _ => fr) (t_stack t)) t) s.

(** ** Thread scheduling helpers *)

Definition activeThreadState (s : JVMState) : option ThreadState :=
  threads s !! activeThread s.

Definition is_schedulable (t : ThreadState) : bool :=
  bool_decide (t_status t = RUNNABLE) || bool_decide (t_status t = RUNNING).

(** [rotateThread]: the next RUNNABLE or RUNNING thread after the active
    one, round-robin; the active thread is kept when there is none. *)
Definition rotateThread (s : JVMState) : JVMState :=
  let n := length (threads s) in
  if (n <=? 1)%nat then s
  else
    let start := activeThread s in
    match List.find
            (fun i => match threads s !! ((start + i) mod n)%nat with
                      | Some t => is_schedulable t
                      | None => false
                      end)
            (seq 1 (n - 1)) with
    | Some i => set_activeThread ((start + i) mod n)%nat s
    | None => s
    end.

Definition find_thread (id : string) (ts : list ThreadState) : option (nat * ThreadState) :=
  list_find (fun t => t_id t = id) ts.

(** [stepNumber >= t.sleepUntilStep] for a deadline that is present; a
    [null] deadline counts as zero. *)
Definition deadline_reached (stepNo : Z) (d : option float) : bool :=
  match d with
  | Some x => PrimFloat.leb x (Js.Z2F stepNo)
  | None => PrimFloat.leb PrimFloat.zero (Js.Z2F stepNo)
  end.

(** The body of the loop of [tickThreads] for one thread [t], with [all]
    the thread table as it stands when [t] is visited. *)
Definition tick_thread (stepNo : Z) (all : list ThreadState) (t : ThreadState) : ThreadState :=
  let t1 :=
    match t_sleepUntilStep t with
    | Some d =>
        if bool_decide (t_status t = TIMED_WAITING) && deadline_reached stepNo d
        then set_t_sleepUntilStep None (set_t_status RUNNABLE t)
        else t
    | None => t
    end in
  match truthy_id (t_waitingOnMonitor t1) with
  | Some target =>
      if bool_decide (t_status t1 = WAITING) then
        match find_thread target all with
        | Some (_, th) =>
            if bool_decide (t_status th = TERMINATED)
            then set_t_waitingOnMonitor None (set_t_status RUNNABLE t1)
            else t1
        | None => set_t_waitingOnMonitor None (set_t_status RUNNABLE t1)
        end
      else t1
  | None => t1
  end.

(** [tickThreads]: visit the threads in order, updating each in place. *)
Definition tickThreads (s : JVMState) : JVMState :=
  set_threads
    (fold_left (fun ts i => alter (tick_thread (stepNumber s) ts) i ts)
               (seq 0 (length (threads s))) (threads s))
    s.

(** ** Monitors *)

(** [acquireMonitor]: the state afterwards and whether the monitor was
    acquired. *)
Definition acquireMonitor (objectId threadId : string) (s : JVMState) : JVMState * bool :=
  let free :=
    match monitors s !! objectId with
    | None | Some None => true
    | Some (Some holder) => bool_decide (holder = threadId)
    end in
  if free then
    let s1 := set_monitors (<[objectId := Some threadId]> (monitors s)) s in
    let s2 :=
      match find_thread threadId (threads s1) with
      | Some (i, t) =>
          if bool_decide (objectId ∈ t_holdingMonitors t) then s1
          else upd_thread i
                 (fun t => set_t_holdingMonitors (t_holdingMonitors t ++ [objectId]) t) s1
      | None => s1
      end in
    (s2, true)
  else (s, false).

Definition is_blocked_on (objectId : string) (t : ThreadState) : Prop :=
  t_status t = BLOCKED /\ t_waitingOnMonitor t = Some objectId.

#[global] Instance is_blocked_on_dec objectId t : Decision (is_blocked_on objectId t).
Proof. unfold is_blocked_on. apply _. Defined.

(** [releaseMonitor]: release and wake one BLOCKED thread waiting for it. *)
Definition releaseMonitor (objectId threadId : string) (s : JVMState) : JVMState :=
  if bool_decide (monitors s !! objectId = Some (Some threadId)) then
    let s1 := set_monitors (<[objectId := None]> (monitors s)) s in
    let s2 :=
      match find_thread threadId (threads s1) with
      | Some (i, _) =>
          upd_thread i
            (fun t => set_t_holdingMonitors
                        (filter (fun m => m <> objectId) (t_holdingMonitors t)) t) s1
      | None => s1
      end in
    match list_find (is_blocked_on objectId) (threads s2) with
    | Some (j, _) =>
        upd_thread j
          (fun t => set_t_waitingOnMonitor None (set_t_status RUNNABLE t)) s2
    | None => s2
    end
  else s.

(** The loop [for (const monId of thread.holdingMonitors)
    releaseMonitor(monId, thread.id)] followed by
    [thread.holdingMonitors = []], for the thread at index [i].  The loop
    runs over the list as it was when it started. *)
Definition releaseAllMonitors (i : nat) (s : JVMState) : JVMState :=
  match threads s !! i with
  | Some thread =>
      let s1 := fold_left (fun acc monId => releaseMonitor monId (t_id thread) acc)
                          (t_holdingMonitors thread) s in
      upd_thread i (set_t_holdingMonitors []) s1
  | None => s
  end.

(** ** Snapshots: [cloneState] is a JSON round trip

    [JSON.parse(JSON.stringify(state))] rebuilds the whole tree.  Strings,
    booleans, integers and absent fields come back as they were; a number
    that is not finite comes back as [null], negative zero as zero, a hole
    of an array as [null]. *)

Definition clone_payload (p : Payload) : Payload :=
  match p with
  | PNum n => match Js.json_number n with Some m => PNum m | None => PNull end
  | _ => p
  end.

Definition clone_value (v : Value) : Value :=
  match v with
  | Primitive ty p => Primitive ty (clone_payload p)
  | _ => v
  end.

Definition clone_local (l : LocalVariable) : LocalVariable :=
  set_lv_value (clone_value (lv_value l)) l.

Definition clone_frame (f : StackFrame) : StackFrame :=
  set_f_operandStack (clone_value <$> f_operandStack f)
    (set_f_localVariables (clone_local <$> f_localVariables f) f).

Definition clone_field (f : HeapField) : HeapField :=
  set_hf_value (clone_value (hf_value f)) f.

Definition clone_slot (o : option Value) : option Value := clone_value <$> o.

Definition clone_elements (l : list (option Value)) : list (option Value) :=
  clone_slot <$> l.

Definition clone_object (o : HeapObject) : HeapObject :=
  set_ho_arrayElements (clone_elements <$> ho_arrayElements o)
    (set_ho_fields (clone_field <$> ho_fields o) o).

Definition clone_fieldInfo (f : FieldInfo) : FieldInfo :=
  mkFieldInfo (fi_name f) (fi_type f) (fi_accessModifiers f) (fi_isStatic f)
    (clone_value <$> fi_initialValue f).

Definition clone_classInfo (c : ClassInfo) : ClassInfo :=
  mkClassInfo (ci_name c) (ci_superClass c) (ci_interfaces c)
    (clone_fieldInfo <$> ci_fields c) (ci_methods c) (ci_isInterface c)
    (ci_isAbstract c) (ci_loadedAtStep c).

Definition clone_methodArea (m : MethodArea) : MethodArea :=
  {| loadedClasses := clone_classInfo <$> loadedClasses m;
     staticFields :=
       (fun fs : gmap string Value => clone_value <$> fs) <$> staticFields m |}.

Definition clone_thread (t : ThreadState) : ThreadState :=
  set_t_sleepUntilStep
    (fmap (fun d => d ≫= Js.json_number) (t_sleepUntilStep t))
    (set_t_stack (clone_frame <$> t_stack t) t).

Definition clone_JVMState (s : JVMState) : JVMState :=
  {| stack := clone_frame <$> stack s;
     heap := clone_object <$> heap s;
     methodArea := clone_methodArea (methodArea s);
     pc := pc s;
     nativeStack := clone_frame <$> nativeStack s;
     status := status s;
     stepNumber := stepNumber s;
     output := output s;
     error := error s;
     threads := clone_thread <$> threads s;
     activeThread := activeThread s;
     monitors := monitors s |}.

Definition cloneState (m : Simulator) : JVMState := clone_JVMState (state m).

Definition getState (m : Simulator) : JVMState := cloneState m.

(** ** History *)

Definition saveHistory (m : Simulator) : Simulator :=
  let h := if (maxHistory m <=? length (history m))%nat
           then tail (history m) else history m in
  set_history (h ++ [cloneState m]) m.

Definition canStepBack (m : Simulator) : bool :=
  bool_decide (0 < length (history m))%nat.

(** [stepBack]: pop the most recent snapshot and install it. *)
Definition stepBack (m : Simulator) : Simulator * ExecutionResult :=
  match last (history m) with
  | None =>
      (m, mkExecutionResult (cloneState m) None "No previous state")
  | Some snapshot =>
      let m' := set_state snapshot (set_history (removelast (history m)) m) in
      (m', mkExecutionResult (cloneState m') None "Stepped back")
  end.

(** ** Allocation *)

Definition generateObjectId (m : Simulator) : string * Simulator :=
  ("obj_" ++ pretty (nextObjectId m), set_nextObjectId (nextObjectId m + 1) m).

Definition push_heap (o : HeapObject) (m : Simulator) : Simulator :=
  set_state (set_heap (heap (state m) ++ [o]) (state m)) m.

Definition allocateObject (className : string) (m : Simulator) : string * Simulator :=
  let '(id, m1) := generateObjectId m in
  let fields :=
    match loadedClasses (methodArea (state m1)) !! className with
    | Some classInfo =>
        (fun field =>
           mkHeapField (fi_name field) (fi_type field)
             (default (getDefaultValue (fi_type field)) (fi_initialValue field))
             false)
        <$> filter (fun field => fi_isStatic field = false) (ci_fields classInfo)
    | None => []
    end in
  let obj :=
    {| ho_id := id; ho_type := KObject; ho_className := className;
       ho_fields := fields; ho_arrayElements := None; ho_arrayLength := None;
       ho_stringValue := None; ho_isReachable := true; ho_gcRoot := false;
       ho_createdAtStep := stepNumber (state m1); ho_references := [] |} in
  (id, push_heap obj m1).

Definition allocateArray (elementType : string) (elements : list (option Value))
    (m : Simulator) : string * Simulator :=
  let '(id, m1) := generateObjectId m in
  let obj :=
    {| ho_id := id; ho_type := KArray; ho_className := elementType ++ "[]";
       ho_fields := []; ho_arrayElements := Some elements;
       ho_arrayLength := Some (Z.of_nat (length elements));
       ho_stringValue := None; ho_isReachable := true; ho_gcRoot := false;
       ho_createdAtStep := stepNumber (state m1); ho_references := [] |} in
  (id, push_heap obj m1).

Definition allocateLambda (lambdaInfo : string) (m : Simulator) : string * Simulator :=
  let '(id, m1) := generateObjectId m in
  let obj :=
    {| ho_id := id; ho_type := KLambda; ho_className := "Lambda";
       ho_fields := [mkHeapField "info" "String"
                       (createPrimitiveValue TString (PStr lambdaInfo)) false];
       ho_arrayElements := None; ho_arrayLength := None;
       ho_stringValue := None; ho_isReachable := true; ho_gcRoot := false;
       ho_createdAtStep := stepNumber (state m1); ho_references := [] |} in
  (id, push_heap obj m1).

(** [state.heap.find(o => o.id === id)], with the index of the object. *)
Definition find_object (id : string) (h : list HeapObject) : option (nat * HeapObject) :=
  list_find (fun o => ho_id o = id) h.

Definition getHeapObj (v : Value) (s : JVMState) : option HeapObject :=
  match v with
  | Reference o =>
      match truthy_id o with
      | Some id => snd <$> find_object id (heap s)
      | None => None
      end
  | _ => None
  end.

(** [isSubclassOf]: walk the superclass chain of the program's classes.
    The source loops until the chain ends; a chain longer than the class
    table has revisited a class and then never ends, which [None] records. *)
Fixpoint isSubclassOf_walk (cls : list CompiledClass) (fuel : nat)
    (current parentClass : string) : option bool :=
  match fuel with
  | O => None
  | S fuel' =>
      if bool_decide (current = "") || bool_decide (current = "Object") then Some false
      else
        match List.find (fun c => bool_decide (cc_name c = current)) cls with
        | None => Some false
        | Some c =>
            if bool_decide (cc_superClass c = parentClass) then Some true
            else isSubclassOf_walk cls fuel' (cc_superClass c) parentClass
        end
  end.

Definition isSubclassOf (p : CompiledProgram) (childClass parentClass : string) : option bool :=
  if bool_decide (childClass = "") || bool_decide (childClass = parentClass) then Some true
  else isSubclassOf_walk (classes p) (S (length (classes p))) childClass parentClass.

(** ** Small host helpers used by the interpreter *)

Definition push (v : Value) (fr : StackFrame) : StackFrame :=
  set_f_operandStack (v :: f_operandStack fr) fr.

(** [operandStack.pop()]: the popped value, if any, and the frame left. *)
Definition pop (fr : StackFrame) : option Value * StackFrame :=
  match f_operandStack fr with
  | v :: rest => (Some v, set_f_operandStack rest fr)
  | [] => (None, fr)
  end.

(** [frame.pc++]. *)
Definition advance (fr : StackFrame) : StackFrame :=
  set_f_pc (f_pc fr + 1) fr.

Definition digit_value (c : ascii) : option N :=
  let n := N_of_ascii c in
  if (48 <=? n)%N && (n <=? 57)%N then Some (n - 48)%N else None.

Fixpoint parse_digits_from (acc : N) (s : string) : option N :=
  match s with
  | EmptyString => Some acc
  | String c rest =>
      match digit_value c with
      | Some d => parse_digits_from (10 * acc + d)%N rest
      | None => None
      end
  end.

(** A non-empty string of decimal digits as a number. *)
Definition parse_digits (s : string) : option N :=
  match s with
  | EmptyString => None
  | _ => parse_digits_from 0%N s
  end.

(** The array index a property key denotes: an integer below 2^32 - 1,
    given as a number or as its canonical decimal string. *)
Definition array_index (p : Payload) : option nat :=
  match p with
  | PNum n =>
      match Js.F2Z n with
      | Some z => if (0 <=? z) && (z <? 2 ^ 32 - 1) then Some (Z.to_nat z) else None
      | None => None
      end
  | PStr s =>
      match parse_digits s with
      | Some n =>
          if bool_decide (pretty n = s) && (n <? 2 ^ 32 - 1)%N
          then Some (N.to_nat n) else None
      | None => None
      end
  | _ => None
  end.

(** [elements[idx] = v] on an array: growing it leaves holes. *)
Definition array_store (idx : nat) (v : Value) (l : list (option Value)) : list (option Value) :=
  if (idx <? length l)%nat then <[idx := Some v]> l
  else l ++ replicate (idx - length l) None ++ [Some v].

(** What [new Array(len)] followed by [fill(v)] builds; [None] when the
    constructor raises a RangeError. *)
Definition new_filled_array (len : Payload) (v : Value) : option (list (option Value)) :=
  match len with
  | PNum n =>
      match Js.F2Z n with
      | Some z => if (0 <=? z) && (z <? 2 ^ 32) then Some (replicate (Z.to_nat z) (Some v)) else None
      | None => None
      end
  | _ => Some [Some v]
  end.

(** [s.replace(/^"|"$/g, '')]: drop one leading and one trailing double
    quote. *)
Definition strip_leading_quote (s : string) : string :=
  match s with
  | String c rest => if bool_decide (c = ascii_of_nat 34) then rest else s
  | EmptyString => s
  end.

Fixpoint strip_trailing_quote (s : string) : string :=
  match s with
  | EmptyString => EmptyString
  | String c EmptyString => if bool_decide (c = ascii_of_nat 34) then EmptyString else s
  | String c rest => String c (strip_trailing_quote rest)
  end.

Definition strip_quotes (s : string) : string :=
  strip_trailing_quote (strip_leading_quote s).

(** [descriptor.match(/\((\d+)\)/)] and [parseInt] of the group: the
    leftmost parenthesised run of digits, 0 when there is none. *)
Fixpoint take_digits (s : string) : string * string :=
  match s with
  | String c rest =>
      match digit_value c with
      | Some _ => let '(d, r) := take_digits rest in (String c d, r)
      | None => (EmptyString, s)
      end
  | EmptyString => (EmptyString, EmptyString)
  end.

Definition match_arity_here (s : string) : option N :=
  match s with
  | String c rest =>
      if bool_decide (c = "("%char) then
        match take_digits rest with
        | (d, String c' _) =>
            if bool_decide (c' = ")"%char) then parse_digits d else None
        | _ => None
        end
      else None
  | EmptyString => None
  end.

Fixpoint numArgsOf (descriptor : string) : nat :=
  match match_arity_here descriptor with
  | Some n => N.to_nat n
  | None =>
      match descriptor with
      | String _ rest => numArgsOf rest
      | EmptyString => 0%nat
      end
  end.

(** Pop [n] arguments, the last argument first; a missing one is null. *)
Fixpoint pop_args (n : nat) (args : list Value) (fr : StackFrame) : list Value * StackFrame :=
  match n with
  | O => (args, fr)
  | S n' =>
      let '(v, fr') := pop fr in
      pop_args n' (default createNullValue v :: args) fr'
  end.

(** [output[output.length - 1] += text]. *)
Definition append_to_last (text : string) (out : list string) : list string :=
  match out with
  | [] => []
  | _ => removelast out ++ [List.last out "" ++ text]
  end.

(** The object id a value carries, whatever its kind ([getRefId]). *)
Definition getRefId (v : option Value) : option string :=
  match v with
  | Some (Reference o) => o
  | Some (ArrayValue id _) => Some id
  | Some (LambdaValue id _) => Some id
  | _ => None
  end.

Definition find_field (name : string) (fs : list HeapField) : option (nat * HeapField) :=
  list_find (fun f => hf_name f = name) fs.

(** Update the heap object at index [i]. *)
Definition upd_object (i : nat) (g : HeapObject -> HeapObject) (m : Simulator) : Simulator :=
  set_state (set_heap (alter g i (heap (state m))) (state m)) m.

(** Write [fr] back as the top frame of thread [ti]. *)
Definition commit (ti : nat) (fr : StackFrame) (m : Simulator) : Simulator :=
  set_state (put_frame ti fr (state m)) m.

Definition upd_state (g : JVMState -> JVMState) (m : Simulator) : Simulator :=
  set_state (g (state m)) m.

(** How the execution of one instruction ends: it returns a description,
    the host raises an exception part-way, or a walk up a cyclic class
    hierarchy never ends. *)
Inductive Outcome :=
  | Normal (m : Simulator) (description : string)
  | Throws (m : Simulator)
  | Diverges.

(** ** Standard-library emulation

    [invokeStdlib] is a chain of families tried in order.  The [Thread]
    family and [String.hashCode] are embedded in full.  The families that
    only compute on the operand stack and the heap (String apart from
    hashCode, Character, the number classes, Math, the collections,
    Collections and Arrays before the [Thread] family; the exception
    constructors, StringBuilder, Scanner and array iterators after it) are
    an interface: whatever they do, they read the call and the step number,
    draw from the host, and change nothing but the heap, the object-id
    counter and the operand stack of the calling frame. *)

Record StdlibEffect := mkStdlibEffect {
  se_heap : list HeapObject;
  se_nextObjectId : Z;
  se_operandStack : list Value
}.

Inductive StdlibVerdict :=
  | Handled (description : string)
  | NotHandled
  | Raised.

Class DataStdlib := {
  earlyFamilies :
    string -> list Value -> bool -> string -> option Value -> HostEntropy ->
    Z -> list HeapObject -> Z -> list Value -> StdlibEffect * StdlibVerdict;
  lateFamilies :
    string -> list Value -> bool -> string -> option Value -> HostEntropy ->
    Z -> list HeapObject -> Z -> list Value -> StdlibEffect * StdlibVerdict
}.

Inductive StdlibResult :=
  | SHandled (fr : StackFrame) (m : Simulator) (description : string)
  | SNotHandled (fr : StackFrame) (m : Simulator)
  | SThrows (fr : StackFrame) (m : Simulator)
  | SDiverges.

Definition apply_effect (e : StdlibEffect) (fr : StackFrame) (m : Simulator)
    : StackFrame * Simulator :=
  (set_f_operandStack (se_operandStack e) fr,
   set_nextObjectId (se_nextObjectId e)
     (set_state (set_heap (se_heap e) (state m)) m)).

Definition status_name (st : ThreadStatus) : string :=
  match st with
  | NEW => "NEW" | RUNNABLE => "RUNNABLE" | RUNNING => "RUNNING"
  | BLOCKED => "BLOCKED" | WAITING => "WAITING"
  | TIMED_WAITING => "TIMED_WAITING" | TERMINATED => "TERMINATED"
  end.

(** The loop of [String.hashCode]:
    [h = (Math.imul(31, h) + s.charCodeAt(i)) | 0]. *)
Definition String_hashCode (s : string) : Z :=
  fold_left
    (fun h c => Js.to_int32 (Js.Math_imul 31 h + Z.of_N (N_of_ascii c)))
    (list_ascii_of_string s) 0.

Definition prim_string (s : string) : Value := createPrimitiveValue TString (PStr s).

Definition newThreadFields (idx : nat) (threadName : string) : list HeapField :=
  [ mkHeapField "$threadId" "String" (prim_string ("thread_" ++ pretty idx)) false;
    mkHeapField "name" "String" (prim_string threadName) false;
    mkHeapField "priority" "int" (createPrimitiveValue TInt (PNum (Js.Z2F 5))) false;
    mkHeapField "daemon" "boolean" (createPrimitiveValue TBoolean (PBool false)) false;
    mkHeapField "$status" "String" (prim_string "NEW") false ].

Definition has_field (name : string) (o : HeapObject) : bool :=
  bool_decide (is_Some (find_field name (ho_fields o))).

Definition add_fields (fs : list HeapField) (o : HeapObject) : HeapObject :=
  set_ho_fields (ho_fields o ++ fs) o.

(** [field.value = v] for the first field called [name], if there is one. *)
Definition assign_field (name : string) (v : Value) (o : HeapObject) : HeapObject :=
  match find_field name (ho_fields o) with
  | Some (i, _) => set_ho_fields (alter (set_hf_value v) i (ho_fields o)) o
  | None => o
  end.

Section Stdlib.
Context {host : JsHost} {lib : DataStdlib}.

(** The string a field holds when its value is a primitive. *)
Definition field_string (name : string) (o : option HeapObject) : option string :=
  match o with
  | Some obj =>
      match find_field name (ho_fields obj) with
      | Some (_, f) =>
          match hf_value f with
          | Primitive _ p => Some (ToString p)
          | _ => None
          end
      | None => None
      end
  | None => None
  end.

(** [obj] of [invokeStdlib] together with its place in the heap. *)
Definition receiver_object (objRef : option Value) (s : JVMState) : option (nat * HeapObject) :=
  match objRef with
  | Some (Reference o) =>
      match truthy_id o with
      | Some id => find_object id (heap s)
      | None => None
      end
  | _ => None
  end.

(** The walk of [Thread.start] up the superclasses in search of [run]. *)
Fixpoint findRunInSupers (cls : list CompiledClass) (fuel : nat) (sc : string)
    : option (option (CompiledMethod * string)) :=
  match fuel with
  | O => None
  | S fuel' =>
      if bool_decide (sc = "") || bool_decide (sc = "Object") || bool_decide (sc = "Thread")
      then Some None
      else
        match List.find (fun c => bool_decide (cc_name c = sc)) cls with
        | Some c =>
            match List.find (fun mth => bool_decide (cm_methodName mth = "run")) (cc_methods c) with
            | Some r => Some (Some (r, sc))
            | None => findRunInSupers cls fuel' (cc_superClass c)
            end
        | None => Some None
        end
  end.

Definition Thread_start (fr : StackFrame) (className : string) (objRef : option Value)
    (ent : HostEntropy) (m : Simulator) : StdlibResult :=
  let s := state m in
  let threadObj : option (nat * HeapObject) :=
    match receiver_object objRef s with
    | Some r => Some r
    | None =>
        match objRef with
        | Some v =>
            match truthy_id (getRefId (Some v)) with
            | Some refId => find_object refId (heap s)
            | None => None
            end
        | None => None
        end
    end in
  let runClassName := default className (ho_className ∘ snd <$> threadObj) in
  if bool_decide (is_Some threadObj) || negb (bool_decide (runClassName = "Thread")) then
    let uniqueIdx := length (threads s) in
    (* Ensure required fields exist *)
    let m1 :=
      match threadObj with
      | Some (oi, o) =>
          if has_field "$threadId" o then m
          else upd_object oi
                 (add_fields (newThreadFields uniqueIdx ("Thread-" ++ pretty uniqueIdx))) m
      | None => m
      end in
    let threadObj1 : option HeapObject :=
      match threadObj with
      | Some (oi, _) => heap (state m1) !! oi
      | None => None
      end in
    let name := default ("Thread-" ++ pretty uniqueIdx) (field_string "name" threadObj1) in
    let threadId := default ("thread_" ++ pretty uniqueIdx) (field_string "$threadId" threadObj1) in
    let cls := classes (program m) in
    let own := List.find (fun c => bool_decide (cc_name c = runClassName)) cls in
    let direct :=
      own ≫= fun c => List.find (fun mth => bool_decide (cm_methodName mth = "run")) (cc_methods c) in
    let resolved : option (option (CompiledMethod * string)) :=
      match direct with
      | Some r => Some (Some (r, runClassName))
      | None =>
          match own with
          | Some c => findRunInSupers cls (S (length cls)) (cc_superClass c)
          | None => Some None
          end
      end in
    match resolved with
    | None => SDiverges
    | Some None =>
        SHandled fr m1 ("Thread.start [run() not found in " ++ runClassName ++ "]")
    | Some (Some (runMethodNode, resolvedClass)) =>
        let sig := cm_signature runMethodNode in
        let startIdx := default 0 (methodOffsets (program m) !! (resolvedClass ++ "." ++ sig)) in
        let thisValue :=
          match objRef with
          | Some v => v
          | None => match threadObj1 with
                    | Some o => createReferenceValue (Some (ho_id o))
                    | None => createNullValue
                    end
          end in
        let runFrame :=
          {| f_id := ent_frameId ent; f_className := resolvedClass;
             f_methodName := "run"; f_methodSignature := sig;
             f_localVariables := [mkLocalVariable "this" runClassName thisValue 0];
             f_operandStack := []; f_pc := startIdx; f_lineNumber := 0;
             f_isNative := false |} in
        let newThread :=
          {| t_id := threadId; t_name := name; t_stack := [runFrame];
             t_status := RUNNABLE; t_sleepUntilStep := None;
             t_waitingOnMonitor := None; t_holdingMonitors := [];
             t_objectId := ho_id <$> threadObj1; t_priority := 5;
             t_isDaemon := false; t_stepCount := 0; t_interrupted := false |} in
        let m2 := upd_state (fun s => set_threads (threads s ++ [newThread]) s) m1 in
        let m3 :=
          match threadObj with
          | Some (oi, _) => upd_object oi (assign_field "$status" (prim_string "RUNNABLE")) m2
          | None => m2
          end in
        SHandled fr m3
          ("Thread.start() → spawned '" ++ name ++ "' (" ++ threadId ++ ") running "
           ++ resolvedClass ++ ".run()")
    end
  else SHandled fr m ("Thread.start [run() not found in " ++ runClassName ++ "]").

(** The [Thread] family of [invokeStdlib], entered when [isThreadClass]
    holds; [None] when the method name is none of its cases. *)
Definition threadFamily (fr : StackFrame) (methodName : string) (args : list Value)
    (className : string) (objRef : option Value) (ent : HostEntropy)
    (m : Simulator) : option StdlibResult :=
  let s := state m in
  let at_ := activeThread s in
  let activeT := activeThreadState s in
  let objI := receiver_object objRef s in
  let obj := snd <$> objI in
  let arg0 := args !! 0%nat in
  let refObjectId :=
    match objRef with
    | Some (Reference o) => truthy_id o
    | _ => None
    end in
  if bool_decide (methodName = "<init>") then
    match objI with
    | Some (oi, o) =>
        if has_field "$threadId" o then Some (SHandled fr m "Thread.<init>")
        else
          let n := length (threads s) in
          let threadName :=
            match arg0 with
            | Some (Primitive _ p) => ToString p
            | _ => "Thread-" ++ pretty n
            end in
          Some (SHandled fr (upd_object oi (add_fields (newThreadFields n threadName)) m)
                  "Thread.<init>")
    | None => Some (SHandled fr m "Thread.<init>")
    end
  else if bool_decide (methodName = "start") then
    Some (Thread_start fr className objRef ent m)
  else if bool_decide (methodName = "sleep") then
    let ms := match arg0 with
              | Some (Primitive _ p) => p
              | _ => PNum (Js.Z2F 100)
              end in
    let steps :=
      Js.Math_max PrimFloat.one
        (Js.Math_round (PrimFloat.div (ToNumber ms) (Js.Z2F 50))) in
    let m' :=
      match activeT with
      | Some _ =>
          upd_state
            (upd_thread at_
               (fun t => set_t_sleepUntilStep
                           (Some (Some (PrimFloat.add (Js.Z2F (stepNumber s)) steps)))
                           (set_t_status TIMED_WAITING t))) m
      | None => m
      end in
    Some (SHandled fr m'
            ("Thread.sleep(" ++ ToString ms ++ "ms) → TIMED_WAITING for "
             ++ numberToString steps ++ " steps"))
  else if bool_decide (methodName = "join") then
    let m' :=
      match obj, activeT with
      | Some _, Some _ =>
          match truthy_id (field_string "$threadId" obj) with
          | Some targetId =>
              match find_thread targetId (threads s) with
              | Some (_, targetThread) =>
                  if bool_decide (t_status targetThread = TERMINATED) then m
                  else upd_state
                         (upd_thread at_
                            (fun t => set_t_waitingOnMonitor (Some targetId)
                                        (set_t_status WAITING t))) m
              | None => m
              end
          | None => m
          end
      | _, _ => m
      end in
    Some (SHandled fr m' "Thread.join()")
  else if bool_decide (methodName = "wait") then
    let m' :=
      match refObjectId, activeT with
      | Some oid, Some t0 =>
          upd_state
            (fun s => releaseMonitor oid (t_id t0)
                        (upd_thread at_
                           (fun t => set_t_waitingOnMonitor (Some oid)
                                       (set_t_status WAITING t)) s)) m
      | _, _ => m
      end in
    Some (SHandled fr m' "Object.wait() → WAITING")
  else if bool_decide (methodName = "notify") then
    let m' :=
      match refObjectId with
      | Some oid =>
          match list_find (fun t => t_status t = WAITING /\ t_waitingOnMonitor t = Some oid)
                          (threads s) with
          | Some (j, _) =>
              upd_state
                (upd_thread j
                   (fun t => set_t_waitingOnMonitor None (set_t_status RUNNABLE t))) m
          | None => m
          end
      | None => m
      end in
    Some (SHandled fr m' "Object.notify()")
  else if bool_decide (methodName = "notifyAll") then
    let m' :=
      match refObjectId with
      | Some oid =>
          upd_state
            (fun s =>
               set_threads
                 ((fun t =>
                     if bool_decide (t_status t = WAITING)
                        && bool_decide (t_waitingOnMonitor t = Some oid)
                     then set_t_waitingOnMonitor None (set_t_status RUNNABLE t)
                     else t) <$> threads s) s) m
      | None => m
      end in
    Some (SHandled fr m' "Object.notifyAll()")
  else if bool_decide (methodName = "getName") then
    let n :=
      match obj with
      | Some _ => default "main" (field_string "name" obj)
      | None => match activeT with Some t => t_name t | None => "main" end
      end in
    Some (SHandled (push (prim_string n) fr) m "Thread.getName()")
  else if bool_decide (methodName = "getId") then
    let currentId :=
      match obj with
      | Some _ => default "main" (field_string "$threadId" obj)
      | None => match activeT with Some t => t_id t | None => "main" end
      end in
    Some (SHandled (push (prim_string currentId) fr) m "Thread.getId()")
  else if bool_decide (methodName = "getState") then
    let tId :=
      match obj with
      | Some _ => field_string "$threadId" obj
      | None => t_id <$> activeT
      end in
    let t := truthy_id tId ≫= fun id => snd <$> find_thread id (threads s) in
    Some (SHandled
            (push (prim_string (default "TERMINATED" (status_name ∘ t_status <$> t))) fr)
            m "Thread.getState()")
  else if bool_decide (methodName = "isAlive") then
    let t := truthy_id (field_string "$threadId" obj)
               ≫= fun id => snd <$> find_thread id (threads s) in
    let alive :=
      match t with
      | Some t => negb (bool_decide (t_status t = TERMINATED))
                  && negb (bool_decide (t_status t = NEW))
      | None => false
      end in
    Some (SHandled (push (createPrimitiveValue TBoolean (PBool alive)) fr) m "Thread.isAlive()")
  else if bool_decide (methodName = "setPriority") then
    let p := match arg0 with
             | Some (Primitive _ p) => p
             | _ => PNum (Js.Z2F 5)
             end in
    let m' :=
      match objI with
      | Some (oi, _) => upd_object oi (assign_field "priority" (createPrimitiveValue TInt p)) m
      | None => m
      end in
    Some (SHandled fr m' ("Thread.setPriority(" ++ ToString p ++ ")"))
  else if bool_decide (methodName = "setDaemon") then
    let d := match arg0 with
             | Some (Primitive _ p) => ToBoolean p
             | _ => false
             end in
    let m' :=
      match objI with
      | Some (oi, _) =>
          upd_object oi (assign_field "daemon" (createPrimitiveValue TBoolean (PBool d))) m
      | None => m
      end in
    Some (SHandled fr m' ("Thread.setDaemon(" ++ (if d then "true" else "false") ++ ")"))
  else if bool_decide (methodName = "currentThread") then
    Some (SHandled (push (createReferenceValue (activeT ≫= t_objectId)) fr) m
            "Thread.currentThread()")
  else if bool_decide (methodName = "interrupt") then
    let m' :=
      match activeT with
      | Some _ => upd_state (upd_thread at_ (set_t_interrupted true)) m
      | None => m
      end in
    Some (SHandled fr m' "Thread.interrupt()")
  else if bool_decide (methodName = "isInterrupted") then
    let t :=
      match truthy_id (field_string "$threadId" obj) with
      | Some tId => snd <$> find_thread tId (threads s)
      | None => activeT
      end in
    Some (SHandled
            (push (createPrimitiveValue TBoolean (PBool (default false (t_interrupted <$> t)))) fr)
            m "Thread.isInterrupted()")
  else if bool_decide (methodName = "interrupted") then
    let wasInterrupted := default false (t_interrupted <$> activeT) in
    let m' :=
      match activeT with
      | Some _ => upd_state (upd_thread at_ (set_t_interrupted false)) m
      | None => m
      end in
    Some (SHandled (push (createPrimitiveValue TBoolean (PBool wasInterrupted)) fr) m'
            "Thread.interrupted()")
  else if bool_decide (methodName = "yield") then
    Some (SHandled (push createNullValue fr) (upd_state rotateThread m) "Thread.yield()")
  else None.

(** [isThreadClass], with the short-circuit order of the source. *)
Definition isThreadClass (p : CompiledProgram) (className : string)
    (obj : option HeapObject) : option bool :=
  if bool_decide (className = "Thread") then Some true
  else
    match isSubclassOf p className "Thread" with
    | None => None
    | Some true => Some true
    | Some false =>
        match obj with
        | Some o =>
            if bool_decide (ho_className o = "Thread") then Some true
            else isSubclassOf p (ho_className o) "Thread"
        | None => Some false
        end
    end.

(** The receiver string of the String family. *)
Definition stringReceiver (objRef : option Value) : option string :=
  match objRef with
  | Some (Primitive TString PNull) => Some ""
  | Some (Primitive TString p) => Some (ToString p)
  | _ => None
  end.

Definition run_family
    (family : string -> list Value -> bool -> string -> option Value -> HostEntropy ->
              Z -> list HeapObject -> Z -> list Value -> StdlibEffect * StdlibVerdict)
    (fr : StackFrame) (methodName : string) (args : list Value) (isStatic : bool)
    (className : string) (objRef : option Value) (ent : HostEntropy) (m : Simulator)
    : StackFrame * Simulator * StdlibVerdict :=
  let '(e, verdict) :=
    family methodName args isStatic className objRef ent (stepNumber (state m))
      (heap (state m)) (nextObjectId m) (f_operandStack fr) in
  (apply_effect e fr m, verdict).

(** [invokeStdlib]. *)
Definition invokeStdlib (fr : StackFrame) (methodName : string) (args : list Value)
    (isStatic : bool) (className : string) (objRef : option Value)
    (ent : HostEntropy) (m : Simulator) : StdlibResult :=
  let obj := snd <$> receiver_object objRef (state m) in
  let strVal := stringReceiver objRef in
  if (bool_decide (className = "String") || bool_decide (is_Some strVal))
     && bool_decide (methodName = "hashCode") then
    let s :=
      match strVal with
      | Some v => v
      | None =>
          match obj ≫= ho_stringValue with
          | Some sv => sv
          | None => default "" (field_string "$value" obj)
          end
      end in
    SHandled (push (createPrimitiveValue TInt (PNum (Js.Z2F (String_hashCode s)))) fr) m
      "String.hashCode"
  else
    match run_family earlyFamilies fr methodName args isStatic className objRef ent m with
    | (fr1, m1, Handled d) => SHandled fr1 m1 d
    | (fr1, m1, Raised) => SThrows fr1 m1
    | (fr1, m1, NotHandled) =>
        let obj1 := snd <$> receiver_object objRef (state m1) in
        match isThreadClass (program m1) className obj1 with
        | None => SDiverges
        | Some isThread =>
            match (if isThread
                   then threadFamily fr1 methodName args className objRef ent m1
                   else None) with
            | Some r => r
            | None =>
                match run_family lateFamilies fr1 methodName args isStatic className
                        objRef ent m1 with
                | (fr2, m2, Handled d) => SHandled fr2 m2 d
                | (fr2, m2, Raised) => SThrows fr2 m2
                | (fr2, m2, NotHandled) => SNotHandled fr2 m2
                end
            end
        end
    end.

(** The walk of [invokeMethod] up the superclasses in search of the method. *)
Fixpoint lookupInSupers (cls : list CompiledClass) (fuel : nat)
    (currentClassStr methodName : string)
    : option (option (CompiledClass * CompiledMethod)) :=
  match fuel with
  | O => None
  | S fuel' =>
      if bool_decide (currentClassStr = "") || bool_decide (currentClassStr = "Object")
      then Some None
      else
        match List.find (fun c => bool_decide (cc_name c = currentClassStr)) cls with
        | None => Some None
        | Some c =>
            match List.find (fun mth => bool_decide (cm_methodName mth = methodName))
                            (cc_methods c) with
            | Some mth => Some (Some (c, mth))
            | None => lookupInSupers cls fuel' (cc_superClass c) methodName
            end
        end
  end.

Definition lookupMethod (p : CompiledProgram) (targetClassName methodName : string)
    : option (option (CompiledClass * CompiledMethod)) :=
  match List.find (fun c => bool_decide (cc_name c = targetClassName)) (classes p) with
  | None => Some None
  | Some c =>
      match List.find (fun mth => bool_decide (cm_methodName mth = methodName))
                      (cc_methods c) with
      | Some mth => Some (Some (c, mth))
      | None =>
          lookupInSupers (classes p) (S (length (classes p))) (cc_superClass c) methodName
      end
  end.

(** The locals of the callee frame: [this], then one per argument. *)
Definition argumentLocals (isStatic : bool) (table : list LocalVariableEntry)
    (args : list Value) : list LocalVariable :=
  imap
    (fun i v =>
       let expectedSlot := if isStatic then Z.of_nat i else Z.of_nat i + 1 in
       let locVar := List.find (fun e => bool_decide (lve_index e = expectedSlot)) table in
       mkLocalVariable
         (default ("arg" ++ pretty i) (truthy_id (lve_name <$> locVar)))
         (default "Object" (truthy_id (lve_type <$> locVar)))
         v expectedSlot)
    args.

(** [invokeMethod]. *)
Definition invokeMethod (ti : nat) (fr : StackFrame) (kind : OpCode.invoke)
    (methodName descriptor : string) (classOp : option string)
    (ent : HostEntropy) (m : Simulator) : Outcome :=
  let isStatic :=
    match kind with OpCode.INVOKE_STATIC => true | _ => false end in
  let numArgs := numArgsOf descriptor in
  (* Universal built-ins (before arg popping) *)
  if bool_decide (methodName = "toString") && bool_decide (numArgs = 0%nat) && negb isStatic then
    let '(obj, fr1) := pop fr in
    let text := match obj with Some v => valueToString v | None => "null" end in
    Normal (commit ti (advance (push (prim_string text) fr1)) m) "toString()"
  else if bool_decide (methodName = "hashCode") && bool_decide (numArgs = 0%nat) && negb isStatic then
    let '(_, fr1) := pop fr in
    let h := Js.Math_floor (PrimFloat.mul (ent_random ent) (Js.Z2F 100000)) in
    Normal (commit ti (advance (push (createPrimitiveValue TInt (PNum h)) fr1)) m) "hashCode()"
  else
    let '(args, fr1) := pop_args numArgs [] fr in
    let '(targetClassName, objRef, fr2) :=
      if isStatic then (default (f_className fr) classOp, None, fr1)
      else
        let '(objRef, fr2) := pop fr1 in
        let fromHeap :=
          match objRef with
          | Some (Reference (Some refObjId)) =>
              default "" (ho_className ∘ snd <$> find_object refObjId (heap (state m)))
          | _ => ""
          end in
        let tcn :=
          if bool_decide (fromHeap = "") then
            match objRef with
            | Some (Primitive TString _) => "String"
            | Some (Primitive _ _) => "Object"
            | _ => fromHeap
            end
          else fromHeap in
        (tcn, objRef, fr2) in
    match invokeStdlib fr2 methodName args isStatic targetClassName objRef ent m with
    | SDiverges => Diverges
    | SThrows fr3 m3 => Throws (commit ti fr3 m3)
    | SHandled fr3 m3 d => Normal (commit ti (advance fr3) m3) d
    | SNotHandled fr3 m3 =>
        if bool_decide (targetClassName = "") then
          Normal (commit ti (advance fr3) m3) ("Null pointer calling " ++ methodName ++ "()")
        else
          match lookupMethod (program m3) targetClassName methodName with
          | None => Diverges
          | Some None =>
              Normal (commit ti (advance fr3) m3) ("Invoke " ++ methodName ++ "() [stdlib no-op]")
          | Some (Some (targetClass, methodNode)) =>
              let fr4 := advance fr3 in
              let signature := cm_signature methodNode in
              let startIndex :=
                default 0 (methodOffsets (program m3) !! (cc_name targetClass ++ "." ++ signature)) in
              let thisLocal :=
                match objRef with
                | Some v => if isStatic then [] else [mkLocalVariable "this" targetClassName v 0]
                | None => []
                end in
              let newFrame :=
                {| f_id := ent_frameId ent; f_className := cc_name targetClass;
                   f_methodName := methodName; f_methodSignature := signature;
                   f_localVariables :=
                     thisLocal ++ argumentLocals isStatic (cm_localVariableTable methodNode) args;
                   f_operandStack := []; f_pc := startIndex;
                   f_lineNumber := f_lineNumber fr4; f_isNative := false |} in
              let m4 := commit ti fr4 m3 in
              let m5 :=
                match activeThreadState (state m4) with
                | Some _ =>
                    upd_state
                      (fun s => upd_thread (activeThread s)
                                  (fun t => set_t_stack (newFrame :: t_stack t) t) s) m4
                | None => upd_state (fun s => set_stack (newFrame :: stack s) s) m4
                end in
              Normal m5 ("Invoke " ++ methodName ++ "(...)")
          end
    end.

(** The string-concatenation operand of [ADD]. *)
Definition concatOperand (v : option Value) : string :=
  match v with
  | None => "null"
  | Some (Primitive _ PNull) => "null"
  | Some (Primitive _ p) => ToString p
  | Some (Reference o) =>
      match truthy_id o with
      | Some id => "ref@" ++ id
      | None => "null"
      end
  | Some w => valueToString w
  end.

Definition is_string_primitive (v : option Value) : bool :=
  match v with
  | Some (Primitive TString _) => true
  | _ => false
  end.

(** The number (or, for a string operand of [+], the string) that an
    arithmetic instruction computes from two primitive payloads. *)
Definition arithResult (op : OpCode.arith) (ta tb : PrimitiveType) (av bv : Payload) : Payload :=
  match op with
  | OpCode.ADD => js_add av bv
  | OpCode.SUB => js_sub av bv
  | OpCode.MUL => js_mul av bv
  | OpCode.DIV =>
      let result := if strict_ne_zero bv then js_div av bv else PrimFloat.zero in
      if bool_decide (ta = TInt) && bool_decide (tb = TInt)
      then PNum (Js.Math_trunc result) else PNum result
  | OpCode.MOD =>
      PNum (if strict_ne_zero bv then js_rem av bv else PrimFloat.zero)
  end.

Definition compareResult (op : OpCode.cmp) (a b : option Value) : bool :=
  match a, b with
  | Some (Primitive _ av), Some (Primitive _ bv) =>
      match op with
      | OpCode.CMP_EQ => js_strict_eq av bv
      | OpCode.CMP_NE => negb (js_strict_eq av bv)
      | OpCode.CMP_LT => js_lt av bv
      | OpCode.CMP_LE => js_le av bv
      | OpCode.CMP_GT => js_lt bv av
      | OpCode.CMP_GE => js_le bv av
      end
  | Some (Reference x), Some (Reference y) =>
      match op with
      | OpCode.CMP_EQ => bool_decide (x = y)
      | OpCode.CMP_NE => negb (bool_decide (x = y))
      | _ => false
      end
  | _, _ => false
  end.

(** [v?.kind === 'primitive' && v.value], as a condition. *)
Definition primitive_truthy (v : option Value) : bool :=
  match v with
  | Some (Primitive _ p) => ToBoolean p
  | _ => false
  end.

Definition bool_text (b : bool) : string := if b then "true" else "false".

(** The heap object a popped reference designates, with its index. *)
Definition deref (v : option Value) (s : JVMState) : option (nat * HeapObject) :=
  match v with
  | Some (Reference o) =>
      match truthy_id o with
      | Some id => find_object id (heap s)
      | None => None
      end
  | _ => None
  end.

(** [executeInstruction] for the thread at index [ti], whose top frame is
    [frame]. *)
Definition executeInstruction (ti : nat) (instr : Instruction) (frame : StackFrame)
    (ent : HostEntropy) (m : Simulator) : Outcome :=
  let s := state m in
  match opcode instr with
  | OpCode.NOP =>
      Normal (commit ti (advance frame) m) "No operation"
  | OpCode.LINE line =>
      let fr := advance (set_f_lineNumber line frame) in
      let m1 :=
        upd_state
          (fun s => set_pc (mkProgramCounter (currentInstruction (pc s)) line
                              (currentMethod (pc s)) (currentClass (pc s))) s) m in
      Normal (commit ti fr m1) ("Line " ++ pretty line)
  | OpCode.LOAD_CONST operand =>
      let value := operandToValue operand in
      Normal (commit ti (advance (push value frame)) m)
        ("Push constant " ++ valueToString value)
  | OpCode.PUSH_NULL =>
      Normal (commit ti (advance (push createNullValue frame)) m) "Push null"
  | OpCode.LOAD_LOCAL index name =>
      match List.find (fun v => bool_decide (lv_slot v = index)) (f_localVariables frame) with
      | Some localVar =>
          Normal (commit ti (advance (push (lv_value localVar) frame)) m)
            ("Load local " ++ name ++ " = " ++ valueToString (lv_value localVar))
      | None =>
          Normal (commit ti (advance (push createNullValue frame)) m)
            ("Load local " ++ name ++ " (not found)")
      end
  | OpCode.STORE_LOCAL index name =>
      let '(popped, fr1) := pop frame in
      let value := default createNullValue popped in
      let locals :=
        match list_find (fun v => lv_slot v = index) (f_localVariables fr1) with
        | Some (i, _) => alter (set_lv_value value) i (f_localVariables fr1)
        | None => (f_localVariables fr1 ++ [mkLocalVariable name "Object" value index])%list
        end in
      Normal (commit ti (advance (set_f_localVariables locals fr1)) m)
        ("Store " ++ name ++ " = " ++ valueToString value)
  | OpCode.NEW className =>
      let '(objectId, m1) := allocateObject className m in
      Normal (commit ti (advance (push (createReferenceValue (Some objectId)) frame)) m1)
        ("New " ++ className ++ " -> @" ++ objectId)
  | OpCode.NEWARRAY elementType =>
      let '(length, fr1) := pop frame in
      let len := match length with
                 | Some (Primitive _ p) => p
                 | _ => PNum PrimFloat.zero
                 end in
      match new_filled_array len (getDefaultValue elementType) with
      | None => Throws (commit ti fr1 m)
      | Some elements =>
          let '(arrayId, m1) := allocateArray elementType elements m in
          Normal (commit ti (advance (push (createReferenceValue (Some arrayId)) fr1)) m1)
            ("New " ++ elementType ++ "[" ++ ToString len ++ "] -> @" ++ arrayId)
      end
  | OpCode.ARRAYLENGTH =>
      let '(ref, fr1) := pop frame in
      match ref with
      | Some (Reference o) =>
          match truthy_id o with
          | Some id =>
              match (snd <$> find_object id (heap s)) ≫= ho_arrayLength with
              | Some n =>
                  Normal (commit ti (advance (push (createPrimitiveValue TInt (PNum (Js.Z2F n))) fr1)) m)
                    ("Array length = " ++ pretty n)
              | None =>
                  Normal (commit ti (advance (push (createPrimitiveValue TInt (PNum PrimFloat.zero)) fr1)) m) ""
              end
          | None => Normal (commit ti (advance fr1) m) ""
          end
      | _ => Normal (commit ti (advance fr1) m) ""
      end
  | OpCode.ARRAYLOAD =>
      let '(index, fr1) := pop frame in
      let '(arrayRef, fr2) := pop fr1 in
      match index, deref arrayRef s ≫= (ho_arrayElements ∘ snd) with
      | Some (Primitive _ idx), Some elements =>
          let value := default createNullValue (array_index idx ≫= fun i => mjoin (elements !! i)) in
          Normal (commit ti (advance (push value fr2)) m)
            ("Load array[" ++ ToString idx ++ "] = " ++ valueToString value)
      | _, _ => Normal (commit ti (advance fr2) m) ""
      end
  | OpCode.ARRAYSTORE =>
      let '(value, fr1) := pop frame in
      let '(index, fr2) := pop fr1 in
      let '(arrayRef, fr3) := pop fr2 in
      match value, index, deref arrayRef s with
      | Some v, Some (Primitive _ idx), Some (oi, obj) =>
          match ho_arrayElements obj with
          | Some elements =>
              let m1 :=
                match array_index idx with
                | Some i => upd_object oi (set_ho_arrayElements (Some (array_store i v elements))) m
                | None => m
                end in
              Normal (commit ti (advance fr3) m1)
                ("Store array[" ++ ToString idx ++ "] = " ++ valueToString v)
          | None => Normal (commit ti (advance fr3) m) ""
          end
      | _, _, _ => Normal (commit ti (advance fr3) m) ""
      end
  | OpCode.GETFIELD fieldName _ =>
      let '(objRef, fr1) := pop frame in
      match deref objRef s with
      | Some (_, obj) =>
          if bool_decide (fieldName = "length") && bool_decide (ho_type obj = KArray) then
            let n :=
              match ho_arrayLength obj with
              | Some n => n
              | None => default 0 (Z.of_nat ∘ length <$> ho_arrayElements obj)
              end in
            Normal (commit ti (advance (push (createPrimitiveValue TInt (PNum (Js.Z2F n))) fr1)) m)
              ("Get array.length = " ++ default "undefined" (pretty <$> ho_arrayLength obj))
          else
            let field := snd <$> find_field fieldName (ho_fields obj) in
            Normal (commit ti (advance (push (default createNullValue (hf_value <$> field)) fr1)) m)
              ("Get field " ++ fieldName ++ " = "
               ++ default "null" (valueToString ∘ hf_value <$> field))
      | None => Normal (commit ti (advance (push createNullValue fr1)) m) ""
      end
  | OpCode.PUTFIELD fieldName _ =>
      let '(popped, fr1) := pop frame in
      let value := default createNullValue popped in
      let '(objRef, fr2) := pop fr1 in
      match deref objRef s with
      | Some (oi, obj) =>
          let g o :=
            match find_field fieldName (ho_fields o) with
            | Some (i, _) => set_ho_fields (alter (set_hf_value value) i (ho_fields o)) o
            | None => add_fields [mkHeapField fieldName "Object" value false] o
            end in
          Normal (commit ti (advance fr2) (upd_object oi g m))
            ("Set field " ++ fieldName ++ " = " ++ valueToString value)
      | None => Normal (commit ti (advance fr2) m) ""
      end
  | OpCode.GETSTATIC fieldName owner =>
      let className := if bool_decide (owner = "") then f_className frame else owner in
      match staticFields (methodArea s) !! className ≫= fun fs => fs !! fieldName with
      | Some v =>
          Normal (commit ti (advance (push v frame)) m)
            ("Get static " ++ className ++ "." ++ fieldName)
      | None => Normal (commit ti (advance (push createNullValue frame)) m) ""
      end
  | OpCode.PUTSTATIC fieldName owner =>
      let '(popped, fr1) := pop frame in
      let value := default createNullValue popped in
      let className := if bool_decide (owner = "") then f_className frame else owner in
      let m1 :=
        upd_state
          (fun s =>
             let sf := staticFields (methodArea s) in
             let fs := default ∅ (sf !! className) in
             set_methodArea
               {| loadedClasses := loadedClasses (methodArea s);
                  staticFields := <[className := <[fieldName := value]> fs]> sf |} s) m in
      Normal (commit ti (advance fr1) m1)
        ("Set static " ++ className ++ "." ++ fieldName ++ " = " ++ valueToString value)
  | OpCode.DUP =>
      let fr1 := match f_operandStack frame with
                 | top :: _ => push top frame
                 | [] => frame
                 end in
      Normal (commit ti (advance fr1) m) "Duplicate top of stack"
  | OpCode.DUP_X1 =>
      let '(value1, fr1) := pop frame in
      let '(value2, fr2) := pop fr1 in
      let fr3 := match value1, value2 with
                 | Some v1, Some v2 => push v1 (push v2 (push v1 fr2))
                 | _, _ => fr2
                 end in
      Normal (commit ti (advance fr3) m) "Duplicate top of stack and insert two values down"
  | OpCode.POP =>
      Normal (commit ti (advance (snd (pop frame))) m) "Pop top of stack"
  | OpCode.SWAP =>
      let '(a, fr1) := pop frame in
      let '(b, fr2) := pop fr1 in
      let fr3 := match a with Some v => push v fr2 | None => fr2 end in
      let fr4 := match b with Some v => push v fr3 | None => fr3 end in
      Normal (commit ti (advance fr4) m) "Swap top two values"
  | OpCode.ARITH op =>
      let '(b, fr1) := pop frame in
      let '(a, fr2) := pop fr1 in
      if OpCode.is_add op && (is_string_primitive a || is_string_primitive b) then
        (* String concatenation *)
        let text := concatOperand a ++ concatOperand b in
        Normal (commit ti (advance (push (prim_string text) fr2)) m)
          ("String concat: " ++ dquote ++ text ++ dquote)
      else
        match a, b with
        | Some (Primitive ta av), Some (Primitive tb bv) =>
            let result := arithResult op ta tb av bv in
            Normal (commit ti (advance (push (createPrimitiveValue ta result) fr2)) m)
              (ToString av ++ " " ++ OpCode.arith_name op ++ " " ++ ToString bv
               ++ " = " ++ ToString result)
        | _, _ =>
            (* Fallback: push null *)
            Normal (commit ti (advance (push createNullValue fr2)) m)
              (OpCode.arith_name op ++ " on incompatible types")
        end
  | OpCode.NEG =>
      let '(a, fr1) := pop frame in
      match a with
      | Some (Primitive ta av) =>
          Normal (commit ti (advance (push (createPrimitiveValue ta
                                              (PNum (PrimFloat.opp (ToNumber av)))) fr1)) m)
            ("Negate " ++ ToString av)
      | _ => Normal (commit ti (advance fr1) m) ""
      end
  | OpCode.CMP op =>
      let '(b, fr1) := pop frame in
      let '(a, fr2) := pop fr1 in
      let result := compareResult op a b in
      Normal (commit ti (advance (push (createPrimitiveValue TBoolean (PBool result)) fr2)) m)
        ("Compare: " ++ bool_text result)
  | OpCode.AND =>
      let '(b, fr1) := pop frame in
      let '(a, fr2) := pop fr1 in
      let result := primitive_truthy a && primitive_truthy b in
      Normal (commit ti (advance (push (createPrimitiveValue TBoolean (PBool result)) fr2)) m)
        ("AND: " ++ bool_text result)
  | OpCode.OR =>
      let '(b, fr1) := pop frame in
      let '(a, fr2) := pop fr1 in
      let result := primitive_truthy a || primitive_truthy b in
      Normal (commit ti (advance (push (createPrimitiveValue TBoolean (PBool result)) fr2)) m)
        ("OR: " ++ bool_text result)
  | OpCode.NOT =>
      let '(a, fr1) := pop frame in
      let result := negb (primitive_truthy a) in
      Normal (commit ti (advance (push (createPrimitiveValue TBoolean (PBool result)) fr1)) m)
        ("NOT: " ++ bool_text result)
  | OpCode.GOTO target =>
      Normal (commit ti (set_f_pc target frame) m)
        ("Jump to instruction " ++ pretty target)
  | OpCode.IF_TRUE target =>
      let '(condition, fr1) := pop frame in
      if primitive_truthy condition then
        Normal (commit ti (set_f_pc target fr1) m) ("Condition true, jump to " ++ pretty target)
      else Normal (commit ti (advance fr1) m) "Condition false, continue"
  | OpCode.IF_FALSE target =>
      let '(condition, fr1) := pop frame in
      match condition with
      | Some (Primitive _ p) =>
          if ToBoolean p then Normal (commit ti (advance fr1) m) "Condition true, continue"
          else Normal (commit ti (set_f_pc target fr1) m)
                 ("Condition false, jump to " ++ pretty target)
      | _ => Normal (commit ti (advance fr1) m) "Condition true, continue"
      end
  | OpCode.INVOKE kind methodName descriptor classOp =>
      invokeMethod ti frame kind methodName descriptor classOp ent m
  | OpCode.RETURN =>
      Normal (upd_state (upd_thread ti (fun t => set_t_stack (tail (t_stack t)) t)) m)
        "Return void"
  | OpCode.RETURN_VALUE =>
      let '(returnValue, fr1) := pop frame in
      let m1 := upd_state (upd_thread ti (fun t => set_t_stack (tail (t_stack t)) t))
                  (commit ti fr1 m) in
      let m2 :=
        match returnValue with
        | Some v =>
            upd_state
              (fun s => upd_thread (activeThread s)
                          (fun t => set_t_stack (upd_top (push v) (t_stack t)) t) s) m1
        | None => m1
        end in
      Normal m2 ("Return " ++ match returnValue with
                              | Some v => valueToString v
                              | None => "void"
                              end)
  | OpCode.PRINT isPrintln =>
      let isPrintln := default true isPrintln in
      let '(value, fr1) := pop frame in
      let outputStr := match value with
                       | Some v => strip_quotes (valueToString v)
                       | None => "null"
                       end in
      let m1 :=
        upd_state
          (fun s =>
             let out0 := match output s with [] => [""] | o => o end in
             let out1 := append_to_last outputStr out0 in
             set_output (if isPrintln then out1 ++ [""] else out1) s) m in
      Normal (commit ti (advance fr1) m1) ("Print: " ++ outputStr)
  | OpCode.MONITORENTER =>
      let '(lockRef, fr1) := pop frame in
      let objectId := match lockRef with
                      | Some (Reference o) => truthy_id o
                      | _ => None
                      end in
      match objectId, activeThreadState s, lockRef with
      | Some oid, Some activeT, Some ref =>
          let '(s1, acquired) := acquireMonitor oid (t_id activeT) s in
          if acquired then
            Normal (commit ti (advance fr1) (set_state s1 m))
              ("MONITORENTER: Thread '" ++ t_name activeT ++ "' acquired monitor @" ++ oid)
          else
            let s2 :=
              upd_thread (activeThread s1)
                (fun t => set_t_waitingOnMonitor (Some oid) (set_t_status BLOCKED t)) s1 in
            Normal (commit ti (push ref fr1) (set_state s2 m))
              ("MONITORENTER: Thread '" ++ t_name activeT
               ++ "' BLOCKED waiting for monitor @" ++ oid)
      | _, _, _ => Normal (commit ti (advance fr1) m) ""
      end
  | OpCode.MONITOREXIT =>
      let '(lockRef, fr1) := pop frame in
      let objectId := match lockRef with
                      | Some (Reference o) => truthy_id o
                      | _ => None
                      end in
      match objectId, activeThreadState s with
      | Some oid, Some activeT =>
          Normal (commit ti (advance fr1) (upd_state (releaseMonitor oid (t_id activeT)) m))
            ("MONITOREXIT: Thread '" ++ t_name activeT ++ "' released monitor @" ++ oid)
      | _, _ => Normal (commit ti (advance fr1) m) ""
      end
  | OpCode.LAMBDA_CREATE lambdaInfo =>
      let '(lambdaId, m1) := allocateLambda lambdaInfo m in
      Normal (commit ti (advance (push (createReferenceValue (Some lambdaId)) frame)) m1)
        ("Create lambda -> @" ++ lambdaId)
  | OpCode.LAMBDA_INVOKE =>
      Normal (commit ti (advance frame) m) "Invoke lambda"
  | OpCode.STREAM op =>
      Normal (commit ti (advance frame) m) ("Stream operation: " ++ OpCode.stream_name op)
  | OpCode.INSTANCEOF typeName =>
      let '(ref, fr1) := pop frame in
      let result :=
        match ref with
        | Some (Reference o) =>
            match truthy_id o with
            | Some id =>
                match find_object id (heap s) with
                | Some (_, obj) =>
                    bool_decide (ho_className obj = typeName) || bool_decide (typeName = "Object")
                | None => false
                end
            | None => false
            end
        | _ => false
        end in
      Normal (commit ti (advance (push (createPrimitiveValue TBoolean (PBool result)) fr1)) m)
        ("instanceof " ++ typeName)
  | OpCode.CHECKCAST =>
      Normal (commit ti (advance frame) m) "checkcast"
  | OpCode.THROW =>
      let '(exRef, fr1) := pop frame in
      let exObj := snd <$> deref exRef s in
      let exType :=
        default "RuntimeException" (truthy_id (ho_className <$> exObj)) in
      let msgField :=
        exObj ≫= fun o =>
          List.find (fun f => bool_decide (hf_name f = "message")
                              || bool_decide (hf_name f = "detailMessage")) (ho_fields o) in
      let exMsg :=
        match msgField with
        | Some f => match hf_value f with
                    | Primitive _ p => ToString p
                    | _ => exType
                    end
        | None => exType
        end in
      let m1 :=
        upd_state (fun s => set_status st_error (set_error (Some (exType ++ ": " ++ exMsg)) s)) m in
      Normal (commit ti fr1 m1) ("throw " ++ exType ++ ": " ++ exMsg)
  | OpCode.OTHER name =>
      Normal (commit ti (advance frame) m) ("Unknown opcode: " ++ name)
  end.

End Stdlib.

(** ** The stepping interpreter *)

(** How a call of [step] ends: it returns a result, lets an exception of
    the host escape, or never returns. *)
Inductive StepOutcome :=
  | StepReturns (m : Simulator) (r : ExecutionResult)
  | StepThrows (m : Simulator)
  | StepDiverges.

Definition returning (m : Simulator) (instr : option Instruction) (description : string)
    : StepOutcome :=
  StepReturns m (mkExecutionResult (cloneState m) instr description).

(** [state.threads.every(t => t.status === 'TERMINATED')]. *)
Definition allTerminated (s : JVMState) : bool :=
  forallb (fun t => bool_decide (t_status t = TERMINATED)) (threads s).

Definition settledStatus (s : JVMState) : ExecutionStatus :=
  if allTerminated s then st_completed else st_paused.

(** [state.stack = activeThreadState()?.stack ?? []]. *)
Definition syncStack (s : JVMState) : JVMState :=
  set_stack (default [] (t_stack <$> activeThreadState s)) s.

(** The two places where [step] finds the thread at index [ti] finished:
    mark it TERMINATED, release its monitors, rotate. *)
Definition retireThread (ti : nat) (s : JVMState) : JVMState :=
  let s1 := upd_thread ti (set_t_status TERMINATED) s in
  let s2 := releaseAllMonitors ti s1 in
  let s3 := syncStack (rotateThread s2) in
  let s4 := set_stepNumber (stepNumber s3 + 1) s3 in
  set_status (settledStatus s4) s4.

(** The bookkeeping of [step] after the instruction has been executed. *)
Definition afterInstruction (ti : nat) (s : JVMState) : JVMState :=
  let s1 := set_stepNumber (stepNumber s + 1) s in
  let s2 := upd_thread ti (fun t => set_t_stepCount (t_stepCount t + 1) t) s1 in
  let s3 :=
    match threads s2 !! ti with
    | Some thread =>
        match t_stack thread with
        | [] => releaseAllMonitors ti (upd_thread ti (set_t_status TERMINATED) s2)
        | _ => if bool_decide (t_status thread = RUNNING)
               then upd_thread ti (set_t_status RUNNABLE) s2 else s2
        end
    | None => s2
    end in
  let s4 := syncStack (rotateThread s3) in
  let s5 := set_status (settledStatus s4) s4 in
  match activeThreadState s5 ≫= fun t => head (t_stack t) with
  | Some activeFrame =>
      set_pc {| currentInstruction := f_pc activeFrame;
                currentLine := f_lineNumber activeFrame;
                currentMethod := f_methodName activeFrame;
                currentClass := f_className activeFrame |} s5
  | None => s5
  end.

(** The instruction at [pc], if [pc] is an index of the program. *)
Definition fetch (p : CompiledProgram) (pc : Z) : option Instruction :=
  if 0 <=? pc then allInstructions p !! Z.to_nat pc else None.

Definition is_finished (s : JVMState) : bool :=
  bool_decide (status s = st_completed) || bool_decide (status s = st_error).

Definition schedulable_now (s : JVMState) : bool :=
  match activeThreadState s with
  | Some t => is_schedulable t
  | None => false
  end.

Section Engine.
Context {host : JsHost} {lib : DataStdlib}.

(** [step], from the point where a schedulable active thread has been
    found. *)
Definition runActiveThread (ent : HostEntropy) (m : Simulator) : StepOutcome :=
  let ti := activeThread (state m) in
  match activeThreadState (state m) with
  | None => StepThrows m
  | Some thread0 =>
      let m1 := upd_state (upd_thread ti (set_t_status RUNNING)) m in
      match t_stack thread0 with
      | [] =>
          (* Thread finished *)
          returning (upd_state (retireThread ti) m1) None
            ("Thread '" ++ t_name thread0 ++ "' terminated")
      | frame :: _ =>
          match fetch (program m1) (f_pc frame) with
          | None =>
              returning (upd_state (retireThread ti) m1) None
                ("Thread '" ++ t_name thread0 ++ "' finished")
          | Some instruction =>
              let m2 := upd_state (set_status st_running) m1 in
              match executeInstruction ti instruction frame ent m2 with
              | Diverges => StepDiverges
              | Throws m3 =>
                  StepThrows
                    (upd_state
                       (fun s => set_stack (default [] (t_stack <$> threads s !! ti)) s) m3)
              | Normal m3 description =>
                  returning (upd_state (afterInstruction ti) m3) (Some instruction) description
              end
          end
      end
  end.

(** [step]. *)
Definition step (ent : HostEntropy) (m : Simulator) : StepOutcome :=
  if is_finished (state m) then returning m None "Execution finished"
  else
    (* Save state to history *)
    let m1 := saveHistory m in
    (* Wake sleeping/joining threads *)
    let m2 := upd_state tickThreads m1 in
    if schedulable_now (state m2) then runActiveThread ent m2
    else
      (* Try to find another runnable thread *)
      let m3 := upd_state rotateThread m2 in
      if schedulable_now (state m3) then runActiveThread ent m3
      else if allTerminated (state m3) || bool_decide (length (threads (state m3)) = 0%nat) then
        returning (upd_state (set_status st_completed) m3) None "All threads completed"
      else
        (* Deadlock or all waiting: advance step to allow sleep wakeup *)
        let m4 := upd_state (fun s => tickThreads (set_stepNumber (stepNumber s + 1) s)) m3 in
        returning m4 None "Waiting for threads...".

Definition canStepForward (m : Simulator) : bool :=
  if is_finished (state m) then false
  else existsb (fun t => negb (bool_decide (t_status t = TERMINATED))) (threads (state m))
       || bool_decide (length (threads (state m)) = 0%nat).

End Engine.

(** ** Construction *)

(** [signature.match(/\)(.+)$/)]: the text after the first closing
    parenthesis that is followed by at least one character, none of them a
    line break. *)
Definition no_line_break (s : string) : bool :=
  forallb (fun c => negb (bool_decide (c = ascii_of_nat 10) || bool_decide (c = ascii_of_nat 13)))
          (list_ascii_of_string s).

Fixpoint extractReturnType_from (s : string) : option string :=
  match s with
  | EmptyString => None
  | String c rest =>
      if bool_decide (c = ")"%char) && negb (bool_decide (rest = "")) && no_line_break rest
      then Some rest
      else extractReturnType_from rest
  end.

Definition extractReturnType (signature : string) : string :=
  default "void" (extractReturnType_from signature).

Definition loadClass (p : CompiledProgram) (cls : CompiledClass) (s : JVMState) : JVMState :=
  let classInfo :=
    {| ci_name := cc_name cls;
       ci_superClass := cc_superClass cls;
       ci_interfaces := cc_interfaces cls;
       ci_fields :=
         (fun f => mkFieldInfo (cf_name f) (cf_type f) [] (cf_isStatic f)
                     (operandToValue <$> cf_initialValue f)) <$> cc_fields cls;
       ci_methods :=
         (fun mth =>
            let start := default 0 (methodOffsets p !! (cc_name cls ++ "." ++ cm_signature mth)) in
            mkMethodInfo (cm_methodName mth) (extractReturnType (cm_signature mth)) []
              (bool_decide (cm_methodName mth = "main")
               || bool_decide (cm_methodName mth = "<clinit>"))
              false false false start
              (start + Z.of_nat (length (cm_instructions mth)))) <$> cc_methods cls;
       ci_isInterface := cc_isInterface cls;
       ci_isAbstract := false;
       ci_loadedAtStep := 0 |} in
  let statics : gmap string Value :=
    fold_left
      (fun acc field =>
         if cf_isStatic field then
           <[cf_name field :=
               match cf_initialValue field with
               | Some o => operandToValue o
               | None => getDefaultValue (cf_type field)
               end]> acc
         else acc)
      (cc_fields cls) ∅ in
  set_methodArea
    {| loadedClasses := <[cc_name cls := classInfo]> (loadedClasses (methodArea s));
       staticFields := <[cc_name cls := statics]> (staticFields (methodArea s)) |} s.

(** [initialize]. *)
Definition initialize (frameId : string) (m : Simulator) : Simulator :=
  let p := program m in
  (* Load all classes into method area *)
  let m1 := upd_state (fun s => fold_left (fun acc cls => loadClass p cls acc) (classes p) s) m in
  (* Create initial stack frame for main method *)
  if bool_decide (mainClass p = "") then m1
  else
    let startIndex := default 0 (methodOffsets p !! (mainClass p ++ ".main(String[])void")) in
    let '(argsArrayId, m2) := allocateArray "String" [] m1 in
    let mainFrame :=
      {| f_id := frameId; f_className := mainClass p; f_methodName := "main";
         f_methodSignature := "main(String[])void";
         f_localVariables :=
           [mkLocalVariable "args" "String[]" (createReferenceValue (Some argsArrayId)) 0];
         f_operandStack := []; f_pc := startIndex; f_lineNumber := 1;
         f_isNative := false |} in
    let mainThread :=
      {| t_id := "thread_main"; t_name := "main"; t_stack := [mainFrame];
         t_status := RUNNABLE; t_sleepUntilStep := None; t_waitingOnMonitor := None;
         t_holdingMonitors := []; t_objectId := None; t_priority := 5;
         t_isDaemon := false; t_stepCount := 0; t_interrupted := false |} in
    upd_state
      (fun s =>
         set_status st_paused
           (set_pc {| currentInstruction := startIndex; currentLine := 1;
                      currentMethod := "main"; currentClass := mainClass p |}
              (set_stack [mainFrame]
                 (set_activeThread 0%nat (set_threads [mainThread] s))))) m2.

(** [new JVMSimulator(program)]. *)
Definition newSimulator (frameId : string) (p : CompiledProgram) : Simulator :=
  initialize frameId
    {| program := p; state := createInitialJVMState; history := [];
       maxHistory := 500; nextObjectId := 1 |}.

(** [reset]. *)
Definition reset (frameId : string) (m : Simulator) : Simulator :=
  initialize frameId
    (set_nextObjectId 1 (set_state createInitialJVMState (set_history [] m))).

(** ** The bytecode compiler: declarations, main class, print lowering *)

Inductive TypeNode :=
  | mkTypeNode (name : string) (isArray : bool) (arrayDimensions : nat)
               (typeArguments : list TypeNode).

Fixpoint join_with (sep : string) (l : list string) : string :=
  match l with
  | [] => ""
  | [x] => x
  | x :: rest => x ++ sep ++ join_with sep rest
  end.

Fixpoint repeat_string (n : nat) (s : string) : string :=
  match n with
  | O => ""
  | S n' => s ++ repeat_string n' s
  end.

(** [AST.typeToString]. *)
Fixpoint typeToString (type : TypeNode) : string :=
  match type with
  | mkTypeNode name _ dims args =>
      (name
       ++ match args with
          | [] => ""
          | _ => "<" ++ join_with ", " (List.map typeToString args) ++ ">"
          end)
      ++ repeat_string dims "[]"
  end.

Record FormalParameter := mkFormalParameter {
  p_name : string;
  p_type : TypeNode;
  p_isFinal : bool
}.

Inductive LiteralKind :=
  | lit_int | lit_long | lit_float | lit_double | lit_boolean | lit_char
  | lit_string | lit_null.

(** The expressions the embedded compiler functions look into; every
    other kind is [OtherExpression]. *)
Inductive Expression :=
  | LiteralExpression (type : LiteralKind) (value : Payload) (line : Z)
  | IdentifierExpression (name : string) (line : Z)
  | MemberExpression (object : Expression) (property : string) (line : Z)
  | CallExpression (callee : Expression) (arguments : list Expression) (line : Z)
  | OtherExpression (line : Z).

Definition expr_line (e : Expression) : Z :=
  match e with
  | LiteralExpression _ _ l | IdentifierExpression _ l | MemberExpression _ _ l
  | CallExpression _ _ l | OtherExpression l => l
  end.

Inductive Statement :=
  | ExpressionStatement (expression : Expression) (line : Z)
  | OtherStatement (line : Z).

Definition BlockStatement := list Statement.

Record FieldDeclaration := mkFieldDeclaration {
  fd_name : string;
  fd_type : TypeNode;
  fd_modifiers : list string;
  fd_initializer : option Expression
}.

Record MethodDeclaration := mkMethodDeclaration {
  md_name : string;
  md_modifiers : list string;
  md_returnType : TypeNode;
  md_parameters : list FormalParameter;
  md_body : option BlockStatement;
  md_line : Z
}.

Record ConstructorDeclaration := mkConstructorDeclaration {
  cd_name : string;
  cd_modifiers : list string;
  cd_parameters : list FormalParameter;
  cd_body : BlockStatement;
  cd_line : Z
}.

Record DefaultMethodDeclaration := mkDefaultMethodDeclaration {
  dm_name : string;
  dm_returnType : TypeNode;
  dm_parameters : list FormalParameter;
  dm_body : BlockStatement;
  dm_line : Z
}.

Inductive ClassMember :=
  | CM_Field (f : FieldDeclaration)
  | CM_Method (mth : MethodDeclaration)
  | CM_Constructor (c : ConstructorDeclaration).

Inductive InterfaceMember :=
  | IM_MethodSignature (name : string)
  | IM_DefaultMethod (d : DefaultMethodDeclaration)
  | IM_Field (f : FieldDeclaration).

Record ClassDeclaration := mkClassDeclaration {
  cls_name : string;
  cls_modifiers : list string;
  cls_superClass : option string;
  cls_interfaces : list string;
  cls_members : list ClassMember
}.

Record InterfaceDeclaration := mkInterfaceDeclaration {
  itf_name : string;
  itf_modifiers : list string;
  itf_extends : list string;
  itf_members : list InterfaceMember
}.

Inductive Declaration :=
  | D_Class (c : ClassDeclaration)
  | D_Interface (i : InterfaceDeclaration).

Record Program := mkProgram { declarations : list Declaration }.

(** [localVariables] is a [Map]: insertion-ordered, a second [set] of a
    name replaces its entry in place. *)
Record CompilerContext := mkCompilerContext {
  ctx_className : string;
  ctx_methodName : string;
  ctx_localVariables : list (string * (Z * string));
  ctx_nextLocalIndex : Z;
  ctx_instructions : list Instruction;
  ctx_loopStartLabels : list Z;
  ctx_loopEndLabels : list Z;
  ctx_labelCounter : Z;
  ctx_labelTargets : gmap Z Z
}.

(** The compiler object's fields. *)
Record BytecodeCompiler := mkBytecodeCompiler {
  bc_classes : list CompiledClass;
  bc_allInstructions : list Instruction;
  bc_methodOffsets : gmap string Z;
  bc_mainClass : string;
  bc_mainMethod : string
}.

(** The statement and expression compilers, which the functions embedded
    here call but whose cases they do not depend on. *)
Class CodeGenerator := {
  compileBlock : BlockStatement -> CompilerContext -> CompilerContext;
  compileExpression : Expression -> CompilerContext -> CompilerContext
}.

Definition createInstruction (op : OpCode.t) (sourceLine : Z) (comment : option string)
    : Instruction :=
  mkInstruction op sourceLine comment.

Definition createContext (className methodName : string) : CompilerContext :=
  {| ctx_className := className; ctx_methodName := methodName;
     ctx_localVariables := []; ctx_nextLocalIndex := 0; ctx_instructions := [];
     ctx_loopStartLabels := []; ctx_loopEndLabels := []; ctx_labelCounter := 0;
     ctx_labelTargets := ∅ |}.

Definition emit (i : Instruction) (ctx : CompilerContext) : CompilerContext :=
  mkCompilerContext (ctx_className ctx) (ctx_methodName ctx) (ctx_localVariables ctx)
    (ctx_nextLocalIndex ctx) (ctx_instructions ctx ++ [i]) (ctx_loopStartLabels ctx)
    (ctx_loopEndLabels ctx) (ctx_labelCounter ctx) (ctx_labelTargets ctx).

Definition set_ctx_instructions (v : list Instruction) (ctx : CompilerContext) : CompilerContext :=
  mkCompilerContext (ctx_className ctx) (ctx_methodName ctx) (ctx_localVariables ctx)
    (ctx_nextLocalIndex ctx) v (ctx_loopStartLabels ctx)
    (ctx_loopEndLabels ctx) (ctx_labelCounter ctx) (ctx_labelTargets ctx).

Fixpoint map_set (name : string) (info : Z * string) (l : list (string * (Z * string)))
    : list (string * (Z * string)) :=
  match l with
  | [] => [(name, info)]
  | (n, i) :: rest =>
      if bool_decide (n = name) then (n, info) :: rest else (n, i) :: map_set name info rest
  end.

(** [ctx.localVariables.set(name, { index: ctx.nextLocalIndex++, type })]. *)
Definition declareLocal (name type : string) (ctx : CompilerContext) : CompilerContext :=
  mkCompilerContext (ctx_className ctx) (ctx_methodName ctx)
    (map_set name (ctx_nextLocalIndex ctx, type) (ctx_localVariables ctx))
    (ctx_nextLocalIndex ctx + 1) (ctx_instructions ctx) (ctx_loopStartLabels ctx)
    (ctx_loopEndLabels ctx) (ctx_labelCounter ctx) (ctx_labelTargets ctx).

Definition declareParameters (params : list FormalParameter) (ctx : CompilerContext) : CompilerContext :=
  fold_left (fun c p => declareLocal (p_name p) (typeToString (p_type p)) c) params ctx.

Definition map_label (g : Z -> Z) (i : Instruction) : Instruction :=
  match opcode i with
  | OpCode.GOTO t => mkInstruction (OpCode.GOTO (g t)) (sourceLine i) (comment i)
  | OpCode.IF_TRUE t => mkInstruction (OpCode.IF_TRUE (g t)) (sourceLine i) (comment i)
  | OpCode.IF_FALSE t => mkInstruction (OpCode.IF_FALSE (g t)) (sourceLine i) (comment i)
  | _ => i
  end.

Definition resolveAllLabels (ctx : CompilerContext) : CompilerContext :=
  set_ctx_instructions
    (map_label (fun t => default t (ctx_labelTargets ctx !! t)) <$> ctx_instructions ctx) ctx.

(** Shift label targets to global offsets. *)
Definition shiftLabels (startIndex : Z) (ctx : CompilerContext) : CompilerContext :=
  set_ctx_instructions (map_label (fun t => t + startIndex) <$> ctx_instructions ctx) ctx.

Definition buildMethodSignature (name : string) (params : list FormalParameter)
    (returnType : TypeNode) : string :=
  name ++ "(" ++ join_with "," (List.map (fun p => typeToString (p_type p)) params) ++ ")"
  ++ typeToString returnType.

Definition buildLocalVariableTable (ctx : CompilerContext) : list LocalVariableEntry :=
  (fun '(name, (index, type)) =>
     mkLocalVariableEntry index name type 0 (Z.of_nat (length (ctx_instructions ctx))))
  <$> ctx_localVariables ctx.

Definition is_return (i : Instruction) : bool :=
  match opcode i with OpCode.RETURN => true | _ => false end.

Definition evalConstant (expr : Expression) : option InstructionOperand :=
  match expr with
  | LiteralExpression lit_int (PNum n) _ => Some (OpInt n)
  | LiteralExpression lit_string (PStr s) _ => Some (OpString s)
  | LiteralExpression lit_boolean (PBool b) _ => Some (OpBoolean b)
  | LiteralExpression lit_double (PNum n) _ => Some (OpFloat n)
  | LiteralExpression lit_float (PNum n) _ => Some (OpFloat n)
  | _ => None
  end.

Definition compileField (node : FieldDeclaration) : CompiledField :=
  {| cf_name := fd_name node;
     cf_type := typeToString (fd_type node);
     cf_isStatic := bool_decide ("static" ∈ fd_modifiers node);
     cf_initialValue := fd_initializer node ≫= evalConstant |}.

Definition voidType : TypeNode := mkTypeNode "void" false 0 [].

Section Compiler.
Context {gen : CodeGenerator}.

(** The part shared by the three method compilers once the body is in
    [ctx]: resolve and shift the labels, append to the program, build the
    compiled method. *)
Definition finishMethod (className methodName signature : string) (startIndex : Z)
    (ctx : CompilerContext) (c : BytecodeCompiler) : CompiledMethod * BytecodeCompiler :=
  let ctx1 := shiftLabels startIndex (resolveAllLabels ctx) in
  ({| cm_className := className; cm_methodName := methodName; cm_signature := signature;
      cm_instructions := ctx_instructions ctx1;
      cm_localVariableTable := buildLocalVariableTable ctx1;
      cm_maxStack := 16; cm_maxLocals := ctx_nextLocalIndex ctx1 |},
   mkBytecodeCompiler (bc_classes c) (bc_allInstructions c ++ ctx_instructions ctx1)
     (bc_methodOffsets c) (bc_mainClass c) (bc_mainMethod c)).

Definition recordOffset (key : string) (c : BytecodeCompiler) : Z * BytecodeCompiler :=
  let startIndex := Z.of_nat (length (bc_allInstructions c)) in
  (startIndex,
   mkBytecodeCompiler (bc_classes c) (bc_allInstructions c)
     (<[key := startIndex]> (bc_methodOffsets c)) (bc_mainClass c) (bc_mainMethod c)).

Definition compileMethod (node : MethodDeclaration) (className : string)
    (c : BytecodeCompiler) : CompiledMethod * BytecodeCompiler :=
  let ctx := createContext className (md_name node) in
  let signature := buildMethodSignature (md_name node) (md_parameters node) (md_returnType node) in
  let '(startIndex, c1) := recordOffset (className ++ "." ++ signature) c in
  let ctx1 := if bool_decide ("static" ∈ md_modifiers node) then ctx
              else declareLocal "this" className ctx in
  let ctx2 := declareParameters (md_parameters node) ctx1 in
  let ctx3 := match md_body node with
              | Some body => compileBlock body ctx2
              | None => ctx2
              end in
  let returnType := typeToString (md_returnType node) in
  let ctx4 :=
    if bool_decide (returnType = "void")
       && negb (default false (is_return <$> last (ctx_instructions ctx3)))
    then emit (createInstruction OpCode.RETURN (md_line node) None) ctx3
    else ctx3 in
  finishMethod className (md_name node) signature startIndex ctx4 c1.

Definition compileConstructor (node : ConstructorDeclaration) (className : string)
    (c : BytecodeCompiler) : CompiledMethod * BytecodeCompiler :=
  let ctx := createContext className "<init>" in
  let signature := buildMethodSignature "<init>" (cd_parameters node) voidType in
  let '(startIndex, c1) := recordOffset (className ++ "." ++ signature) c in
  let ctx1 := declareParameters (cd_parameters node) (declareLocal "this" className ctx) in
  let ctx2 := compileBlock (cd_body node) ctx1 in
  let ctx3 := emit (createInstruction OpCode.RETURN (cd_line node) None) ctx2 in
  finishMethod className "<init>" signature startIndex ctx3 c1.

Definition compileDefaultMethod (node : DefaultMethodDeclaration) (className : string)
    (c : BytecodeCompiler) : CompiledMethod * BytecodeCompiler :=
  let ctx := createContext className (dm_name node) in
  let signature := buildMethodSignature (dm_name node) (dm_parameters node) (dm_returnType node) in
  let '(startIndex, c1) := recordOffset (className ++ "." ++ signature) c in
  let ctx1 := declareParameters (dm_parameters node) (declareLocal "this" className ctx) in
  let ctx2 := compileBlock (dm_body node) ctx1 in
  let ctx3 :=
    if bool_decide (typeToString (dm_returnType node) = "void")
    then emit (createInstruction OpCode.RETURN (dm_line node) None) ctx2
    else ctx2 in
  finishMethod className (dm_name node) signature startIndex ctx3 c1.

Definition push_class (cls : CompiledClass) (c : BytecodeCompiler) : BytecodeCompiler :=
  mkBytecodeCompiler (bc_classes c ++ [cls]) (bc_allInstructions c) (bc_methodOffsets c)
    (bc_mainClass c) (bc_mainMethod c).

Definition compileClass (node : ClassDeclaration) (c : BytecodeCompiler) : BytecodeCompiler :=
  let '(fields, methods, c1) :=
    fold_left
      (fun '((fields, methods, c) : list CompiledField * list CompiledMethod * BytecodeCompiler) member =>
         match member with
         | CM_Field f => ((fields ++ [compileField f])%list, methods, c)
         | CM_Method mth =>
             let '(cm, c') := compileMethod mth (cls_name node) c in
             (fields, (methods ++ [cm])%list, c')
         | CM_Constructor k =>
             let '(cm, c') := compileConstructor k (cls_name node) c in
             (fields, (methods ++ [cm])%list, c')
         end)
      (cls_members node) ([], [], c) in
  push_class
    {| cc_name := cls_name node;
       cc_superClass := default "Object" (truthy_id (cls_superClass node));
       cc_interfaces := cls_interfaces node; cc_fields := fields; cc_methods := methods;
       cc_isInterface := false; cc_sourceFile := "source.java" |} c1.

Definition compileInterface (node : InterfaceDeclaration) (c : BytecodeCompiler)
    : BytecodeCompiler :=
  let '(fields, methods, c1) :=
    fold_left
      (fun '((fields, methods, c) : list CompiledField * list CompiledMethod * BytecodeCompiler) member =>
         match member with
         | IM_Field f => ((fields ++ [compileField f])%list, methods, c)
         | IM_DefaultMethod d =>
             let '(cm, c') := compileDefaultMethod d (itf_name node) c in
             (fields, (methods ++ [cm])%list, c')
         | IM_MethodSignature _ => (fields, methods, c)
         end)
      (itf_members node) ([], [], c) in
  push_class
    {| cc_name := itf_name node; cc_superClass := "Object";
       cc_interfaces := itf_extends node; cc_fields := fields; cc_methods := methods;
       cc_isInterface := true; cc_sourceFile := "source.java" |} c1.

(** [signature.includes('String[]')]. *)
Fixpoint includes (needle hay : string) : bool :=
  String.prefix needle hay
  || match hay with
     | EmptyString => false
     | String _ rest => includes needle rest
     end.

Definition is_main_method (mth : CompiledMethod) : bool :=
  bool_decide (cm_methodName mth = "main") && includes "String[]" (cm_signature mth).

(** The inner loop of the search for the main class: over the methods of
    [cls], assigning [mainClass] at the first match and leaving that loop. *)
Fixpoint scanMethods (cls : CompiledClass) (methods : list CompiledMethod)
    (mainClass : string) : string :=
  match methods with
  | [] => mainClass
  | mth :: rest =>
      if is_main_method mth then cc_name cls   (* this.mainClass = cls.name; break *)
      else scanMethods cls rest mainClass
  end.

(** The outer loop, which runs over every class. *)
Definition findMainClass (cs : list CompiledClass) (mainClass : string) : string :=
  fold_left (fun acc cls => scanMethods cls (cc_methods cls) acc) cs mainClass.

Definition newBytecodeCompiler : BytecodeCompiler :=
  {| bc_classes := []; bc_allInstructions := []; bc_methodOffsets := ∅;
     bc_mainClass := ""; bc_mainMethod := "main" |}.

(** [BytecodeCompiler.compile] on a fresh compiler, as the exported
    [compile] runs it. *)
Definition compile (prog : Program) : CompiledProgram :=
  (* First pass: compile all classes *)
  let c1 :=
    fold_left
      (fun c decl =>
         match decl with
         | D_Class k => compileClass k c
         | D_Interface i => compileInterface i c
         end)
      (declarations prog) newBytecodeCompiler in
  (* Find main class *)
  let main := findMainClass (bc_classes c1) (bc_mainClass c1) in
  {| classes := bc_classes c1; mainClass := main; mainMethod := bc_mainMethod c1;
     allInstructions := bc_allInstructions c1; methodOffsets := bc_methodOffsets c1 |}.

Definition STATIC_CLASSES : list string :=
  ["Math"; "Integer"; "Long"; "Double"; "Float"; "Character"; "String";
   "Collections"; "Arrays"; "System"; "Objects"; "Boolean"; "Byte"; "Short"].

Definition compileArguments (args : list Expression) (ctx : CompilerContext) : CompilerContext :=
  fold_left (fun c arg => compileExpression arg c) args ctx.

Definition arityDescriptor (args : list Expression) : string :=
  "(" ++ pretty (length args) ++ ")".

(** [compileCallExpression]; [line] is [expr.location.line]. *)
Definition compileCallExpression (callee : Expression) (arguments : list Expression)
    (line : Z) (ctx : CompilerContext) : CompilerContext :=
  let generic (object : Expression) (property : string) :=
    match object with
    | IdentifierExpression name _ =>
        if bool_decide (name ∈ STATIC_CLASSES) then
          (* Static utility class: emit INVOKE_STATIC with the class name *)
          emit (createInstruction
                  (OpCode.INVOKE OpCode.INVOKE_STATIC property (arityDescriptor arguments)
                     (Some name)) line None)
               (compileArguments arguments ctx)
        else
          emit (createInstruction
                  (OpCode.INVOKE OpCode.INVOKE_VIRTUAL property (arityDescriptor arguments) None)
                  line None)
               (compileArguments arguments (compileExpression object ctx))
    | _ =>
        (* Method call on object *)
        emit (createInstruction
                (OpCode.INVOKE OpCode.INVOKE_VIRTUAL property (arityDescriptor arguments) None)
                line None)
             (compileArguments arguments (compileExpression object ctx))
    end in
  match callee with
  | MemberExpression object property _ =>
      let isPrint := bool_decide (property = "println") || bool_decide (property = "print") in
      match object with
      | MemberExpression (IdentifierExpression "System" _) "out" _ =>
          if isPrint then
            (* System.out.println or System.out.print *)
            let isPrintln := bool_decide (property = "println") in
            let ctx1 :=
              match arguments with
              | [] =>
                  (* No arguments: push an empty string to print nothing *)
                  emit (createInstruction (OpCode.LOAD_CONST (OpString "")) line None) ctx
              | _ => compileArguments arguments ctx
              end in
            emit (createInstruction (OpCode.PRINT (Some isPrintln)) line
                    (Some ("System.out." ++ property))) ctx1
          else generic object property
      | _ => generic object property
      end
  | IdentifierExpression name _ =>
      (* Static method call or local method *)
      emit (createInstruction
              (OpCode.INVOKE OpCode.INVOKE_STATIC name (arityDescriptor arguments)
                 (Some (ctx_className ctx))) line None)
           (compileArguments arguments ctx)
  | _ => ctx
  end.

End Compiler.

(** * Properties

    The rest of the development states and proves properties of the
    definitions above.  First come the definitions the statements use:
    the parts of a simulator the interpreter leaves alone, the agreement of
    the monitor table with the threads, the reachable simulators, and a few
    concrete programs on which the theorems are exercised. *)

(** ** What the interpreter leaves alone *)

(** The fields of the simulator object that only [saveHistory], [stepBack]
    and the constructor assign. *)
Definition shell (m : Simulator) : CompiledProgram * list JVMState * nat :=
  (program m, history m, maxHistory m).

(** The result of a stdlib call leaves the shell of [m] alone. *)
Definition stdlib_shell (m : Simulator) (r : StdlibResult) : Prop :=
  match r with
  | SHandled _ m' _ | SNotHandled _ m' | SThrows _ m' => shell m' = shell m
  | SDiverges => True
  end.

(** The outcome of an instruction leaves the shell of [m] alone. *)
Definition outcome_shell (m : Simulator) (o : Outcome) : Prop :=
  match o with
  | Normal m' _ | Throws m' => shell m' = shell m
  | Diverges => True
  end.

(** The simulator object once [step] has returned or thrown; none when it
    never returns. *)
Definition simulator_after (o : StepOutcome) : option Simulator :=
  match o with
  | StepReturns m _ | StepThrows m => Some m
  | StepDiverges => None
  end.

(** ** A host, an empty data library and a first program *)

(** A host that prints the integers and parses nothing. *)
Definition exampleHost : JsHost :=
  {| numberToString :=
       fun x => match Js.F2Z x with Some z => pretty z | None => "NaN" end;
     stringToNumber := fun _ => PrimFloat.nan |}.

(** Data families that handle no call: what those of the source do with the
    calls of the programs below, whose receivers are instances of the user
    classes [Main], [Worker] and [HelloWorld] and of [Object]. *)
Definition silentStdlib : DataStdlib :=
  {| earlyFamilies := fun _ _ _ _ _ _ _ h n st => (mkStdlibEffect h n st, NotHandled);
     lateFamilies := fun _ _ _ _ _ _ _ h n st => (mkStdlibEffect h n st, NotHandled) |}.

(** The host draws 0 from [Math.random] and names the next frame. *)
Definition exampleEntropy : HostEntropy := mkHostEntropy PrimFloat.zero "frame_1".

(** An instruction of source line 1 without comment. *)
Definition instr (o : OpCode.t) : Instruction := mkInstruction o 1 None.

(** The compiled form of a class whose main prints one line. *)
Definition helloProgram : CompiledProgram :=
  {| classes :=
       [mkCompiledClass "HelloWorld" "Object" [] []
          [mkCompiledMethod "HelloWorld" "main" "main(String[])void" [] [] 16 1]
          false "source.java"];
     mainClass := "HelloWorld"; mainMethod := "main";
     allInstructions :=
       [instr (OpCode.LINE 3); instr (OpCode.LOAD_CONST (OpString "Hello, World!"));
        instr (OpCode.PRINT (Some true)); instr OpCode.RETURN];
     methodOffsets := {["HelloWorld.main(String[])void" := 0]} |}.

(** [new JVMSimulator(helloProgram)]. *)
Definition helloSimulator : Simulator := newSimulator "frame_0" helloProgram.

(** ** Monitors *)


(** The inductive form: a thread that holds a monitor is moreover the
    first thread of the table with its id. *)
Definition inv_on (mon : gmap string (option string)) (ts : list ThreadState) : Prop :=
  (forall o T, mon !! o = Some (Some T) ->
     exists i t, find_thread T ts = Some (i, t) /\ o ∈ t_holdingMonitors t)
  /\ (forall i t o, ts !! i = Some t -> o ∈ t_holdingMonitors t ->
        mon !! o = Some (Some (t_id t)) /\ find_thread (t_id t) ts = Some (i, t)).

(** The invariant of a state. *)
Definition monitor_inv (s : JVMState) : Prop := inv_on (monitors s) (threads s).

(** What the invariant reads of a thread. *)
Definition view_of (t : ThreadState) : string * list string :=
  (t_id t, t_holdingMonitors t).

(** The invariant holds in what a stdlib call leaves. *)
Definition stdlib_inv (r : StdlibResult) : Prop :=
  match r with
  | SHandled _ m' _ | SNotHandled _ m' | SThrows _ m' => monitor_inv (state m')
  | SDiverges => True
  end.

(** The invariant holds in what an instruction leaves. *)
Definition outcome_inv (o : Outcome) : Prop :=
  match o with
  | Normal m' _ | Throws m' => monitor_inv (state m')
  | Diverges => True
  end.

(** ** Reachable simulators *)


(** ** Timers *)


(** ** The hash of a string *)

(** The fold the specification describes: [h = 31*h + c] in 32-bit signed
    arithmetic, over the characters from left to right. *)
Fixpoint java_hash_from (h : Z) (cs : list ascii) : Z :=
  match cs with
  | [] => h
  | c :: rest => java_hash_from (Js.to_int32 (31 * h + Z.of_N (N_of_ascii c))) rest
  end.

(** [h] starts at 0. *)
Definition java_hash (s : string) : Z := java_hash_from 0 (list_ascii_of_string s).

(** A frame of [main] whose operand stack holds just the string [s]. *)
Definition frameHolding (s : string) : StackFrame :=
  {| f_id := "frame_0"; f_className := "HelloWorld"; f_methodName := "main";
     f_methodSignature := "main(String[])void"; f_localVariables := [];
     f_operandStack := [prim_string s]; f_pc := 0; f_lineNumber := 1;
     f_isNative := false |}.

(** The call [s.hashCode()] as the compiler emits it. *)
Definition hashCodeCall : Instruction :=
  instr (OpCode.INVOKE OpCode.INVOKE_VIRTUAL "hashCode" "(0)" None).

(** A host whose next [Math.random()] is [r]. *)
Definition entropyWith (r : float) : HostEntropy := mkHostEntropy r "frame_1".

(** The operand stack of the top frame of thread [ti] after an outcome. *)
Definition stackAfter (ti : nat) (o : Outcome) : option (list Value) :=
  match o with
  | Normal m _ =>
      t ← threads (state m) !! ti; fr ← head (t_stack t); Some (f_operandStack fr)
  | _ => None
  end.

(** ** Programs with several main methods *)

(** The class has a method the search for the main class accepts. *)
Definition has_main (cls : CompiledClass) : bool :=
  existsb is_main_method (cc_methods cls).

(** The type [String[]]. *)
Definition stringArray : TypeNode := mkTypeNode "String" false 1 [].

(** [public static void main(String[] args) {}]. *)
Definition mainDeclaration : MethodDeclaration :=
  {| md_name := "main"; md_modifiers := ["public"; "static"];
     md_returnType := voidType;
     md_parameters := [mkFormalParameter "args" stringArray false];
     md_body := Some []; md_line := 2 |}.

(** A public class [name] whose only member is that main method. *)
Definition classWithMain (name : string) : Declaration :=
  D_Class {| cls_name := name; cls_modifiers := ["public"]; cls_superClass := None;
             cls_interfaces := []; cls_members := [CM_Method mainDeclaration] |}.

(** Two classes, [First] declared before [Second], each with
    [public static void main(String[] args)]. *)
Definition twoMains : Program :=
  {| declarations := [classWithMain "First"; classWithMain "Second"] |}.

(** ** Runs and the programs that are run *)

(** [n] calls of [step] in a row. *)
Fixpoint run_steps {host : JsHost} {lib : DataStdlib} (ent : HostEntropy) (n : nat)
    (m : Simulator) : Simulator :=
  match n with
  | O => m
  | S k => run_steps ent k (default m (simulator_after (step ent m)))
  end.

(** [n] steps of a fresh simulator for [p], with the example host. *)
Definition exampleRun (n : nat) (p : CompiledProgram) : Simulator :=
  @run_steps exampleHost silentStdlib exampleEntropy n (newSimulator "frame_0" p).

(** A class [Main] with a main method and [maxLocals] local slots. *)
Definition mainOnly (maxLocals : Z) : CompiledClass :=
  mkCompiledClass "Main" "Object" [] []
    [mkCompiledMethod "Main" "main" "main(String[])void" [] [] 16 maxLocals]
    false "source.java".

(** A class [Worker] that extends [Thread] and overrides [run]. *)
Definition workerClass : CompiledClass :=
  mkCompiledClass "Worker" "Thread" [] []
    [mkCompiledMethod "Worker" "run" "run()void" [] [] 16 1]
    false "source.java".

(** [main] creates and starts a [Worker] thread [t] and then calls
    [t.interrupt()]; the worker's [run] only marks lines. *)
Definition interruptProgram : CompiledProgram :=
  {| classes := [mainOnly 2; workerClass];
     mainClass := "Main"; mainMethod := "main";
     allInstructions :=
       [instr (OpCode.NEW "Worker");
        instr OpCode.DUP;
        instr (OpCode.INVOKE OpCode.INVOKE_SPECIAL "<init>" "(0)" None);
        instr (OpCode.STORE_LOCAL 1 "t");
        instr (OpCode.LOAD_LOCAL 1 "t");
        instr (OpCode.INVOKE OpCode.INVOKE_VIRTUAL "start" "(0)" None);
        instr (OpCode.LOAD_LOCAL 1 "t");
        instr (OpCode.INVOKE OpCode.INVOKE_VIRTUAL "interrupt" "(0)" None);
        instr OpCode.RETURN;
        instr (OpCode.LINE 10); instr (OpCode.LINE 11); instr (OpCode.LINE 12);
        instr (OpCode.LINE 13); instr OpCode.RETURN];
     methodOffsets := {["Main.main(String[])void" := 0; "Worker.run()void" := 9]} |}.

(** [main] starts a [Worker] that locks itself, and then asks for the same
    lock. *)
Definition contendedProgram : CompiledProgram :=
  {| classes := [mainOnly 2; workerClass];
     mainClass := "Main"; mainMethod := "main";
     allInstructions :=
       [instr (OpCode.NEW "Worker");
        instr OpCode.DUP;
        instr (OpCode.INVOKE OpCode.INVOKE_SPECIAL "<init>" "(0)" None);
        instr (OpCode.STORE_LOCAL 1 "t");
        instr (OpCode.LOAD_LOCAL 1 "t");
        instr (OpCode.INVOKE OpCode.INVOKE_VIRTUAL "start" "(0)" None);
        instr (OpCode.LOAD_LOCAL 1 "t");
        instr OpCode.MONITORENTER;
        instr OpCode.RETURN;
        instr (OpCode.LOAD_LOCAL 0 "this"); instr OpCode.MONITORENTER;
        instr (OpCode.LINE 12); instr (OpCode.LINE 13); instr OpCode.RETURN];
     methodOffsets := {["Main.main(String[])void" := 0; "Worker.run()void" := 9]} |}.

(** [main] prints the result of a call of the void method [f]. *)
Definition voidPrintProgram : CompiledProgram :=
  {| classes :=
       [mkCompiledClass "Main" "Object" [] []
          [mkCompiledMethod "Main" "main" "main(String[])void" [] [] 16 1;
           mkCompiledMethod "Main" "f" "f()void" [] [] 16 0]
          false "source.java"];
     mainClass := "Main"; mainMethod := "main";
     allInstructions :=
       [instr (OpCode.INVOKE OpCode.INVOKE_STATIC "f" "(0)" (Some "Main"));
        instr (OpCode.PRINT (Some true));
        instr OpCode.RETURN;
        instr OpCode.RETURN];
     methodOffsets := {["Main.main(String[])void" := 0; "Main.f()void" := 3]} |}.

(** [main] creates an object and enters its monitor. *)
Definition lockProgram : CompiledProgram :=
  {| classes := [mainOnly 1];
     mainClass := "Main"; mainMethod := "main";
     allInstructions :=
       [instr (OpCode.NEW "Object"); instr OpCode.MONITORENTER;
        instr (OpCode.LINE 3); instr OpCode.RETURN];
     methodOffsets := {["Main.main(String[])void" := 0]} |}.

(** Observations of a simulator. *)
Definition threadAt (i : nat) (m : Simulator) : option ThreadState :=
  threads (state m) !! i.

Definition topFrameAt (i : nat) (m : Simulator) : option StackFrame :=
  threadAt i m ≫= fun t => head (t_stack t).

Definition operandsAt (i : nat) (m : Simulator) : option (list Value) :=
  f_operandStack <$> topFrameAt i m.

Definition nextInstructionAt (i : nat) (m : Simulator) : option Instruction :=
  topFrameAt i m ≫= fun fr => fetch (program m) (f_pc fr).

Definition interruptFlags (m : Simulator) : list (string * bool) :=
  (fun t => (t_id t, t_interrupted t)) <$> threads (state m).

Definition threadStatuses (m : Simulator) : list (string * ThreadStatus) :=
  (fun t => (t_id t, t_status t)) <$> threads (state m).

(** ** Printing *)

(** The text a PRINT instruction prints from the frame [fr]. *)
Definition printedText {host : JsHost} (fr : StackFrame) : string :=
  match head (f_operandStack fr) with
  | Some v => strip_quotes (valueToString v)
  | None => "null"
  end.

(** ** Frames and states the theorems are instantiated at *)

(** A frame of [main] whose operand stack is [ops]. *)
Definition frameWith (ops : list Value) : StackFrame :=
  {| f_id := "frame_0"; f_className := "HelloWorld"; f_methodName := "main";
     f_methodSignature := "main(String[])void"; f_localVariables := [];
     f_operandStack := ops; f_pc := 0; f_lineNumber := 1; f_isNative := false |}.

(** The int [z] as a value. *)
Definition intValue (z : Z) : Value := createPrimitiveValue TInt (PNum (Js.Z2F z)).




(** The hello program after its first step. *)
Definition helloAfterStep : Simulator := exampleRun 1 helloProgram.


(** ** The public methods in any order *)

(** The simulators that calls of [step], [stepBack] and [reset], in any
    order, reach from a freshly constructed one. *)
Inductive api_reachable {host : JsHost} {lib : DataStdlib} : Simulator -> Prop :=
  | api_new frameId p : api_reachable (newSimulator frameId p)
  | api_step ent m m' :
      api_reachable m -> simulator_after (step ent m) = Some m' -> api_reachable m'
  | api_stepBack m : api_reachable m -> api_reachable (stepBack m).1
  | api_reset frameId m : api_reachable m -> api_reachable (reset frameId m).


(** ** Counter, status and error text *)

(** The step counter, the status and the error text of a state. *)
Definition core (s : JVMState) : Z * ExecutionStatus * option string :=
  (stepNumber s, status s, error s).

(** What every instruction but THROW leaves alone. *)
Definition quiet (m m' : Simulator) : Prop := core (state m') = core (state m).

(** A stdlib call leaves them alone. *)
Definition stdlib_quiet (m : Simulator) (r : StdlibResult) : Prop :=
  match r with
  | SHandled _ m' _ | SNotHandled _ m' | SThrows _ m' => quiet m m'
  | SDiverges => True
  end.

(** A normal outcome keeps the step counter; an exception moreover leaves
    the status and the error text as they were. *)
Definition outcome_quiet (m : Simulator) (o : Outcome) : Prop :=
  match o with
  | Normal m' _ => stepNumber (state m') = stepNumber (state m)
  | Throws m' => quiet m m'
  | Diverges => True
  end.

(** Whatever the outcome, they are left alone. *)
Definition outcome_all_quiet (m : Simulator) (o : Outcome) : Prop :=
  match o with
  | Normal m' _ | Throws m' => quiet m m'
  | Diverges => True
  end.

(** ** Further runs *)


(** [main] creates a [RuntimeException] and throws it. *)
Definition throwProgram : CompiledProgram :=
  {| classes := [mainOnly 1];
     mainClass := "Main"; mainMethod := "main";
     allInstructions :=
       [instr (OpCode.NEW "RuntimeException"); instr OpCode.THROW; instr OpCode.RETURN];
     methodOffsets := {["Main.main(String[])void" := 0]} |}.

(** The throw program after the THROW instruction was executed. *)
Definition thrownSimulator : Simulator := exampleRun 2 throwProgram.

(** [main] loops for ever. *)
Definition loopProgram : CompiledProgram :=
  {| classes := [mainOnly 1];
     mainClass := "Main"; mainMethod := "main";
     allInstructions := [instr (OpCode.LINE 2); instr (OpCode.GOTO 0)];
     methodOffsets := {["Main.main(String[])void" := 0]} |}.

(** The loop program after 600 steps. *)
Definition longRun : Simulator := exampleRun 600 loopProgram.

(** ** Threads: statuses, waiting and scheduling *)

(** The statuses of the threads, in table order. *)
Definition statuses (s : JVMState) : list ThreadStatus := t_status <$> threads s.

(** The lock program's state with the monitor of [obj_2] acquired by hand. *)
Definition lockedOnce : JVMState :=
  (acquireMonitor "obj_2" "thread_main" (state (exampleRun 1 lockProgram))).1.

(** What the tick phase reads of another thread: its id and whether it is
    TERMINATED. *)
Definition tick_view (t : ThreadState) : string * bool :=
  (t_id t, bool_decide (t_status t = TERMINATED)).

(** The thread with id [target] is absent or TERMINATED. *)
Definition gone (target : string) (ts : list ThreadState) : bool :=
  match find_thread target ts with
  | Some (_, th) => bool_decide (t_status th = TERMINATED)
  | None => true
  end.

(** The thread [i] places after the active one, cyclically, is schedulable. *)
Definition schedulable_after (s : JVMState) (i : nat) : bool :=
  match threads s !! ((activeThread s + i) mod length (threads s))%nat with
  | Some t => is_schedulable t
  | None => false
  end.

(** [main] starts a [Worker] and joins it. *)
Definition joinProgram : CompiledProgram :=
  {| classes := [mainOnly 2; workerClass];
     mainClass := "Main"; mainMethod := "main";
     allInstructions :=
       [instr (OpCode.NEW "Worker");
        instr OpCode.DUP;
        instr (OpCode.INVOKE OpCode.INVOKE_SPECIAL "<init>" "(0)" None);
        instr (OpCode.STORE_LOCAL 1 "t");
        instr (OpCode.LOAD_LOCAL 1 "t");
        instr (OpCode.INVOKE OpCode.INVOKE_VIRTUAL "start" "(0)" None);
        instr (OpCode.LOAD_LOCAL 1 "t");
        instr (OpCode.INVOKE OpCode.INVOKE_VIRTUAL "join" "(0)" None);
        instr OpCode.RETURN;
        instr (OpCode.LINE 10); instr (OpCode.LINE 11); instr (OpCode.LINE 12);
        instr (OpCode.LINE 13); instr OpCode.RETURN];
     methodOffsets := {["Main.main(String[])void" := 0; "Worker.run()void" := 9]} |}.

(** The join program just before and just after the call of [join]. *)
Definition beforeJoin : Simulator := exampleRun 9 joinProgram.
Definition afterJoin : Simulator := exampleRun 10 joinProgram.

(** The first simulator that is finished: the hello program after its four
    steps. *)
Definition helloDone : Simulator := exampleRun 4 helloProgram.

(** ** Locals *)

(** The value LOAD_LOCAL finds in slot [j] of a frame. *)
Definition local_value (j : Z) (fr : StackFrame) : option Value :=
  lv_value <$> List.find (fun v => bool_decide (lv_slot v = j)) (f_localVariables fr).

(** The frame STORE_LOCAL leaves. *)
Definition frame_after_store (index : Z) (name : string) (frame : StackFrame) : StackFrame :=
  let value := default createNullValue (head (f_operandStack frame)) in
  let fr1 := set_f_operandStack (tail (f_operandStack frame)) frame in
  advance
    (set_f_localVariables
       (match list_find (fun v => lv_slot v = index) (f_localVariables fr1) with
        | Some (i, _) => alter (set_lv_value value) i (f_localVariables fr1)
        | None => (f_localVariables fr1 ++ [mkLocalVariable name "Object" value index])%list
        end) fr1).

(** ** Heap objects and call descriptors *)

(** The lock program after its first step: [obj_2] is on the heap. *)
Definition lockAllocated : Simulator := exampleRun 1 lockProgram.

(** The characters of [s] are decimal digits. *)
Definition all_digits (s : string) : Prop :=
  Forall (fun c => is_Some (digit_value c)) (list_ascii_of_string s).

(** ** The layout of compiled code *)

(** The name of a declared class or interface. *)
Definition decl_name (d : Declaration) : string :=
  match d with
  | D_Class k => cls_name k
  | D_Interface i => itf_name i
  end.

(** The instructions of the methods of a list of classes, in order. *)
Definition method_code (ms : list CompiledMethod) : list Instruction :=
  ms ≫= cm_instructions.

(** The instructions of a list of classes, in order. *)
Definition class_code (cs : list CompiledClass) : list Instruction :=
  cs ≫= fun c => method_code (cc_methods c).

(** [code] sits in [all] from index [off] on. *)
Definition located (all : list Instruction) (off : Z) (code : list Instruction) : Prop :=
  0 <= off /\ take (length code) (drop (Z.to_nat off) all) = code.

(** What one method compiler does to the compiler object: it appends the
    method's code and records where the code starts. *)
Definition method_step (cn : string) (c : BytecodeCompiler)
    (r : CompiledMethod * BytecodeCompiler) : Prop :=
  bc_classes r.2 = bc_classes c
  /\ bc_allInstructions r.2 = (bc_allInstructions c ++ cm_instructions r.1)%list
  /\ bc_methodOffsets r.2
     = <[cn ++ "." ++ cm_signature r.1 := Z.of_nat (length (bc_allInstructions c))]>
         (bc_methodOffsets c).

(** Every recorded offset is the start of the code of a method with that
    key, either of a finished class or among the methods [pending] of the
    class [cn] being compiled. *)
Definition offsets_sound (cn : string) (pending : list CompiledMethod)
    (c : BytecodeCompiler) : Prop :=
  forall key off,
    bc_methodOffsets c !! key = Some off ->
    exists owner mth,
      key = owner ++ "." ++ cm_signature mth
      /\ located (bc_allInstructions c) off (cm_instructions mth)
      /\ ((exists cls, cls ∈ bc_classes c /\ cc_name cls = owner /\ mth ∈ cc_methods cls)
          \/ (owner = cn /\ mth ∈ pending)).

(** The state of the compiler in the middle of a class: the classes are
    those of before, and the code is that of before followed by the code of
    the methods compiled so far. *)
Definition mid_class (c0 : BytecodeCompiler) (cn : string)
    (acc : list CompiledField * list CompiledMethod * BytecodeCompiler) : Prop :=
  bc_classes acc.2 = bc_classes c0
  /\ bc_allInstructions acc.2 = (bc_allInstructions c0 ++ method_code acc.1.2)%list
  /\ offsets_sound cn acc.1.2 acc.2.

(** The state of the compiler between two declarations. *)
Definition between_classes (c : BytecodeCompiler) : Prop :=
  bc_allInstructions c = class_code (bc_classes c) /\ offsets_sound "" [] c.

(** ** Programs compiled from declarations without statements *)

(** A generator that emits nothing for a body: what [compileBlock] does
    on an empty block, which is the body of every method of [twoMains]. *)
Definition emptyBodies : CodeGenerator :=
  {| compileBlock := fun _ ctx => ctx; compileExpression := fun _ ctx => ctx |}.

(** ** Class loading and snapshots *)

(** The loop of [initialize] that loads the classes [cs]. *)
Definition loadClasses (p : CompiledProgram) (cs : list CompiledClass) (s : JVMState)
    : JVMState :=
  fold_left (fun acc cls => loadClass p cls acc) cs s.

(** The program compiled from no declaration at all. *)
Definition nothingDeclared : CompiledProgram := @compile emptyBodies {| declarations := [] |}.

(** A state that cloning leaves as it is. *)
Definition is_snapshot (s : JVMState) : Prop := clone_JVMState s = s.

(** ** A program with a static call *)

(** The stack of frames of thread [ti]. *)
Definition stackOf (ti : nat) (m : Simulator) : option (list StackFrame) :=
  t_stack <$> threads (state m) !! ti.

(** The method [static int twice(int x)] and its class. *)
Definition twiceMethod : CompiledMethod :=
  mkCompiledMethod "Main" "twice" "twice(int)int" [] [] 16 1.

Definition callClass : CompiledClass :=
  mkCompiledClass "Main" "Object" [] []
    [mkCompiledMethod "Main" "main" "main(String[])void" [] [] 16 1; twiceMethod]
    false "source.java".

(** [main] prints [twice(7)]; [twice] returns its argument added to
    itself. *)
Definition callProgram : CompiledProgram :=
  {| classes := [callClass];
     mainClass := "Main"; mainMethod := "main";
     allInstructions :=
       [instr (OpCode.LOAD_CONST (OpInt 7%float));
        instr (OpCode.INVOKE OpCode.INVOKE_STATIC "twice" "(1)" (Some "Main"));
        instr (OpCode.PRINT (Some true));
        instr OpCode.RETURN;
        instr (OpCode.LOAD_LOCAL 0 "x");
        instr (OpCode.LOAD_LOCAL 0 "x");
        instr (OpCode.ARITH OpCode.ADD);
        instr OpCode.RETURN_VALUE];
     methodOffsets := {["Main.main(String[])void" := 0; "Main.twice(int)int" := 4]} |}.

(** The call program with the argument pushed, and the frame of [main]
    there. *)
Definition callSite : Simulator := exampleRun 1 callProgram.

Definition callFrame : StackFrame :=
  {| f_id := "frame_0"; f_className := "Main"; f_methodName := "main";
     f_methodSignature := "main(String[])void";
     f_localVariables :=
       [mkLocalVariable "args" "String[]" (createReferenceValue (Some "obj_1")) 0];
     f_operandStack := [createPrimitiveValue TInt (PNum 7%float)];
     f_pc := 1; f_lineNumber := 1; f_isNative := false |}.

(** * Lemmas and theorems *)

(** Closed goals about runs are settled by evaluation. *)
Ltac evaluate :=
  repeat match goal with |- _ /\ _ => split end; vm_compute; reflexivity.

(** ** Snapshots are stable *)

Lemma json_number_stable x y :
  Js.json_number x = Some y -> Js.json_number y = Some y.
Proof.
  unfold Js.json_number.
  destruct (PrimFloat.is_nan x || PrimFloat.is_infinity x) eqn:Hx; [discriminate|].
  destruct (PrimFloat.is_zero x) eqn:Hz; intros [= <-].
  - reflexivity.
  - rewrite Hx, Hz. reflexivity.
Qed.

Lemma clone_payload_idem p : clone_payload (clone_payload p) = clone_payload p.
Proof.
  destruct p as [n| | |]; simpl; try reflexivity.
  destruct (Js.json_number n) as [y|] eqn:E; simpl; [|reflexivity].
  by rewrite (json_number_stable _ _ E).
Qed.

Lemma clone_value_idem v : clone_value (clone_value v) = clone_value v.
Proof. destruct v; simpl; try reflexivity. by rewrite clone_payload_idem. Qed.

Lemma list_fmap_idem {A} (f : A -> A) (l : list A) :
  (forall x, f (f x) = f x) -> f <$> (f <$> l) = f <$> l.
Proof.
  intros Hf. rewrite <- list_fmap_compose. apply list_fmap_ext. intros _ x _. apply Hf.
Qed.

Lemma option_fmap_idem {A} (f : A -> A) (o : option A) :
  (forall x, f (f x) = f x) -> f <$> (f <$> o) = f <$> o.
Proof. intros Hf. destruct o; simpl; [by rewrite Hf | done]. Qed.

Lemma map_fmap_idem {A} (f : A -> A) (mp : gmap string A) :
  (forall x, f (f x) = f x) -> f <$> (f <$> mp) = f <$> mp.
Proof.
  intros Hf. rewrite <- map_fmap_compose. apply map_fmap_ext. intros _ x _. apply Hf.
Qed.

Lemma clone_local_idem l : clone_local (clone_local l) = clone_local l.
Proof. destruct l; unfold clone_local; simpl. by rewrite clone_value_idem. Qed.

Lemma clone_frame_idem f : clone_frame (clone_frame f) = clone_frame f.
Proof.
  destruct f; unfold clone_frame, set_f_operandStack, set_f_localVariables; simpl.
  by rewrite (list_fmap_idem _ _ clone_value_idem), (list_fmap_idem _ _ clone_local_idem).
Qed.

Lemma clone_field_idem f : clone_field (clone_field f) = clone_field f.
Proof. destruct f; unfold clone_field; simpl. by rewrite clone_value_idem. Qed.

Lemma clone_slot_idem o : clone_slot (clone_slot o) = clone_slot o.
Proof. apply option_fmap_idem, clone_value_idem. Qed.

Lemma clone_elements_idem l : clone_elements (clone_elements l) = clone_elements l.
Proof. apply list_fmap_idem, clone_slot_idem. Qed.

Lemma clone_object_idem o : clone_object (clone_object o) = clone_object o.
Proof.
  destruct o; unfold clone_object, set_ho_arrayElements, set_ho_fields; simpl.
  by rewrite (list_fmap_idem _ _ clone_field_idem),
             (option_fmap_idem _ _ clone_elements_idem).
Qed.

Lemma clone_fieldInfo_idem f : clone_fieldInfo (clone_fieldInfo f) = clone_fieldInfo f.
Proof.
  destruct f; unfold clone_fieldInfo; simpl.
  by rewrite (option_fmap_idem _ _ clone_value_idem).
Qed.

Lemma clone_classInfo_idem c : clone_classInfo (clone_classInfo c) = clone_classInfo c.
Proof.
  destruct c; unfold clone_classInfo; simpl.
  by rewrite (list_fmap_idem _ _ clone_fieldInfo_idem).
Qed.

Lemma clone_methodArea_idem a : clone_methodArea (clone_methodArea a) = clone_methodArea a.
Proof.
  destruct a; unfold clone_methodArea; simpl. f_equal.
  - apply map_fmap_idem, clone_classInfo_idem.
  - apply map_fmap_idem. intros fs. apply map_fmap_idem, clone_value_idem.
Qed.

Lemma clone_deadline_idem (d : option (option float)) :
  (fun d => d ≫= Js.json_number) <$> ((fun d => d ≫= Js.json_number) <$> d)
  = (fun d => d ≫= Js.json_number) <$> d.
Proof.
  apply option_fmap_idem. intros [x|]; simpl; [|reflexivity].
  destruct (Js.json_number x) as [y|] eqn:E; simpl; [|reflexivity].
  by apply json_number_stable in E.
Qed.

Lemma clone_thread_idem t : clone_thread (clone_thread t) = clone_thread t.
Proof.
  destruct t; unfold clone_thread, set_t_sleepUntilStep, set_t_stack; simpl.
  by rewrite (list_fmap_idem _ _ clone_frame_idem), clone_deadline_idem.
Qed.

(** A snapshot of a snapshot is the snapshot. *)
Lemma clone_JVMState_idem s : clone_JVMState (clone_JVMState s) = clone_JVMState s.
Proof.
  destruct s; unfold clone_JVMState; simpl.
  by rewrite !(list_fmap_idem _ _ clone_frame_idem), (list_fmap_idem _ _ clone_object_idem),
             (list_fmap_idem _ _ clone_thread_idem), clone_methodArea_idem.
Qed.

(** ** What the interpreter leaves alone: program, history, capacity *)

Lemma shell_generateObjectId m id m' :
  generateObjectId m = (id, m') -> shell m' = shell m.
Proof. by intros [= _ <-]. Qed.

Lemma shell_allocateObject c m id m' :
  allocateObject c m = (id, m') -> shell m' = shell m.
Proof. by intros [= _ <-]. Qed.

Lemma shell_allocateArray ty l m id m' :
  allocateArray ty l m = (id, m') -> shell m' = shell m.
Proof. by intros [= _ <-]. Qed.

Lemma shell_allocateLambda i m id m' :
  allocateLambda i m = (id, m') -> shell m' = shell m.
Proof. by intros [= _ <-]. Qed.

Ltac shell_step :=
  match goal with
  | H : allocateObject _ _ = (_, _) |- _ => apply shell_allocateObject in H
  | H : allocateArray _ _ _ = (_, _) |- _ => apply shell_allocateArray in H
  | H : allocateLambda _ _ = (_, _) |- _ => apply shell_allocateLambda in H
  end.

Section Shell.
Context {host : JsHost} {lib : DataStdlib}.

Lemma shell_Thread_start fr cn objRef ent m :
  stdlib_shell m (Thread_start fr cn objRef ent m).
Proof.
  unfold Thread_start.
  repeat (case_match; simplify_eq); simpl; done.
Qed.

Lemma shell_threadFamily fr mn args cn objRef ent m r :
  threadFamily fr mn args cn objRef ent m = Some r -> stdlib_shell m r.
Proof.
  unfold threadFamily. intros H.
  repeat (case_match; simplify_eq; try apply shell_Thread_start); simpl; done.
Qed.

Lemma shell_run_family fam fr mn args st cn objRef ent m fr' m' v :
  run_family fam fr mn args st cn objRef ent m = (fr', m', v) -> shell m' = shell m.
Proof. unfold run_family. case_match. by intros [= _ <- _]. Qed.

Lemma stdlib_shell_trans m m1 r :
  shell m1 = shell m -> stdlib_shell m1 r -> stdlib_shell m r.
Proof. intros E. destruct r; simpl; congruence. Qed.

Lemma shell_invokeStdlib fr mn args st cn objRef ent m :
  stdlib_shell m (invokeStdlib fr mn args st cn objRef ent m).
Proof.
  unfold invokeStdlib.
  destruct (_ && _); [done|].
  destruct (run_family earlyFamilies _ _ _ _ _ _ _ _) as [[fr1 m1] v] eqn:E1.
  apply shell_run_family in E1.
  destruct v; simpl; try done.
  destruct (isThreadClass _ _ _) as [isThread|]; [|done].
  destruct (if isThread then _ else _) as [r|] eqn:Et.
  - destruct isThread; [|done].
    apply shell_threadFamily in Et. by eapply stdlib_shell_trans.
  - destruct (run_family lateFamilies _ _ _ _ _ _ _ _) as [[fr2 m2] v2] eqn:E2.
    apply shell_run_family in E2. destruct v2; simpl; congruence.
Qed.

Lemma shell_invokeMethod ti fr kind mn d cop ent m :
  outcome_shell m (invokeMethod ti fr kind mn d cop ent m).
Proof.
  unfold invokeMethod.
  repeat (case_match; simplify_eq); simpl; try done;
    match goal with
    | H : invokeStdlib ?a ?b ?c ?d ?e ?f ?g ?h = _ |- _ =>
        pose proof (shell_invokeStdlib a b c d e f g h) as Hs; rewrite H in Hs; simpl in Hs
    end; try done.
Qed.

Lemma shell_executeInstruction ti instr frame ent m :
  outcome_shell m (executeInstruction ti instr frame ent m).
Proof.
  unfold executeInstruction.
  destruct (opcode instr); try apply shell_invokeMethod;
    repeat (case_match; simplify_eq); simpl; try done;
    repeat shell_step; done.
Qed.

End Shell.

Section StepShell.
Context {host : JsHost} {lib : DataStdlib}.

Lemma shell_runActiveThread ent m m' :
  simulator_after (runActiveThread ent m) = Some m' -> shell m' = shell m.
Proof.
  unfold runActiveThread.
  destruct (activeThreadState (state m)) as [thread0|]; [|by intros [= <-]].
  destruct (t_stack thread0) as [|frame rest]; [unfold returning; by intros [= <-]|].
  simpl. destruct (fetch _ _) as [instruction|]; [|unfold returning; by intros [= <-]].
  match goal with
  | |- context [executeInstruction ?a ?b ?c ?d ?e] =>
      pose proof (shell_executeInstruction a b c d e) as Hs;
      destruct (executeInstruction a b c d e)
  end; simpl in *; intros [= <-]; done.
Qed.

(** A step that is taken changes the history by [saveHistory] alone. *)
Lemma shell_step ent m m' :
  is_finished (state m) = false ->
  simulator_after (step ent m) = Some m' ->
  shell m' = shell (saveHistory m).
Proof.
  intros Hfin. unfold step. rewrite Hfin.
  repeat case_match;
    try (intros Hrun; apply shell_runActiveThread in Hrun; exact Hrun);
    unfold returning; simpl; by intros [= <-].
Qed.

End StepShell.

Lemma last_snoc_hist {A} (l : list A) x : last (l ++ [x]) = Some x.
Proof. apply last_snoc. Qed.

Lemma stepBack_after_save m m' :
  shell m' = shell (saveHistory m) ->
  stepBack m' =
    (set_state (cloneState m)
       (set_history (if (maxHistory m <=? length (history m))%nat
                     then tail (history m) else history m) m'),
     mkExecutionResult (cloneState m) None "Stepped back").
Proof.
  intros [= Hp Hh Hm]. unfold stepBack, saveHistory in *. simpl in Hh.
  rewrite Hh, last_snoc, removelast_last. simpl.
  do 2 f_equal. unfold cloneState. simpl. apply clone_JVMState_idem.
Qed.

(** C1. After a step that was taken (the status was neither completed nor
    error), [stepBack] returns the snapshot of the state as it was before
    the step, installs it as the current state, and leaves the history as
    it was before the step (less its oldest entry when it was full): it
    pops exactly the entry [saveHistory] pushed. *)
Theorem step_stepBack_restores_snapshot
    {host : JsHost} {lib : DataStdlib} (ent : HostEntropy) (m m1 : Simulator) :
  status (state m) <> st_completed ->
  status (state m) <> st_error ->
  simulator_after (step ent m) = Some m1 ->
  er_state (stepBack m1).2 = getState m
  /\ er_instruction (stepBack m1).2 = None
  /\ state (stepBack m1).1 = getState m
  /\ history (stepBack m1).1 =
       (if (maxHistory m <=? length (history m))%nat then tail (history m) else history m)
  /\ nextObjectId (stepBack m1).1 = nextObjectId m1.
Proof.
  intros Hc He Hstep.
  assert (is_finished (state m) = false) as Hfin.
  { unfold is_finished. by rewrite !bool_decide_eq_false_2. }
  pose proof (shell_step ent m m1 Hfin Hstep) as Hshell.
  rewrite (stepBack_after_save m m1 Hshell). simpl. done.
Qed.

(** C10. With an empty history [stepBack] changes nothing: the simulator
    is the same afterwards, and the result carries the snapshot of the
    current state, no instruction and the description reading that there is
    no previous state; in particular the status is not touched. *)
Theorem stepBack_empty_history (m : Simulator) :
  canStepBack m = false ->
  (stepBack m).1 = m
  /\ er_state (stepBack m).2 = getState m
  /\ er_instruction (stepBack m).2 = None
  /\ er_description (stepBack m).2 = "No previous state"
  /\ status (er_state (stepBack m).2) = status (state m).
Proof.
  unfold canStepBack. intros H%bool_decide_eq_false.
  destruct (history m) as [|s h] eqn:E; [|simpl in H; lia].
  unfold stepBack. rewrite E. simpl. done.
Qed.

(** The theorem at a fresh simulator for the hello program, whose history
    is empty. *)
Lemma stepBack_empty_history_witness :
  (stepBack helloSimulator).1 = helloSimulator
  /\ er_state (stepBack helloSimulator).2 = getState helloSimulator
  /\ er_instruction (stepBack helloSimulator).2 = None
  /\ er_description (stepBack helloSimulator).2 = "No previous state"
  /\ status (er_state (stepBack helloSimulator).2) = status (state helloSimulator).
Proof.
  apply (stepBack_empty_history helloSimulator). vm_compute. reflexivity.
Defined.

(** ** The monitor table and the threads' lists agree *)


Lemma find_thread_alter (g : ThreadState -> ThreadState) T i ts :
  (forall t, t_id (g t) = t_id t) ->
  find_thread T (alter g i ts)
  = (fun '(j, t) => (j, if decide (j = i) then g t else t)) <$> find_thread T ts.
Proof.
  intros Hg. unfold find_thread, alter. revert i.
  induction ts as [|x l IH]; intros i; [done|].
  destruct i as [|i]; simpl.
  - rewrite Hg. case_decide; [done|].
    destruct (list_find _ l) as [[j y]|]; simpl; [|done]. done.
  - case_decide; [done|]. rewrite IH.
    destruct (list_find _ l) as [[j y]|]; simpl; [|done].
    repeat case_decide; try done; lia.
Qed.

Lemma find_thread_lookup T ts i t :
  find_thread T ts = Some (i, t) -> ts !! i = Some t /\ t_id t = T.
Proof. intros (?&?&?)%list_find_Some. done. Qed.

Lemma find_thread_unique T ts i t j u :
  find_thread T ts = Some (i, t) -> find_thread T ts = Some (j, u) -> i = j /\ t = u.
Proof. intros E1 E2. rewrite E1 in E2. by injection E2. Qed.

(** An update of one thread that keeps its id and its monitor list. *)
Lemma inv_alter_view (g : ThreadState -> ThreadState) i mon ts :
  (forall t, view_of (g t) = view_of t) ->
  inv_on mon ts -> inv_on mon (alter g i ts).
Proof.
  intros Hg [H1 H2].
  assert (forall t, t_id (g t) = t_id t) as Hid by (intros t; by injection (Hg t)).
  assert (forall t, t_holdingMonitors (g t) = t_holdingMonitors t) as Hh
    by (intros t; by injection (Hg t)).
  split.
  - intros o T Ho. destruct (H1 o T Ho) as (j & t & Hf & Hin).
    rewrite (find_thread_alter g T i ts Hid), Hf. simpl.
    eexists _, _. split; [done|]. case_decide; by rewrite ?Hh.
  - intros j t o Hj Ho.
    destruct (decide (j = i)) as [->|Hne].
    + rewrite list_lookup_alter_eq in Hj.
      destruct (ts !! i) as [t0|] eqn:E; simplify_eq/=.
      rewrite Hh in Ho. destruct (H2 i t0 o E Ho) as [Hm Hf].
      rewrite Hid. split; [done|].
      rewrite (find_thread_alter g _ i ts Hid), Hf. simpl. by rewrite decide_True.
    + rewrite list_lookup_alter_ne in Hj by done.
      destruct (H2 j t o Hj Ho) as [Hm Hf]. split; [done|].
      rewrite (find_thread_alter g _ i ts Hid), Hf. simpl. by rewrite decide_False.
Qed.

(** A new thread that holds nothing. *)
Lemma inv_spawn mon ts t' :
  t_holdingMonitors t' = [] -> inv_on mon ts -> inv_on mon (ts ++ [t']).
Proof.
  intros Hnil [H1 H2]. split.
  - intros o T Ho. destruct (H1 o T Ho) as (j & t & Hf & Hin).
    exists j, t. split; [|done]. by apply list_find_app_l.
  - intros j t o Hj Ho.
    apply lookup_app_Some in Hj as [Hj|[Hlen Hj]].
    + destruct (H2 j t o Hj Ho) as [Hm Hf]. split; [done|]. by apply list_find_app_l.
    + destruct (j - length ts)%nat; simplify_eq/=.
      rewrite Hnil in Ho. by apply elem_of_nil in Ho.
Qed.

(** [acquireMonitor] by a thread of the table. *)
Lemma inv_acquire o T mon ts i t :
  find_thread T ts = Some (i, t) ->
  (mon !! o = None \/ mon !! o = Some None \/ mon !! o = Some (Some T)) ->
  inv_on mon ts ->
  inv_on (<[o := Some T]> mon)
    (if bool_decide (o ∈ t_holdingMonitors t) then ts
     else alter (fun t => set_t_holdingMonitors (t_holdingMonitors t ++ [o]) t) i ts).
Proof.
  intros Hfind Hfree [H1 H2].
  pose proof (find_thread_lookup _ _ _ _ Hfind) as [Hi HT].
  set (g := fun t => set_t_holdingMonitors (t_holdingMonitors t ++ [o]) t).
  assert (forall t, t_id (g t) = t_id t) as Hid by done.
  assert (forall j u, ts !! j = Some u -> o ∈ t_holdingMonitors u -> j = i) as Honly.
  { intros j u Hj Hu. destruct (H2 j u o Hj Hu) as [Hm Hf].
    destruct Hfree as [E|[E|E]]; rewrite E in Hm; try discriminate.
    injection Hm as Hm. rewrite <- Hm in Hf.
    by destruct (find_thread_unique _ _ _ _ _ _ Hf Hfind). }
  case_bool_decide as Hin.
  - split.
    + intros o' T' Ho'. destruct (decide (o' = o)) as [->|Hne].
      * rewrite lookup_insert_eq in Ho'. simplify_eq. eauto.
      * rewrite lookup_insert_ne in Ho' by done. eauto.
    + intros j u o' Hj Ho'. destruct (H2 j u o' Hj Ho') as [Hm Hf]. split; [|done].
      destruct (decide (o' = o)) as [->|Hne].
      * rewrite lookup_insert_eq. pose proof (Honly j u Hj Ho') as ->. simplify_eq. done.
      * by rewrite lookup_insert_ne.
  - split.
    + intros o' T' Ho'. destruct (decide (o' = o)) as [->|Hne].
      * rewrite lookup_insert_eq in Ho'. simplify_eq.
        rewrite (find_thread_alter g _ i ts Hid), Hfind. simpl. rewrite decide_True by done.
        eexists _, _. split; [done|]. simpl. apply elem_of_app. right. by apply list_elem_of_singleton.
      * rewrite lookup_insert_ne in Ho' by done.
        destruct (H1 o' T' Ho') as (j & u & Hf & Hu).
        rewrite (find_thread_alter g _ i ts Hid), Hf. simpl.
        eexists _, _. split; [done|]. case_decide; [|done].
        simpl. apply elem_of_app. by left.
    + intros j u o' Hj Ho'. destruct (decide (j = i)) as [->|Hne].
      * rewrite list_lookup_alter_eq, Hi in Hj. simplify_eq/=.
        rewrite (find_thread_alter g _ i ts Hid), Hfind. simpl. rewrite decide_True by done.
        split; [|done].
        apply elem_of_app in Ho' as [Ho'|Ho'%list_elem_of_singleton].
        -- destruct (H2 i t o' Hi Ho') as [Hm _].
           destruct (decide (o' = o)) as [->|Hne]; [done|]. by rewrite lookup_insert_ne.
        -- subst. by rewrite lookup_insert_eq.
      * rewrite list_lookup_alter_ne in Hj by done.
        destruct (H2 j u o' Hj Ho') as [Hm Hf].
        rewrite (find_thread_alter g _ i ts Hid), Hf. simpl. rewrite decide_False by done.
        split; [|done].
        destruct (decide (o' = o)) as [->|Hne']; [|by rewrite lookup_insert_ne].
        by pose proof (Honly j u Hj Ho').
Qed.

(** The release of a monitor held by [T]: its entry becomes null and the
    first thread with id [T] drops it from its list. *)
Lemma inv_release o T mon ts :
  mon !! o = Some (Some T) ->
  inv_on mon ts ->
  inv_on (<[o := None]> mon)
    (match find_thread T ts with
     | Some (i, _) =>
         alter (fun t => set_t_holdingMonitors
                           (filter (fun m => m <> o) (t_holdingMonitors t)) t) i ts
     | None => ts
     end).
Proof.
  intros Hheld [H1 H2].
  destruct (H1 o T Hheld) as (i & t & Hfind & Hin). rewrite Hfind.
  pose proof (find_thread_lookup _ _ _ _ Hfind) as [Hi HT].
  set (g := fun t => set_t_holdingMonitors (filter (fun m => m <> o) (t_holdingMonitors t)) t).
  assert (forall t, t_id (g t) = t_id t) as Hid by done.
  split.
  - intros o' T' Ho'. destruct (decide (o' = o)) as [->|Hne].
    { by rewrite lookup_insert_eq in Ho'. }
    rewrite lookup_insert_ne in Ho' by done.
    destruct (H1 o' T' Ho') as (j & u & Hf & Hu).
    rewrite (find_thread_alter g _ i ts Hid), Hf. simpl.
    eexists _, _. split; [done|]. case_decide; [|done].
    simpl. apply list_elem_of_filter. done.
  - intros j u o' Hj Ho'. destruct (decide (j = i)) as [->|Hne].
    + rewrite list_lookup_alter_eq, Hi in Hj. simplify_eq/=.
      apply list_elem_of_filter in Ho' as [Hne Ho'].
      destruct (H2 i t o' Hi Ho') as [Hm Hf].
      rewrite lookup_insert_ne by done. split; [done|].
      rewrite (find_thread_alter g _ i ts Hid), Hfind. simpl. by rewrite decide_True.
    + rewrite list_lookup_alter_ne in Hj by done.
      destruct (H2 j u o' Hj Ho') as [Hm Hf].
      destruct (decide (o' = o)) as [->|Hne'].
      { rewrite Hheld in Hm. injection Hm as Hm. rewrite <- Hm in Hf.
        by destruct (find_thread_unique _ _ _ _ _ _ Hf Hfind). }
      rewrite lookup_insert_ne by done. split; [done|].
      rewrite (find_thread_alter g _ i ts Hid), Hf. simpl. by rewrite decide_False.
Qed.

(** *** The invariant under the state updates of the interpreter *)

Lemma inv_upd_thread i g s :
  (forall t, view_of (g t) = view_of t) -> monitor_inv s -> monitor_inv (upd_thread i g s).
Proof. intros Hg H. by apply inv_alter_view. Qed.

Lemma inv_put_frame i fr s : monitor_inv s -> monitor_inv (put_frame i fr s).
Proof. by apply inv_upd_thread. Qed.

Lemma inv_rotateThread s : monitor_inv s -> monitor_inv (rotateThread s).
Proof. unfold rotateThread. by repeat case_match. Qed.

Lemma view_tick_thread n all t : view_of (tick_thread n all t) = view_of t.
Proof. unfold tick_thread. by repeat case_match. Qed.

Lemma inv_tickThreads s : monitor_inv s -> monitor_inv (tickThreads s).
Proof.
  unfold monitor_inv, tickThreads. simpl.
  generalize (seq 0 (length (threads s))) as l. generalize (threads s) as ts.
  intros ts l. revert ts. induction l as [|i l IH]; intros ts H; [done|].
  simpl. apply IH. apply inv_alter_view; [|done]. intros t. apply view_tick_thread.
Qed.

Lemma inv_syncStack s : monitor_inv s -> monitor_inv (syncStack s).
Proof. done. Qed.

Lemma inv_acquireMonitor o T s :
  is_Some (find_thread T (threads s)) ->
  monitor_inv s -> monitor_inv (acquireMonitor o T s).1.
Proof.
  intros [[i t] Hfind] Hinv. unfold acquireMonitor.
  destruct (monitors s !! o) as [[holder|]|] eqn:E; simpl.
  - case_bool_decide as Hh; [subst holder|done]. simpl. rewrite Hfind.
    pose proof (inv_acquire o T _ _ i t Hfind (or_intror (or_intror E)) Hinv) as Hi.
    by case_bool_decide.
  - rewrite Hfind.
    pose proof (inv_acquire o T _ _ i t Hfind (or_intror (or_introl E)) Hinv) as Hi.
    by case_bool_decide.
  - rewrite Hfind.
    pose proof (inv_acquire o T _ _ i t Hfind (or_introl E) Hinv) as Hi.
    by case_bool_decide.
Qed.

Lemma inv_releaseMonitor o T s : monitor_inv s -> monitor_inv (releaseMonitor o T s).
Proof.
  intros Hinv. unfold releaseMonitor. case_bool_decide as Hheld; [|done].
  pose proof (inv_release o T _ _ Hheld Hinv) as Hr.
  match goal with
  | |- context [list_find (is_blocked_on o) ?l] => destruct (list_find (is_blocked_on o) l) as [[j w]|]
  end.
  - apply inv_upd_thread; [done|]. simpl. by destruct (find_thread T (threads s)) as [[i t]|].
  - simpl. by destruct (find_thread T (threads s)) as [[i t]|].
Qed.

(** What [releaseMonitor] does to the thread at a given index. *)
Lemma releaseMonitor_lookup o T s i t :
  threads s !! i = Some t ->
  exists t', threads (releaseMonitor o T s) !! i = Some t'
    /\ t_id t' = t_id t
    /\ (forall o', o' ∈ t_holdingMonitors t' -> o' ∈ t_holdingMonitors t)
    /\ (monitor_inv s -> t_id t = T -> o ∉ t_holdingMonitors t').
Proof.
  intros Hi. unfold releaseMonitor. case_bool_decide as Hheld.
  2:{ exists t. repeat split; try done. intros [_ H2] HT Ho.
      destruct (H2 i t o Hi Ho) as [Hm _]. rewrite HT in Hm. done. }
  set (g := fun t => set_t_holdingMonitors (filter (fun m => m <> o) (t_holdingMonitors t)) t).
  set (w := fun t => set_t_waitingOnMonitor None (set_t_status RUNNABLE t)).
  assert (exists t1, (match find_thread T (threads s) with
                      | Some (k, _) => alter g k (threads s)
                      | None => threads s
                      end) !! i = Some t1
            /\ t_id t1 = t_id t
            /\ (forall o', o' ∈ t_holdingMonitors t1 -> o' ∈ t_holdingMonitors t)
            /\ (monitor_inv s -> t_id t = T -> o ∉ t_holdingMonitors t1)) as (t1 & H1 & Hid & Hsub & Hnot).
  { destruct (find_thread T (threads s)) as [[k tk]|] eqn:Hfind.
    - destruct (decide (k = i)) as [->|Hne].
      + exists (g t). rewrite list_lookup_alter_eq, Hi. repeat split; try done.
        * intros o'. simpl. by intros [_ ?]%list_elem_of_filter.
        * intros _ _. simpl. by intros [? _]%list_elem_of_filter.
      + exists t. rewrite list_lookup_alter_ne by done. repeat split; try done.
        intros [_ H2] HT Ho. destruct (H2 i t o Hi Ho) as [_ Hf]. rewrite HT in Hf.
        destruct (find_thread_unique _ _ _ _ _ _ Hf Hfind). done.
    - exists t. repeat split; try done.
      intros [_ H2] HT Ho. destruct (H2 i t o Hi Ho) as [_ Hf]. rewrite HT in Hf. congruence. }
  simpl.
  match goal with
  | |- context [list_find (is_blocked_on o) ?l] =>
      destruct (list_find (is_blocked_on o) l) as [[j wt]|]
  end; simpl.
  - destruct (find_thread T (threads s)) as [[k tk]|]; simpl.
    + destruct (decide (j = i)) as [->|Hne].
      * exists (w t1). rewrite list_lookup_alter_eq, H1. done.
      * exists t1. by rewrite list_lookup_alter_ne.
    + destruct (decide (j = i)) as [->|Hne].
      * exists (w t1). rewrite list_lookup_alter_eq, H1. done.
      * exists t1. by rewrite list_lookup_alter_ne.
  - destruct (find_thread T (threads s)) as [[k tk]|]; simpl; eauto.
Qed.

Lemma alter_fixed {A} (g : A -> A) i (l : list A) x :
  l !! i = Some x -> g x = x -> alter g i l = l.
Proof.
  intros Hi Hg. apply list_eq. intros j. destruct (decide (j = i)) as [->|Hne].
  - by rewrite list_lookup_alter_eq, Hi; simpl; rewrite Hg.
  - by rewrite list_lookup_alter_ne.
Qed.

Lemma releaseAll_fold T i l s t :
  monitor_inv s -> threads s !! i = Some t -> t_id t = T ->
  (forall o, o ∈ t_holdingMonitors t -> o ∈ l) ->
  let s' := fold_left (fun acc monId => releaseMonitor monId T acc) l s in
  monitor_inv s' /\ exists t', threads s' !! i = Some t' /\ t_holdingMonitors t' = [].
Proof.
  revert s t. induction l as [|o l IH]; intros s t Hinv Hi HT Hsub; simpl.
  - split; [done|]. exists t. split; [done|].
    destruct (t_holdingMonitors t) as [|o r]; [done|].
    exfalso. eapply elem_of_nil, Hsub. by left.
  - destruct (releaseMonitor_lookup o T s i t Hi) as (t' & Hi' & Hid & Hsub' & Hnot).
    apply (IH _ t'); [by apply inv_releaseMonitor|done|congruence|].
    intros o' Ho'. pose proof (Hsub o' (Hsub' o' Ho')) as Hin.
    apply elem_of_cons in Hin as [->|Hin]; [|done].
    by destruct (Hnot Hinv HT).
Qed.

Lemma inv_releaseAllMonitors i s : monitor_inv s -> monitor_inv (releaseAllMonitors i s).
Proof.
  intros Hinv. unfold releaseAllMonitors.
  destruct (threads s !! i) as [t|] eqn:Hi; [|done].
  destruct (releaseAll_fold (t_id t) i (t_holdingMonitors t) s t Hinv Hi eq_refl)
    as (Hinv' & t' & Hi' & Hnil); [done|].
  unfold monitor_inv, upd_thread. simpl.
  rewrite (alter_fixed _ _ _ t' Hi'); [done|].
  destruct t'. simpl in *. by subst.
Qed.

Lemma inv_retireThread ti s : monitor_inv s -> monitor_inv (retireThread ti s).
Proof.
  intros H. unfold retireThread.
  change (monitor_inv (syncStack (rotateThread
            (releaseAllMonitors ti (upd_thread ti (set_t_status TERMINATED) s))))).
  apply inv_syncStack, inv_rotateThread, inv_releaseAllMonitors, inv_upd_thread; done.
Qed.

Lemma inv_afterInstruction ti s : monitor_inv s -> monitor_inv (afterInstruction ti s).
Proof.
  intros H. unfold afterInstruction.
  set (s2 := upd_thread ti _ (set_stepNumber _ s)).
  assert (monitor_inv s2) as H2 by (by apply inv_upd_thread).
  set (s3 := match threads s2 !! ti with Some _ => _ | None => _ end).
  assert (monitor_inv s3) as H3.
  { subst s3. repeat case_match; try done.
    - apply inv_releaseAllMonitors, inv_upd_thread; done.
    - by apply inv_upd_thread. }
  assert (monitor_inv (syncStack (rotateThread s3))) as H4
    by (by apply inv_syncStack, inv_rotateThread).
  by case_match.
Qed.

Lemma inv_set_stack v s : monitor_inv s -> monitor_inv (set_stack v s).
Proof. done. Qed.
Lemma inv_set_heap v s : monitor_inv s -> monitor_inv (set_heap v s).
Proof. done. Qed.
Lemma inv_set_methodArea v s : monitor_inv s -> monitor_inv (set_methodArea v s).
Proof. done. Qed.
Lemma inv_set_pc v s : monitor_inv s -> monitor_inv (set_pc v s).
Proof. done. Qed.
Lemma inv_set_status v s : monitor_inv s -> monitor_inv (set_status v s).
Proof. done. Qed.
Lemma inv_set_stepNumber v s : monitor_inv s -> monitor_inv (set_stepNumber v s).
Proof. done. Qed.
Lemma inv_set_output v s : monitor_inv s -> monitor_inv (set_output v s).
Proof. done. Qed.
Lemma inv_set_error v s : monitor_inv s -> monitor_inv (set_error v s).
Proof. done. Qed.
Lemma inv_set_activeThread v s : monitor_inv s -> monitor_inv (set_activeThread v s).
Proof. done. Qed.

Lemma inv_spawn_thread t' s :
  t_holdingMonitors t' = [] -> monitor_inv s ->
  monitor_inv (set_threads (threads s ++ [t']) s).
Proof. intros Hnil H. by apply inv_spawn. Qed.

Lemma find_thread_view ts ts' T i t :
  view_of <$> ts' = view_of <$> ts ->
  find_thread T ts = Some (i, t) ->
  exists t', find_thread T ts' = Some (i, t') /\ view_of t' = view_of t.
Proof.
  intros Hv Hf.
  pose proof (list_find_fmap view_of (fun x => x.1 = T) ts) as E.
  pose proof (list_find_fmap view_of (fun x => x.1 = T) ts') as E'.
  rewrite Hv, E in E'.
  change (list_find ((fun x : string * list string => x.1 = T) ∘ view_of) ts)
    with (find_thread T ts) in E'.
  change (list_find ((fun x : string * list string => x.1 = T) ∘ view_of) ts')
    with (find_thread T ts') in E'.
  rewrite Hf in E'. simpl in E'.
  destruct (find_thread T ts') as [[j t']|]; simplify_eq/=.
  exists t'. split; [done|]. unfold view_of. congruence.
Qed.

(** The invariant depends on the thread table only through the ids and
    the monitor lists. *)
Lemma inv_view_eq mon ts ts' :
  view_of <$> ts' = view_of <$> ts -> inv_on mon ts -> inv_on mon ts'.
Proof.
  intros Hv [H1 H2]. split.
  - intros o T Ho. destruct (H1 o T Ho) as (i & t & Hf & Hin).
    destruct (find_thread_view ts ts' T i t Hv Hf) as (t' & Hf' & Hvt).
    exists i, t'. split; [done|]. injection Hvt as _ ->. done.
  - intros i t' o Hi Ho.
    assert ((view_of <$> ts) !! i = Some (view_of t')) as Hl
      by (by rewrite <- Hv, list_lookup_fmap, Hi).
    rewrite list_lookup_fmap in Hl.
    destruct (ts !! i) as [t|] eqn:Et; [|done]. simpl in Hl.
    injection Hl as Hid Hh. rewrite <- Hh in Ho.
    destruct (H2 i t o Et Ho) as [Hm Hf]. rewrite <- Hid. split; [done|].
    destruct (find_thread_view ts ts' _ i t Hv Hf) as (t'' & Hf' & _).
    pose proof (find_thread_lookup _ _ _ _ Hf') as [Hi' _]. congruence.
Qed.

Lemma inv_map_threads (g : ThreadState -> ThreadState) s :
  (forall t, view_of (g t) = view_of t) -> monitor_inv s ->
  monitor_inv (set_threads (g <$> threads s) s).
Proof.
  intros Hg H. unfold monitor_inv. simpl. apply (inv_view_eq _ (threads s)); [|done].
  rewrite <- list_fmap_compose. apply list_fmap_ext. intros _ t _. apply Hg.
Qed.

Lemma find_thread_present ts i t :
  ts !! i = Some t -> is_Some (find_thread (t_id t) ts).
Proof.
  intros Hi. apply (list_find_elem_of _ _ t); [|done]. by eapply list_elem_of_lookup_2.
Qed.

Lemma inv_allocateObject c m id m' :
  allocateObject c m = (id, m') -> monitor_inv (state m) -> monitor_inv (state m').
Proof. by intros [= _ <-]. Qed.

Lemma inv_allocateArray ty l m id m' :
  allocateArray ty l m = (id, m') -> monitor_inv (state m) -> monitor_inv (state m').
Proof. by intros [= _ <-]. Qed.

Lemma inv_allocateLambda i m id m' :
  allocateLambda i m = (id, m') -> monitor_inv (state m) -> monitor_inv (state m').
Proof. by intros [= _ <-]. Qed.

Lemma inv_acquire_pair o T s s1 b :
  acquireMonitor o T s = (s1, b) ->
  is_Some (find_thread T (threads s)) -> monitor_inv s -> monitor_inv s1.
Proof.
  intros E Hs H. replace s1 with (acquireMonitor o T s).1 by (by rewrite E).
  by apply inv_acquireMonitor.
Qed.

Ltac inv_step :=
  first
    [ assumption
    | apply inv_put_frame
    | apply inv_set_stack | apply inv_set_heap | apply inv_set_methodArea
    | apply inv_set_pc | apply inv_set_status | apply inv_set_stepNumber
    | apply inv_set_output | apply inv_set_error | apply inv_set_activeThread
    | apply inv_rotateThread | apply inv_releaseMonitor
    | apply inv_upd_thread; [done|]
    | apply inv_spawn_thread; [done|]
    | apply inv_map_threads; [by intros ?; repeat case_match|] ].

Ltac inv_solve :=
  cbn [state commit set_state upd_state upd_object set_nextObjectId push_heap fst snd];
  repeat inv_step.

Ltac inv_cases := repeat (case_match; simplify_eq).

Section Invariant.
Context {host : JsHost} {lib : DataStdlib}.

Lemma inv_Thread_start fr cn objRef ent m :
  monitor_inv (state m) -> stdlib_inv (Thread_start fr cn objRef ent m).
Proof.
  intros H. unfold Thread_start.
  inv_cases; cbn [stdlib_inv]; inv_solve; done.
Qed.

Lemma inv_threadFamily fr mn args cn objRef ent m r :
  monitor_inv (state m) ->
  threadFamily fr mn args cn objRef ent m = Some r -> stdlib_inv r.
Proof.
  intros H. unfold threadFamily. intros E.
  repeat (case_match; simplify_eq; try by apply inv_Thread_start);
    cbn [stdlib_inv]; inv_solve; try done.
Qed.

Lemma inv_run_family fam fr mn args st cn objRef ent m fr' m' v :
  run_family fam fr mn args st cn objRef ent m = (fr', m', v) ->
  monitor_inv (state m) -> monitor_inv (state m').
Proof. unfold run_family. case_match. by intros [= _ <- _]. Qed.

Lemma inv_invokeStdlib fr mn args st cn objRef ent m :
  monitor_inv (state m) -> stdlib_inv (invokeStdlib fr mn args st cn objRef ent m).
Proof.
  intros H. unfold invokeStdlib.
  destruct (_ && _); [done|].
  destruct (run_family earlyFamilies _ _ _ _ _ _ _ _) as [[fr1 m1] v] eqn:E1.
  apply inv_run_family in E1; [|done].
  destruct v; cbn [stdlib_inv]; try done.
  destruct (isThreadClass _ _ _) as [isThread|]; [|done].
  destruct (if isThread then _ else _) as [r|] eqn:Et.
  - destruct isThread; [|done]. by eapply inv_threadFamily.
  - destruct (run_family lateFamilies _ _ _ _ _ _ _ _) as [[fr2 m2] v2] eqn:E2.
    apply inv_run_family in E2; [|done]. by destruct v2.
Qed.

Lemma inv_invokeMethod ti fr kind mn d cop ent m :
  monitor_inv (state m) -> outcome_inv (invokeMethod ti fr kind mn d cop ent m).
Proof.
  intros H. unfold invokeMethod.
  repeat (case_match; simplify_eq); cbn [outcome_inv]; try (inv_solve; done);
    match goal with
    | Hi : invokeStdlib ?a ?b ?c ?d ?e ?f ?g ?h = _ |- _ =>
        pose proof (inv_invokeStdlib a b c d e f g h H) as Hs; rewrite Hi in Hs;
        cbn [stdlib_inv] in Hs
    end; inv_solve; done.
Qed.

Lemma inv_executeInstruction ti instr frame ent m :
  monitor_inv (state m) -> outcome_inv (executeInstruction ti instr frame ent m).
Proof.
  intros H. unfold executeInstruction.
  destruct (opcode instr); try by apply inv_invokeMethod.
  all: repeat (case_match; simplify_eq); cbn [outcome_inv].
  all: repeat match goal with
       | Ha : allocateObject _ _ = (_, _) |- _ => apply inv_allocateObject in Ha; [|done]
       | Ha : allocateArray _ _ _ = (_, _) |- _ => apply inv_allocateArray in Ha; [|done]
       | Ha : allocateLambda _ _ = (_, _) |- _ => apply inv_allocateLambda in Ha; [|done]
       | Ha : acquireMonitor _ (t_id ?t) ?s = (_, _), Ht : activeThreadState ?s = Some ?t |- _ =>
           apply inv_acquire_pair in Ha; [|by eapply find_thread_present|done]
       end.
  all: inv_solve; try done.
Qed.

Lemma inv_runActiveThread ent m m' :
  monitor_inv (state m) ->
  simulator_after (runActiveThread ent m) = Some m' -> monitor_inv (state m').
Proof.
  intros H. unfold runActiveThread.
  destruct (activeThreadState (state m)) as [thread0|]; [|by intros [= <-]].
  assert (forall ti mm, monitor_inv (state mm) ->
            monitor_inv (state (upd_state (retireThread ti) mm))) as Hret.
  { intros ti mm Hmm. cbn [state upd_state set_state]. by apply inv_retireThread. }
  assert (monitor_inv (state (upd_state (upd_thread (activeThread (state m))
                                           (set_t_status RUNNING)) m))) as H1.
  { cbn [state upd_state set_state]. by apply inv_upd_thread. }
  destruct (t_stack thread0) as [|frame rest].
  { unfold returning. cbn [simulator_after]. intros [= <-]. by apply Hret. }
  cbn zeta. destruct (fetch _ _) as [instruction|].
  2:{ unfold returning. cbn [simulator_after]. intros [= <-]. by apply Hret. }
  match goal with
  | |- context [executeInstruction ?a ?b ?c ?d ?e] =>
      assert (monitor_inv (state e)) as H2
        by (cbn [state upd_state set_state]; by apply inv_set_status);
      pose proof (inv_executeInstruction a b c d e H2) as Hs;
      destruct (executeInstruction a b c d e)
  end; cbn [outcome_inv] in Hs; unfold returning; cbn [simulator_after]; intros [= <-].
  - cbn [state upd_state set_state]. by apply inv_afterInstruction.
  - cbn [state upd_state set_state]. by apply inv_set_stack.
Qed.

Lemma inv_step ent m m' :
  monitor_inv (state m) ->
  simulator_after (step ent m) = Some m' -> monitor_inv (state m').
Proof.
  intros H. unfold step.
  destruct (is_finished (state m)); [unfold returning; by intros [= <-]|].
  assert (monitor_inv (state (upd_state tickThreads (saveHistory m)))) as H1.
  { cbn [state upd_state set_state saveHistory set_history]. by apply inv_tickThreads. }
  destruct (schedulable_now _); [by apply inv_runActiveThread|].
  assert (monitor_inv (state (upd_state rotateThread (upd_state tickThreads (saveHistory m)))))
    as H2.
  { cbn [state upd_state set_state] in *. by apply inv_rotateThread. }
  destruct (schedulable_now _); [by apply inv_runActiveThread|].
  destruct (_ || _); unfold returning; cbn [simulator_after]; intros [= <-];
    cbn [state upd_state set_state] in *.
  - by apply inv_set_status.
  - by apply inv_tickThreads, inv_set_stepNumber.
Qed.

End Invariant.



Section Reachable.
Context {host : JsHost} {lib : DataStdlib}.


End Reachable.


(** ** MONITORENTER on a monitor held by another thread *)

Lemma truthy_id_Some s : s <> "" -> truthy_id (Some s) = Some s.
Proof. intros H. unfold truthy_id. by rewrite decide_False. Qed.


Lemma upd_top_same fr frames : upd_top (fun _ => fr) (fr :: frames) = fr :: frames.
Proof. reflexivity. Qed.


(** ** DIV and MOD *)


(** ** Thread.sleep and the tick phase *)





(** ** hashCode *)

(** C2. A [hashCode()] call with no argument on a receiver never reaches
    the String fold: it pops the receiver and pushes
    [floor(random * 100000)] as an int.  On the string "a", whose fold is
    97, two calls whose random draws are 0.5 and 0.25 push 50000 and
    25000. *)
Theorem hashCode_call_pushes_random_number :
  (forall (host : JsHost) (lib : DataStdlib) (ti : nat) (fr : StackFrame)
          (classOp : option string) (ent : HostEntropy) (m : Simulator),
      invokeMethod ti fr OpCode.INVOKE_VIRTUAL "hashCode" "(0)" classOp ent m
      = Normal
          (commit ti
             (advance
                (push (createPrimitiveValue TInt
                         (PNum (Js.Math_floor (PrimFloat.mul (ent_random ent) (Js.Z2F 100000)))))
                   (pop fr).2)) m)
          "hashCode()")
  /\ java_hash "a" = 97
  /\ String_hashCode "a" = 97
  /\ stackAfter 0 (@executeInstruction exampleHost silentStdlib 0 hashCodeCall
                     (frameHolding "a") (entropyWith 0.5%float) helloSimulator)
     = Some [Primitive TInt (PNum 50000%float)]
  /\ stackAfter 0 (@executeInstruction exampleHost silentStdlib 0 hashCodeCall
                     (frameHolding "a") (entropyWith 0.25%float) helloSimulator)
     = Some [Primitive TInt (PNum 25000%float)].
Proof.
  split.
  - intros. unfold invokeMethod.
    replace (numArgsOf "(0)") with 0%nat by (vm_compute; reflexivity).
    cbn [bool_decide decide_rel andb negb].
    rewrite bool_decide_eq_false_2 by done.
    rewrite !bool_decide_eq_true_2 by done.
    cbn [andb negb]. by destruct (pop fr).
  - evaluate.
Qed.



(** ** The main class *)

Lemma scanMethods_spec cls methods acc :
  scanMethods cls methods acc
  = if existsb is_main_method methods then cc_name cls else acc.
Proof.
  induction methods as [|mth rest IH]; [done|]. cbn.
  destruct (is_main_method mth); [done|]. by rewrite IH.
Qed.

(** The search returns the name of the last class that has a main method,
    and the initial value when there is none. *)
Lemma findMainClass_spec cs acc :
  findMainClass cs acc = default acc (cc_name <$> last (filter (fun c => has_main c = true) cs)).
Proof.
  unfold findMainClass. revert acc.
  induction cs as [|c cs IH] using rev_ind; intros acc; [done|].
  rewrite fold_left_app. cbn [fold_left]. rewrite scanMethods_spec, IH.
  rewrite filter_app. fold (has_main c).
  destruct (has_main c) eqn:Hc.
  - rewrite filter_cons_True by done. rewrite filter_nil.
    by rewrite last_snoc.
  - rewrite filter_cons_False by (by rewrite Hc).
    by rewrite filter_nil, app_nil_r.
Qed.

Section MainClassField.
Context {gen : CodeGenerator}.

Lemma compileMethod_mainClass node cn c :
  bc_mainClass (compileMethod node cn c).2 = bc_mainClass c.
Proof. reflexivity. Qed.

Lemma compileConstructor_mainClass node cn c :
  bc_mainClass (compileConstructor node cn c).2 = bc_mainClass c.
Proof. reflexivity. Qed.

Lemma compileDefaultMethod_mainClass node cn c :
  bc_mainClass (compileDefaultMethod node cn c).2 = bc_mainClass c.
Proof. reflexivity. Qed.

Lemma compileClass_mainClass node c :
  bc_mainClass (compileClass node c) = bc_mainClass c.
Proof.
  unfold compileClass.
  match goal with |- context [fold_left ?f _ _] => set (body := f) end.
  assert (H : forall ms acc, bc_mainClass (fold_left body ms acc).2 = bc_mainClass acc.2).
  { induction ms as [|mb ms IH]; intros [[fs mths] c0]; [done|].
    cbn [fold_left]. rewrite IH. by destruct mb. }
  specialize (H (cls_members node) ([], [], c)).
  destruct (fold_left body _ _) as [[fs mths] c1]. exact H.
Qed.

Lemma compileInterface_mainClass node c :
  bc_mainClass (compileInterface node c) = bc_mainClass c.
Proof.
  unfold compileInterface.
  match goal with |- context [fold_left ?f _ _] => set (body := f) end.
  assert (H : forall ms acc, bc_mainClass (fold_left body ms acc).2 = bc_mainClass acc.2).
  { induction ms as [|mb ms IH]; intros [[fs mths] c0]; [done|].
    cbn [fold_left]. rewrite IH. by destruct mb. }
  specialize (H (itf_members node) ([], [], c)).
  destruct (fold_left body _ _) as [[fs mths] c1]. exact H.
Qed.

(** The first pass never assigns [mainClass]. *)
Lemma compile_pass_mainClass ds c :
  bc_mainClass
    (fold_left (fun c decl => match decl with
                              | D_Class k => compileClass k c
                              | D_Interface i => compileInterface i c
                              end) ds c)
  = bc_mainClass c.
Proof.
  revert c. induction ds as [|d ds IH]; intros c; [done|].
  cbn [fold_left]. rewrite IH.
  destruct d; [apply compileClass_mainClass | apply compileInterface_mainClass].
Qed.

End MainClassField.

(** C6. [compile] sets [mainClass] to the name of the LAST compiled class
    that has a method named main whose signature mentions [String[]]
    (the classes being in declaration order); for the program that
    declares [First] and then [Second], both with such a main, the main
    class is [Second]. *)
Theorem compile_mainClass_is_last_with_main :
  (forall (gen : CodeGenerator) (prog : Program),
      mainClass (compile prog)
      = default "" (cc_name <$> last (filter (fun c => has_main c = true)
                                        (classes (compile prog)))))
  /\ (forall gen : CodeGenerator,
        cc_name <$> classes (compile twoMains) = ["First"; "Second"]
        /\ has_main <$> classes (compile twoMains) = [true; true]
        /\ mainClass (compile twoMains) = "Second").
Proof.
  split.
  - intros. unfold compile. cbn [mainClass classes].
    by rewrite findMainClass_spec, compile_pass_mainClass.
  - intros gen. evaluate.
Qed.

(** ** Thread.interrupt *)

(** C7. [interrupt] never looks at its receiver: it sets the
    [interrupted] flag of the ACTIVE thread, the one that makes the call.
    In the run of the program whose main thread starts the worker
    [thread_1] and calls [interrupt()] on it, the call (the tenth step)
    sets the flag of [thread_main] and leaves that of [thread_1] false;
    no status changes. *)
Theorem interrupt_flags_the_calling_thread :
  (forall (host : JsHost) (lib : DataStdlib) (fr : StackFrame) (args : list Value)
          (className : string) (objRef : option Value) (ent : HostEntropy) (m : Simulator),
      threadFamily fr "interrupt" args className objRef ent m
      = Some (SHandled fr
                (match activeThreadState (state m) with
                 | Some _ =>
                     upd_state (upd_thread (activeThread (state m)) (set_t_interrupted true)) m
                 | None => m
                 end)
                "Thread.interrupt()"))
  /\ activeThread (state (exampleRun 9 interruptProgram)) = 0%nat
  /\ nextInstructionAt 0 (exampleRun 9 interruptProgram)
     = Some (instr (OpCode.INVOKE OpCode.INVOKE_VIRTUAL "interrupt" "(0)" None))
  /\ operandsAt 0 (exampleRun 9 interruptProgram) = Some [Reference (Some "obj_2")]
  /\ (t_id <$> threadAt 1 (exampleRun 9 interruptProgram)) = Some "thread_1"
  /\ (threadAt 1 (exampleRun 9 interruptProgram) ≫= t_objectId) = Some "obj_2"
  /\ interruptFlags (exampleRun 9 interruptProgram)
     = [("thread_main", false); ("thread_1", false)]
  /\ interruptFlags (exampleRun 10 interruptProgram)
     = [("thread_main", true); ("thread_1", false)]
  /\ threadStatuses (exampleRun 10 interruptProgram)
     = threadStatuses (exampleRun 9 interruptProgram).
Proof.
  split.
  - intros. unfold threadFamily.
    rewrite !bool_decide_eq_false_2 by done.
    rewrite bool_decide_eq_true_2 by done.
    reflexivity.
  - evaluate.
Qed.

(** ** PRINT *)

(** C9 as stated fails: in the run of the program that prints the result
    of a void call, the PRINT instruction (the third step) finds the
    operand stack empty.  It pops no value, prints the text null and
    advances [pc]. *)
Lemma print_on_empty_stack_pops_nothing :
  nextInstructionAt 0 (exampleRun 2 voidPrintProgram) = Some (instr (OpCode.PRINT (Some true)))
  /\ operandsAt 0 (exampleRun 2 voidPrintProgram) = Some []
  /\ output (state (exampleRun 2 voidPrintProgram)) = []
  /\ operandsAt 0 (exampleRun 3 voidPrintProgram) = Some []
  /\ (f_pc <$> topFrameAt 0 (exampleRun 3 voidPrintProgram)) = Some 2
  /\ output (state (exampleRun 3 voidPrintProgram)) = ["null"; ""].
Proof. evaluate. Qed.

(** C9. A PRINT instruction pops the top of the operand stack when there
    is one and nothing when the stack is empty; the text is that of the
    popped value, or null when nothing was popped.  The text is appended
    to the last line of the output (to a fresh empty line when there is
    none), a new empty line follows for println, and the earlier lines
    stay; [pc] advances.  The compiler lowers an argument-less
    [System.out.println()] to a push of the empty string followed by
    PRINT. *)
Theorem print_pops_top_if_any_and_appends :
  (forall (host : JsHost) (lib : DataStdlib) (ti : nat) (line : Z) (cmt : option string)
          (isPrintln : option bool) (frame : StackFrame) (ent : HostEntropy) (m : Simulator),
      exists m',
        executeInstruction ti (mkInstruction (OpCode.PRINT isPrintln) line cmt) frame ent m
        = Normal m' ("Print: " ++ printedText frame)
        /\ output (state m')
           = (removelast (output (state m))
              ++ [(List.last (output (state m)) "" ++ printedText frame)%string]
              ++ (if default true isPrintln then [""] else []))%list
        /\ threads (state m')
           = threads (put_frame ti
                        (advance (set_f_operandStack (tail (f_operandStack frame)) frame))
                        (state m))
        /\ monitors (state m') = monitors (state m)
        /\ status (state m') = status (state m))
  /\ (forall (gen : CodeGenerator) (l1 l2 l3 line : Z) (ctx : CompilerContext),
        compileCallExpression
          (MemberExpression (MemberExpression (IdentifierExpression "System" l1) "out" l2)
             "println" l3) [] line ctx
        = emit (createInstruction (OpCode.PRINT (Some true)) line (Some "System.out.println"))
            (emit (createInstruction (OpCode.LOAD_CONST (OpString "")) line None) ctx)).
Proof.
  split.
  - intros. unfold executeInstruction. cbn [opcode]. unfold pop, printedText.
    destruct frame as [? ? ? ? ? ops ? ? ?]. cbn [f_operandStack].
    destruct ops as [|v ops]; cbn [head tail]; eexists; (split; [reflexivity|]);
      cbn [state commit upd_state set_state put_frame upd_thread set_threads set_output
           output threads monitors status];
      (destruct (output (state m)) as [|o os] eqn:Ho;
       [|rewrite <- Ho; assert (Hne : output (state m) <> []) by (by rewrite Ho);
         destruct (output (state m)); [done|]]);
      destruct (default true isPrintln); cbn; rewrite ?app_nil_r, <- ?app_assoc;
      repeat split; reflexivity.
  - intros. reflexivity.
Qed.


(** The theorem at the first step of the hello program. *)
Lemma step_stepBack_restores_snapshot_witness :
  simulator_after (@step exampleHost silentStdlib exampleEntropy helloSimulator)
  = Some helloAfterStep
  /\ er_state (stepBack helloAfterStep).2 = getState helloSimulator
  /\ er_instruction (stepBack helloAfterStep).2 = None
  /\ state (stepBack helloAfterStep).1 = getState helloSimulator
  /\ history (stepBack helloAfterStep).1 =
       (if (maxHistory helloSimulator <=? length (history helloSimulator))%nat
        then tail (history helloSimulator) else history helloSimulator)
  /\ nextObjectId (stepBack helloAfterStep).1 = nextObjectId helloAfterStep.
Proof.
  split; [vm_compute; reflexivity|].
  apply (@step_stepBack_restores_snapshot exampleHost silentStdlib exampleEntropy
           helloSimulator helloAfterStep).
  - vm_compute. discriminate.
  - vm_compute. discriminate.
  - vm_compute. reflexivity.
Defined.




(** Evaluations of DIV and MOD: -7 / 2 is -3, 7 / 0 and 7 % 0 are 0. *)
Lemma div_mod_examples :
  @arithResult exampleHost OpCode.DIV TInt TInt (PNum (Js.Z2F (-7))) (PNum (Js.Z2F 2)) = PNum (Js.Z2F (-3))
  /\ @arithResult exampleHost OpCode.DIV TInt TInt (PNum (Js.Z2F 7)) (PNum (Js.Z2F 2)) = PNum (Js.Z2F 3)
  /\ @arithResult exampleHost OpCode.DIV TInt TInt (PNum (Js.Z2F 7)) (PNum (Js.Z2F 0)) = PNum (Js.Z2F 0)
  /\ @arithResult exampleHost OpCode.MOD TInt TInt (PNum (Js.Z2F 7)) (PNum (Js.Z2F 0)) = PNum (Js.Z2F 0)
  /\ @arithResult exampleHost OpCode.DIV TDouble TDouble (PNum (Js.Z2F 7)) (PNum (Js.Z2F 0)) = PNum (Js.Z2F 0)
  /\ @arithResult exampleHost OpCode.DIV TDouble TDouble (PNum (Js.Z2F 7)) (PNum (Js.Z2F 2)) = PNum 3.5%float.
Proof. evaluate. Qed.


(** The deadline of that example: step 1 plus round(120 / 50) = 2 steps. *)
Lemma sleep_deadline_example :
  PrimFloat.add (Js.Z2F 1)
    (Js.Math_max PrimFloat.one
       (Js.Math_round (PrimFloat.div (@ToNumber exampleHost (PNum (Js.Z2F 120))) (Js.Z2F 50))))
  = Js.Z2F 3.
Proof. vm_compute. reflexivity. Qed.

(** ** Everything the public methods reach *)




Lemma shell_initialize fid m0 : shell (initialize fid m0) = shell m0.
Proof.
  unfold initialize. case_bool_decide; [done|].
  destruct (allocateArray _ _ _) as [argsArrayId m2] eqn:E.
  apply shell_allocateArray in E. cbn in E. unfold shell in *. cbn. exact E.
Qed.

Lemma history_newSimulator fid p : history (newSimulator fid p) = [].
Proof.
  unfold newSimulator.
  pose proof (shell_initialize fid
                {| program := p; state := createInitialJVMState; history := [];
                   maxHistory := 500; nextObjectId := 1 |}) as [= _ H _].
  exact H.
Qed.

Lemma history_reset fid m : history (reset fid m) = [].
Proof.
  unfold reset.
  pose proof (shell_initialize fid
                (set_nextObjectId 1 (set_state createInitialJVMState (set_history [] m))))
    as [= _ H _].
  exact H.
Qed.

Lemma Forall_removelast {A} (P : A -> Prop) (l : list A) :
  Forall P l -> Forall P (removelast l).
Proof.
  induction 1 as [|x l Hx Hl IH]; [constructor|].
  cbn. destruct l; [constructor|]. by constructor.
Qed.

Lemma Forall_last {A} (P : A -> Prop) (l : list A) x :
  Forall P l -> last l = Some x -> P x.
Proof.
  intros H Hl. apply last_Some in Hl as [l' ->].
  by apply Forall_app in H as [_ ?%Forall_inv].
Qed.

Lemma Forall_tail {A} (P : A -> Prop) (l : list A) : Forall P l -> Forall P (tail l).
Proof. by destruct 1. Qed.

(** The history after [saveHistory] holds old entries and one snapshot. *)
Lemma Forall_saveHistory (P : JVMState -> Prop) m :
  Forall P (history m) -> P (cloneState m) -> Forall P (history (saveHistory m)).
Proof.
  intros H Hc. unfold saveHistory. cbn [history set_history].
  apply Forall_app. split; [|by constructor].
  destruct (_ <=? _)%nat; [by apply Forall_tail|done].
Qed.

Section Api.
Context {host : JsHost} {lib : DataStdlib}.

(** What [step] keeps of a property [P] of states that snapshots share:
    the history stays within [P]. *)
Lemma step_history (P : JVMState -> Prop) ent m m' :
  (forall s, P s -> P (clone_JVMState s)) ->
  P (state m) -> Forall P (history m) ->
  simulator_after (step ent m) = Some m' -> Forall P (history m').
Proof.
  intros Hclone Hs Hh Hstep.
  destruct (is_finished (state m)) eqn:Hfin.
  - unfold step in Hstep. rewrite Hfin in Hstep. unfold returning in Hstep.
    by injection Hstep as <-.
  - apply (shell_step ent m m' Hfin) in Hstep. injection Hstep as _ -> _.
    apply Forall_saveHistory; [done|]. by apply Hclone.
Qed.


End Api.


Lemma api_run_steps {host : JsHost} {lib : DataStdlib} ent n m :
  api_reachable m -> api_reachable (run_steps ent n m).
Proof.
  revert m. induction n as [|n IH]; intros m Hm; [done|].
  cbn [run_steps]. apply IH.
  destruct (simulator_after (step ent m)) as [m'|] eqn:E; [|done].
  by eapply api_step.
Qed.


(** ** The history never outgrows its capacity *)

Lemma length_saveHistory m :
  (0 < maxHistory m)%nat -> (length (history m) <= maxHistory m)%nat ->
  (length (history (saveHistory m)) <= maxHistory m)%nat.
Proof.
  intros Hpos Hle. unfold saveHistory. cbn [history set_history].
  rewrite length_app. cbn [length].
  destruct (_ <=? _)%nat eqn:E.
  - apply Nat.leb_le in E. destruct (history m); cbn in *; lia.
  - apply Nat.leb_gt in E. lia.
Qed.

Lemma length_removelast {A} (l : list A) : (length (removelast l) <= length l)%nat.
Proof. induction l as [|x [|y l] IH]; cbn in *; lia. Qed.

(** X2. In every simulator the public methods reach, the capacity of the
    history is 500 and the history holds at most 500 snapshots; a further
    [step] drops the oldest snapshot instead of growing it. *)
Theorem history_bounded {host : JsHost} {lib : DataStdlib} (m : Simulator) :
  api_reachable m ->
  maxHistory m = 500%nat
  /\ (length (history m) <= 500)%nat
  /\ (length (history (saveHistory m)) <= 500)%nat
  /\ (length (history m) = 500%nat ->
      history (saveHistory m) = (tail (history m) ++ [cloneState m])%list).
Proof.
  intros H.
  assert (Hb : maxHistory m = 500%nat /\ (length (history m) <= 500)%nat).
  { induction H as [fid p|ent m m' _ [IHm IHh] Hstep|m _ [IHm IHh]|fid m _ [IHm IHh]].
    - split; [|by rewrite history_newSimulator; cbn; lia].
      pose proof (shell_initialize fid
                    {| program := p; state := createInitialJVMState; history := [];
                       maxHistory := 500; nextObjectId := 1 |}) as [= _ _ Hm].
      exact Hm.
    - destruct (is_finished (state m)) eqn:Hfin.
      + unfold step in Hstep. rewrite Hfin in Hstep. unfold returning in Hstep.
        by injection Hstep as <-.
      + apply (shell_step ent m m' Hfin) in Hstep. injection Hstep as _ Hh Hm.
        cbn in Hm. rewrite Hm, Hh. split; [done|].
        rewrite <- IHm. apply length_saveHistory; lia.
    - unfold stepBack. destruct (last (history m)); cbn [fst maxHistory history]; [|done].
      cbn. split; [done|]. pose proof (length_removelast (history m)). lia.
    - split; [|by rewrite history_reset; cbn; lia].
      unfold reset.
      pose proof (shell_initialize fid
                    (set_nextObjectId 1 (set_state createInitialJVMState (set_history [] m))))
        as [= _ _ Hm].
      rewrite Hm. exact IHm. }
  destruct Hb as [Hm Hh]. split; [done|]. split; [done|]. split.
  - rewrite <- Hm. apply length_saveHistory; lia.
  - intros Hfull. unfold saveHistory. rewrite Hm, Hfull. reflexivity.
Qed.

(** ** The step counter and the status *)

Lemma core_releaseMonitor o T s : core (releaseMonitor o T s) = core s.
Proof. unfold releaseMonitor. by repeat case_match. Qed.

Lemma core_rotateThread s : core (rotateThread s) = core s.
Proof. unfold rotateThread. by repeat case_match. Qed.

Lemma core_acquireMonitor o T s s1 b : acquireMonitor o T s = (s1, b) -> core s1 = core s.
Proof. unfold acquireMonitor. repeat case_match; by intros [= <- _]. Qed.

Lemma core_tickThreads s : core (tickThreads s) = core s.
Proof. reflexivity. Qed.

Lemma core_upd_thread i g s : core (upd_thread i g s) = core s.
Proof. reflexivity. Qed.

Lemma core_put_frame i fr s : core (put_frame i fr s) = core s.
Proof. reflexivity. Qed.

Lemma quiet_allocateObject c m id m' : allocateObject c m = (id, m') -> quiet m m'.
Proof. by intros [= _ <-]. Qed.

Lemma quiet_allocateArray ty l m id m' : allocateArray ty l m = (id, m') -> quiet m m'.
Proof. by intros [= _ <-]. Qed.

Lemma quiet_allocateLambda i m id m' : allocateLambda i m = (id, m') -> quiet m m'.
Proof. by intros [= _ <-]. Qed.

Ltac quiet_step :=
  match goal with
  | H : allocateObject _ _ = (_, _) |- _ => apply quiet_allocateObject in H; unfold quiet in H
  | H : allocateArray _ _ _ = (_, _) |- _ => apply quiet_allocateArray in H; unfold quiet in H
  | H : allocateLambda _ _ = (_, _) |- _ => apply quiet_allocateLambda in H; unfold quiet in H
  | H : acquireMonitor _ _ _ = (_, _) |- _ => apply core_acquireMonitor in H
  end.

Ltac quiet_solve :=
  unfold quiet;
  cbn [state commit set_state upd_state upd_object set_nextObjectId push_heap fst snd];
  rewrite ?core_put_frame, ?core_upd_thread, ?core_releaseMonitor, ?core_rotateThread,
    ?core_put_frame, ?core_upd_thread;
  try done; try (simpl; congruence).

Section Quiet.
Context {host : JsHost} {lib : DataStdlib}.

Lemma quiet_Thread_start fr cn objRef ent m :
  stdlib_quiet m (Thread_start fr cn objRef ent m).
Proof.
  unfold Thread_start.
  repeat (case_match; simplify_eq); simpl; done.
Qed.

Lemma quiet_threadFamily fr mn args cn objRef ent m r :
  threadFamily fr mn args cn objRef ent m = Some r -> stdlib_quiet m r.
Proof.
  unfold threadFamily. intros H.
  repeat (case_match; simplify_eq; try apply quiet_Thread_start);
    cbn [stdlib_quiet]; quiet_solve.
Qed.

Lemma quiet_run_family fam fr mn args st cn objRef ent m fr' m' v :
  run_family fam fr mn args st cn objRef ent m = (fr', m', v) -> quiet m m'.
Proof. unfold run_family. case_match. by intros [= _ <- _]. Qed.

Lemma stdlib_quiet_trans m m1 r :
  quiet m m1 -> stdlib_quiet m1 r -> stdlib_quiet m r.
Proof. unfold quiet. intros E. destruct r; simpl; unfold quiet; congruence. Qed.

Lemma quiet_invokeStdlib fr mn args st cn objRef ent m :
  stdlib_quiet m (invokeStdlib fr mn args st cn objRef ent m).
Proof.
  unfold invokeStdlib.
  destruct (_ && _); [done|].
  destruct (run_family earlyFamilies _ _ _ _ _ _ _ _) as [[fr1 m1] v] eqn:E1.
  apply quiet_run_family in E1.
  destruct v; simpl; try done.
  destruct (isThreadClass _ _ _) as [isThread|]; [|done].
  destruct (if isThread then _ else _) as [r|] eqn:Et.
  - destruct isThread; [|done].
    apply quiet_threadFamily in Et. by eapply stdlib_quiet_trans.
  - destruct (run_family lateFamilies _ _ _ _ _ _ _ _) as [[fr2 m2] v2] eqn:E2.
    apply quiet_run_family in E2. unfold quiet in *.
    destruct v2; simpl; unfold quiet; congruence.
Qed.

Lemma quiet_invokeMethod ti fr kind mn d cop ent m :
  outcome_all_quiet m (invokeMethod ti fr kind mn d cop ent m).
Proof.
  unfold invokeMethod.
  repeat (case_match; simplify_eq); cbn [outcome_all_quiet]; try (quiet_solve; fail);
    match goal with
    | H : invokeStdlib ?a ?b ?c ?d ?e ?f ?g ?h = _ |- _ =>
        pose proof (quiet_invokeStdlib a b c d e f g h) as Hs; rewrite H in Hs;
        cbn [stdlib_quiet] in Hs; unfold quiet in Hs
    end; quiet_solve.
Qed.

Lemma quiet_executeInstruction ti instr frame ent m :
  outcome_quiet m (executeInstruction ti instr frame ent m)
  /\ (opcode instr <> OpCode.THROW ->
      outcome_all_quiet m (executeInstruction ti instr frame ent m)).
Proof.
  assert (Hw : forall o, outcome_all_quiet m o -> outcome_quiet m o).
  { intros [m'| |]; cbn; try done. unfold quiet, core. by intros [= -> _ _]. }
  unfold executeInstruction.
  destruct (opcode instr) eqn:Eop.
  all: try (split; [apply Hw|intros _]; apply quiet_invokeMethod).
  all: try (split; [apply Hw|intros _];
            repeat (case_match; simplify_eq); cbn [outcome_all_quiet];
            repeat quiet_step; quiet_solve; fail).
  split; [|done]. by repeat (case_match; simplify_eq).
Qed.

End Quiet.

Lemma core_releaseAllMonitors i s : core (releaseAllMonitors i s) = core s.
Proof.
  unfold releaseAllMonitors. destruct (threads s !! i) as [thread|]; [|done].
  rewrite core_upd_thread.
  generalize (t_holdingMonitors thread) as l. intros l. revert s.
  induction l as [|o l IH]; intros s; [done|].
  cbn [fold_left]. by rewrite IH, core_releaseMonitor.
Qed.

Lemma settledStatus_cases s : settledStatus s = st_completed \/ settledStatus s = st_paused.
Proof. unfold settledStatus. destruct (allTerminated s); auto. Qed.

Lemma stepNumber_retireThread ti s : stepNumber (retireThread ti s) = stepNumber s + 1.
Proof.
  unfold retireThread. cbn [stepNumber set_status set_stepNumber syncStack set_stack].
  pose proof (core_rotateThread (releaseAllMonitors ti (upd_thread ti (set_t_status TERMINATED) s)))
    as Hc.
  rewrite core_releaseAllMonitors, core_upd_thread in Hc. by injection Hc as -> _ _.
Qed.

Lemma status_retireThread ti s :
  status (retireThread ti s) = st_completed \/ status (retireThread ti s) = st_paused.
Proof. unfold retireThread. cbn [status set_status]. apply settledStatus_cases. Qed.

Lemma afterInstruction_facts ti s :
  stepNumber (afterInstruction ti s) = stepNumber s + 1
  /\ (status (afterInstruction ti s) = st_completed
      \/ status (afterInstruction ti s) = st_paused).
Proof.
  unfold afterInstruction.
  set (s2 := upd_thread ti _ (set_stepNumber _ s)).
  set (s3 := match threads s2 !! ti with Some _ => _ | None => _ end).
  assert (Hc : core s3 = core s2).
  { subst s3. repeat case_match; rewrite ?core_releaseAllMonitors, ?core_upd_thread; done. }
  pose proof (core_rotateThread s3) as Hr. rewrite Hc in Hr.
  assert (Hn : stepNumber (rotateThread s3) = stepNumber s + 1) by (by injection Hr as -> _ _).
  split.
  - case_match; cbn [stepNumber set_pc set_status syncStack set_stack]; exact Hn.
  - case_match; cbn [status set_pc set_status]; apply settledStatus_cases.
Qed.

Section StepFacts.
Context {host : JsHost} {lib : DataStdlib}.

(** How [step] ends once a schedulable thread runs: the counter advances by
    one when it returns, and the status is never the error status. *)
Lemma runActiveThread_facts ent m :
  status (state m) <> st_error ->
  match runActiveThread ent m with
  | StepReturns m' r =>
      stepNumber (state m') = stepNumber (state m) + 1
      /\ (status (state m') = st_completed \/ status (state m') = st_paused)
      /\ er_state r = getState m'
  | StepThrows m' =>
      stepNumber (state m') = stepNumber (state m) /\ status (state m') <> st_error
  | StepDiverges => True
  end.
Proof.
  intros Hok. unfold runActiveThread.
  destruct (activeThreadState (state m)) as [thread0|]; [|done].
  destruct (t_stack thread0) as [|frame rest].
  { unfold returning. cbn [state upd_state set_state].
    split; [by rewrite stepNumber_retireThread|]. split; [apply status_retireThread|done]. }
  cbn zeta. destruct (fetch _ _) as [instruction|].
  2:{ unfold returning. cbn [state upd_state set_state].
      split; [by rewrite stepNumber_retireThread|]. split; [apply status_retireThread|done]. }
  match goal with
  | |- context [executeInstruction ?a ?b ?c ?d ?e] =>
      pose proof (proj1 (quiet_executeInstruction a b c d e)) as Hs;
      destruct (executeInstruction a b c d e) as [m3 d3|m3|]
  end; cbn [outcome_quiet] in Hs; [| |done].
  - unfold returning. cbn [state upd_state set_state] in *.
    destruct (afterInstruction_facts (activeThread (state m)) (state m3)) as [Hn Hst].
    split; [by rewrite Hn, Hs|]. done.
  - unfold quiet, core in Hs. cbn [state upd_state set_state] in *.
    injection Hs as Hn Hst _. cbn. by rewrite Hn, Hst.
Qed.

Lemma schedulable_not_terminated s :
  schedulable_now s = true -> allTerminated s = false.
Proof.
  unfold schedulable_now, allTerminated, activeThreadState.
  destruct (threads s !! activeThread s) as [t|] eqn:Et; [|done].
  intros Hs. apply not_true_is_false. intros Hall.
  rewrite forallb_forall in Hall.
  specialize (Hall t (proj1 (list_elem_of_In _ _) (list_elem_of_lookup_2 _ _ _ Et))).
  apply bool_decide_eq_true in Hall. unfold is_schedulable in Hs. rewrite Hall in Hs.
  done.
Qed.


End StepFacts.


(** ** The error status is never reported *)

Lemma status_saved m : status (cloneState m) = status (state m).
Proof. reflexivity. Qed.

Lemma core_loadClasses p cs s :
  core (fold_left (fun acc cls => loadClass p cls acc) cs s) = core s.
Proof. revert s. induction cs as [|c cs IH]; intros s; [done|]. cbn [fold_left]. by rewrite IH. Qed.

Lemma status_initialize fid m0 :
  status (state m0) = st_idle ->
  status (state (initialize fid m0)) = st_idle \/ status (state (initialize fid m0)) = st_paused.
Proof.
  intros H0. unfold initialize. case_bool_decide.
  - left. cbn [state upd_state set_state].
    pose proof (core_loadClasses (program m0) (classes (program m0)) (state m0)) as [= _ Hst _].
    by rewrite Hst.
  - right. by destruct (allocateArray _ _ _).
Qed.

Section NeverError.
Context {host : JsHost} {lib : DataStdlib}.

Lemma step_status ent m m' :
  status (state m) <> st_error ->
  simulator_after (step ent m) = Some m' -> status (state m') <> st_error.
Proof.
  intros Hok. unfold step.
  destruct (is_finished (state m)); [unfold returning; by intros [= <-]|].
  assert (Hrun : forall m0, status (state m0) <> st_error ->
            simulator_after (runActiveThread ent m0) = Some m' ->
            status (state m') <> st_error).
  { intros m0 Hok0 E. pose proof (runActiveThread_facts ent m0 Hok0) as Hf.
    destruct (runActiveThread ent m0) as [m1 r| m1|]; cbn in E; simplify_eq.
    - destruct Hf as (_ & [-> | ->] & _); done.
    - by destruct Hf. }
  destruct (schedulable_now _); [by apply Hrun|].
  destruct (schedulable_now _).
  { apply Hrun. cbn [state upd_state set_state saveHistory set_history].
    pose proof (core_rotateThread (tickThreads (state m))) as [= _ Hst _].
    by rewrite Hst. }
  destruct (_ || _); unfold returning; cbn [simulator_after]; intros [= <-];
    cbn [state upd_state set_state saveHistory set_history]; [done|].
  pose proof (core_rotateThread (tickThreads (state m))) as [= _ Hst _].
  cbn in Hst. cbn. by rewrite Hst.
Qed.

Lemma api_not_error m :
  api_reachable m ->
  status (state m) <> st_error /\ Forall (fun s => status s <> st_error) (history m).
Proof.
  induction 1 as [fid p|ent m m' _ [IHs IHh] Hstep|m _ [IHs IHh]|fid m _ _].
  - split; [|rewrite history_newSimulator; constructor].
    unfold newSimulator.
    by destruct (status_initialize fid
                   {| program := p; state := createInitialJVMState; history := [];
                      maxHistory := 500; nextObjectId := 1 |} eq_refl) as [-> | ->].
  - split; [by eapply step_status|].
    by apply (step_history (fun s => status s <> st_error) ent m m').
  - unfold stepBack. destruct (last (history m)) as [snap|] eqn:El; cbn [fst state history].
    + split; [by eapply (Forall_last (fun s => status s <> st_error))|].
      cbn. by apply Forall_removelast.
    + done.
  - split; [|rewrite history_reset; constructor].
    unfold reset.
    by destruct (status_initialize fid
                   (set_nextObjectId 1 (set_state createInitialJVMState (set_history [] m)))
                   eq_refl) as [-> | ->].
Qed.

End NeverError.

(** X4. No sequence of calls of [step], [stepBack] and [reset] leaves the
    simulator in the error status: the status a THROW instruction sets is
    overwritten before [step] returns.  So a simulator is finished exactly
    when its status is completed. *)
Theorem status_is_never_error {host : JsHost} {lib : DataStdlib} (m : Simulator) :
  api_reachable m ->
  status (state m) <> st_error
  /\ (is_finished (state m) = true <-> status (state m) = st_completed).
Proof.
  intros H. destruct (api_not_error m H) as [Hok _]. split; [done|].
  unfold is_finished. rewrite orb_true_iff, !bool_decide_eq_true.
  split; [intros [?|?]; [done|contradiction]|by left].
Qed.

(** The theorem at [thrownSimulator]: the error text is recorded, the
    status is paused, and the next instruction is the same THROW. *)
Lemma status_is_never_error_witness :
  error (state thrownSimulator) = Some "RuntimeException: RuntimeException"
  /\ status (state thrownSimulator) = st_paused
  /\ nextInstructionAt 0 thrownSimulator = Some (instr OpCode.THROW)
  /\ @api_reachable exampleHost silentStdlib thrownSimulator
  /\ status (state thrownSimulator) <> st_error
  /\ (is_finished (state thrownSimulator) = true
      <-> status (state thrownSimulator) = st_completed).
Proof.
  split; [vm_compute; reflexivity|].
  split; [vm_compute; reflexivity|].
  split; [vm_compute; reflexivity|].
  assert (Hr : @api_reachable exampleHost silentStdlib thrownSimulator)
    by apply api_run_steps, api_new.
  split; [exact Hr|].
  apply (@status_is_never_error exampleHost silentStdlib thrownSimulator Hr).
Defined.

(** The theorem at [longRun], whose history is full. *)
Lemma history_bounded_witness :
  stepNumber (state longRun) = 600
  /\ length (history longRun) = 500%nat
  /\ @api_reachable exampleHost silentStdlib longRun
  /\ maxHistory longRun = 500%nat
  /\ (length (history longRun) <= 500)%nat
  /\ (length (history (saveHistory longRun)) <= 500)%nat
  /\ (length (history longRun) = 500%nat ->
      history (saveHistory longRun) = (tail (history longRun) ++ [cloneState longRun])%list).
Proof.
  split; [vm_compute; reflexivity|].
  split; [vm_compute; reflexivity|].
  assert (Hr : @api_reachable exampleHost silentStdlib longRun)
    by apply api_run_steps, api_new.
  split; [exact Hr|].
  apply (@history_bounded exampleHost silentStdlib longRun Hr).
Defined.

(** ** canStepForward and step *)

Lemma tick_thread_terminated n all t :
  t_status t = TERMINATED -> tick_thread n all t = t.
Proof.
  intros Hs. unfold tick_thread.
  assert (H1 : match t_sleepUntilStep t with
               | Some d =>
                   if bool_decide (t_status t = TIMED_WAITING) && deadline_reached n d
                   then set_t_sleepUntilStep None (set_t_status RUNNABLE t) else t
               | None => t
               end = t).
  { destruct (t_sleepUntilStep t); [|done]. rewrite Hs.
    by rewrite bool_decide_eq_false_2. }
  rewrite H1. destruct (truthy_id _); [|done]. rewrite Hs.
  by rewrite bool_decide_eq_false_2.
Qed.

Lemma tick_fold_fixed n l ts :
  Forall (fun t => t_status t = TERMINATED) ts ->
  fold_left (fun ts i => alter (tick_thread n ts) i ts) l ts = ts.
Proof.
  intros Hall. induction l as [|i l IH]; [done|]. cbn [fold_left].
  destruct (ts !! i) as [t|] eqn:Ei.
  - rewrite (alter_fixed _ i ts t Ei); [done|].
    apply tick_thread_terminated.
    exact (Forall_lookup_1 (fun t => t_status t = TERMINATED) ts i t Hall Ei).
  - replace (alter (tick_thread n ts) i ts) with ts; [done|].
    apply list_eq. intros j. destruct (decide (j = i)) as [->|Hne].
    + by rewrite list_lookup_alter_eq, Ei.
    + by rewrite list_lookup_alter_ne.
Qed.

Lemma set_threads_same s : set_threads (threads s) s = s.
Proof. by destruct s. Qed.

Lemma tickThreads_terminated s :
  Forall (fun t => t_status t = TERMINATED) (threads s) -> tickThreads s = s.
Proof.
  intros H. unfold tickThreads. rewrite tick_fold_fixed by done. apply set_threads_same.
Qed.

Lemma terminated_not_schedulable t : t_status t = TERMINATED -> is_schedulable t = false.
Proof. intros H. unfold is_schedulable. by rewrite H. Qed.

Lemma rotateThread_terminated s :
  Forall (fun t => t_status t = TERMINATED) (threads s) -> rotateThread s = s.
Proof.
  intros Hall. unfold rotateThread. destruct (_ <=? _)%nat; [done|].
  destruct (find _ _) as [i|] eqn:Ef; [|done].
  apply find_some in Ef as [_ Hs].
  destruct (threads s !! _) as [t|] eqn:Et; [|done].
  rewrite terminated_not_schedulable in Hs; [done|].
  exact (Forall_lookup_1 (fun t => t_status t = TERMINATED) _ _ t Hall Et).
Qed.

Lemma allTerminated_Forall s :
  allTerminated s = true <-> Forall (fun t => t_status t = TERMINATED) (threads s).
Proof.
  unfold allTerminated. rewrite forallb_forall, Forall_forall. split.
  - intros H t Ht. apply (bool_decide_eq_true_1 _), H. by apply list_elem_of_In.
  - intros H t Ht. apply bool_decide_eq_true_2, H. by apply list_elem_of_In.
Qed.

Lemma not_exists_running s :
  existsb (fun t => negb (bool_decide (t_status t = TERMINATED))) (threads s) = false ->
  allTerminated s = true.
Proof.
  intros H. unfold allTerminated. apply forallb_forall. intros t Ht.
  destruct (bool_decide (t_status t = TERMINATED)) eqn:E; [done|].
  exfalso. assert (existsb (fun t => negb (bool_decide (t_status t = TERMINATED)))
                     (threads s) = true); [|congruence].
  apply existsb_exists. exists t. by rewrite E.
Qed.

(** X5. When [canStepForward] answers no, [step] executes nothing: it
    returns without an instruction, leaves the threads, the output, the
    heap and the step counter as they are, and the simulator is finished
    afterwards. *)
Theorem step_when_cannot_step_forward
    {host : JsHost} {lib : DataStdlib} (ent : HostEntropy) (m : Simulator) :
  canStepForward m = false ->
  exists m' r,
    step ent m = StepReturns m' r
    /\ er_instruction r = None
    /\ er_state r = getState m'
    /\ is_finished (state m') = true
    /\ threads (state m') = threads (state m)
    /\ heap (state m') = heap (state m)
    /\ output (state m') = output (state m)
    /\ stepNumber (state m') = stepNumber (state m)
    /\ monitors (state m') = monitors (state m).
Proof.
  unfold canStepForward, step. destruct (is_finished (state m)) eqn:Hfin.
  - intros _. eexists _, _. split; [reflexivity|]. by repeat split.
  - intros [Hex Hlen]%orb_false_elim.
    apply not_exists_running in Hex. pose proof Hex as Hall.
    apply allTerminated_Forall in Hall.
    assert (E2 : state (upd_state tickThreads (saveHistory m)) = state m).
    { cbn [state upd_state set_state saveHistory set_history].
      by apply tickThreads_terminated. }
    assert (Hns : forall m0, state m0 = state m -> schedulable_now (state m0) = false).
    { intros m0 ->. unfold schedulable_now, activeThreadState.
      destruct (threads (state m) !! _) as [t|] eqn:Et; [|done].
      apply terminated_not_schedulable.
      exact (Forall_lookup_1 (fun t => t_status t = TERMINATED) _ _ t Hall Et). }
    rewrite (Hns _ E2).
    assert (E3 : state (upd_state rotateThread (upd_state tickThreads (saveHistory m)))
                 = state m).
    { cbn [state upd_state set_state] in *. rewrite E2. by apply rotateThread_terminated. }
    rewrite (Hns _ E3). rewrite E3, Hex. cbn [orb].
    eexists _, _. split; [reflexivity|]. cbn [state upd_state set_state] in *.
    rewrite E3. by repeat split.
Qed.

(** ** Releasing and re-entering a monitor *)

Lemma list_find_alter_stable {A} (P : A -> Prop) `{!forall x, Decision (P x)}
    (g : A -> A) i (l : list A) :
  (forall x, P (g x) <-> P x) ->
  fst <$> list_find P (alter g i l) = fst <$> list_find P l.
Proof.
  intros Hg. revert i. induction l as [|x l IH]; intros i; [done|].
  destruct i as [|i]; cbn [alter list_alter list_find].
  - destruct (decide (P (g x))) as [Hp|Hp], (decide (P x)) as [Hq|Hq]; try done;
      exfalso; [apply Hq, Hg, Hp | apply Hp, Hg, Hq].
  - destruct (decide (P x)); [done|].
    change (list_alter g i l) with (alter g i l).
    specialize (IH i). destruct (list_find P (alter g i l)) as [[? ?]|],
      (list_find P l) as [[? ?]|]; cbn in *; congruence.
Qed.

Lemma fmap_alter_same {A B} (f : A -> B) (g : A -> A) i (l : list A) :
  (forall x, f (g x) = f x) -> f <$> alter g i l = f <$> l.
Proof.
  intros H. apply list_eq. intros j. rewrite !list_lookup_fmap.
  destruct (decide (j = i)) as [->|Hne].
  - rewrite list_lookup_alter_eq. destruct (l !! i); cbn; [by rewrite H|done].
  - by rewrite list_lookup_alter_ne.
Qed.

Lemma fmap_alter_insert {A B} (f : A -> B) (g : A -> A) i (l : list A) b :
  (forall x, f (g x) = b) -> f <$> alter g i l = <[i := b]> (f <$> l).
Proof.
  intros H. apply list_eq. intros j. rewrite list_lookup_fmap.
  destruct (decide (j = i)) as [->|Hne].
  - rewrite list_lookup_alter_eq. destruct (l !! i) as [x|] eqn:E; cbn.
    + rewrite list_lookup_insert_eq; [by rewrite H|].
      rewrite length_fmap. by eapply lookup_lt_Some.
    + symmetry. apply lookup_ge_None. rewrite length_insert, length_fmap.
      by apply lookup_ge_None.
  - rewrite list_lookup_alter_ne, list_lookup_insert_ne, list_lookup_fmap; done.
Qed.


(** X6. [releaseMonitor] by a thread that is not recorded as the holder
    changes nothing.  By the holder it frees the monitor, takes it off the
    holder's list and wakes exactly one thread: the first in the table
    that is BLOCKED on this monitor becomes RUNNABLE; every other status
    stays. *)
Theorem releaseMonitor_wakes_first_waiter (o T : string) (s : JVMState) :
  (monitors s !! o <> Some (Some T) -> releaseMonitor o T s = s)
  /\ (monitors s !! o = Some (Some T) ->
      monitors (releaseMonitor o T s) = <[o := None]> (monitors s)
      /\ statuses (releaseMonitor o T s)
         = match list_find (is_blocked_on o) (threads s) with
           | Some (j, _) => <[j := RUNNABLE]> (statuses s)
           | None => statuses s
           end
      /\ (forall i t, find_thread T (threads s) = Some (i, t) ->
          t_holdingMonitors <$> threads (releaseMonitor o T s) !! i
          = Some (filter (fun x => x <> o) (t_holdingMonitors t)))).
Proof.
  split.
  - intros H. unfold releaseMonitor. by rewrite bool_decide_eq_false_2.
  - intros H. unfold releaseMonitor. rewrite bool_decide_eq_true_2 by done.
    set (g := fun t => set_t_holdingMonitors (filter (fun m => m <> o) (t_holdingMonitors t)) t).
    set (w := fun t => set_t_waitingOnMonitor None (set_t_status RUNNABLE t)).
    set (s1 := set_monitors (<[o:=None]> (monitors s)) s).
    set (s2 := match find_thread T (threads s1) with
               | Some (i, _) => upd_thread i g s1
               | None => s1
               end).
    assert (Hm2 : monitors s2 = <[o := None]> (monitors s)).
    { subst s2. by destruct (find_thread T (threads s1)) as [[? ?]|]. }
    assert (Hst2 : statuses s2 = statuses s).
    { subst s2. destruct (find_thread T (threads s1)) as [[i ?]|]; [|done].
      unfold statuses. cbn [threads upd_thread set_threads].
      by apply fmap_alter_same. }
    assert (Hf2 : fst <$> list_find (is_blocked_on o) (threads s2)
                  = fst <$> list_find (is_blocked_on o) (threads s)).
    { subst s2. destruct (find_thread T (threads s1)) as [[i ?]|]; [|done].
      cbn [threads upd_thread set_threads]. by apply list_find_alter_stable. }
    assert (Hh2 : forall i t, find_thread T (threads s) = Some (i, t) ->
              t_holdingMonitors <$> threads s2 !! i
              = Some (filter (fun x => x <> o) (t_holdingMonitors t))).
    { intros i t Hf. subst s2. change (threads s1) with (threads s). rewrite Hf.
      unfold upd_thread. cbn [threads set_threads]. change (threads s1) with (threads s).
      rewrite list_lookup_alter_eq.
      apply list_find_Some in Hf as (Hi & _). by rewrite Hi. }
    destruct (list_find (is_blocked_on o) (threads s2)) as [[j tj]|] eqn:E2;
      destruct (list_find (is_blocked_on o) (threads s)) as [[j' tj']|] eqn:E; cbn in Hf2;
      simplify_eq.
    + split; [done|]. split.
      * unfold statuses in *. cbn [threads upd_thread set_threads].
        rewrite <- Hst2. by apply fmap_alter_insert.
      * intros i t Hf. cbn [threads upd_thread set_threads].
        rewrite <- (Hh2 i t Hf). destruct (decide (i = j')) as [->|Hne].
        -- rewrite list_lookup_alter_eq. by destruct (threads s2 !! j').
        -- by rewrite list_lookup_alter_ne.
    + done.
Qed.

Lemma set_monitors_same s : set_monitors (monitors s) s = s.
Proof. by destruct s. Qed.

Lemma acquire_result o T s s1 :
  acquireMonitor o T s = (s1, true) ->
  monitors s1 = <[o:=Some T]> (monitors s)
  /\ (forall i t, find_thread T (threads s1) = Some (i, t) -> o ∈ t_holdingMonitors t).
Proof.
  unfold acquireMonitor.
  destruct (match monitors s !! o with
            | Some (Some holder) => bool_decide (holder = T)
            | _ => true
            end); [|done].
  cbn [threads set_monitors].
  destruct (find_thread T (threads s)) as [[j u]|] eqn:Ef.
  - case_bool_decide as Hmem; intros [= <-].
    + split; [done|]. cbn [threads set_monitors]. rewrite Ef. by intros i t [= <- <-].
    + split; [done|]. intros i t. cbn [threads upd_thread set_threads set_monitors].
      rewrite find_thread_alter by done. rewrite Ef. cbn.
      rewrite decide_True by done. intros [= <- <-]. cbn.
      apply elem_of_app. right. by left.
  - intros [= <-]. split; [done|]. cbn [threads set_monitors]. by rewrite Ef.
Qed.

(** X7. Monitors are not counted.  Once a thread has acquired a monitor, a
    further acquisition by the same thread succeeds and changes nothing,
    and a single release frees the monitor, however often it was
    acquired. *)
Theorem reentrant_acquire_is_not_counted (o T : string) (s s1 : JVMState) :
  acquireMonitor o T s = (s1, true) ->
  monitors s1 !! o = Some (Some T)
  /\ acquireMonitor o T s1 = (s1, true)
  /\ monitors (releaseMonitor o T s1) !! o = Some None.
Proof.
  intros [Hm Hin]%acquire_result.
  assert (Hl : monitors s1 !! o = Some (Some T)) by (by rewrite Hm, lookup_insert_eq).
  split; [done|]. split.
  - unfold acquireMonitor. rewrite Hl, bool_decide_eq_true_2 by done.
    assert (Hs : set_monitors (<[o:=Some T]> (monitors s1)) s1 = s1).
    { rewrite Hm, insert_insert_eq, <- Hm. apply set_monitors_same. }
    rewrite Hs.
    destruct (find_thread T (threads s1)) as [[i t]|] eqn:Ef; [|done].
    by rewrite bool_decide_eq_true_2 by (by eapply Hin).
  - unfold releaseMonitor. rewrite bool_decide_eq_true_2 by done.
    repeat case_match; cbn; by rewrite lookup_insert_eq.
Qed.

(** The theorem at the main thread of the lock program. *)
Lemma reentrant_acquire_is_not_counted_witness :
  monitors lockedOnce !! "obj_2" = Some (Some "thread_main")
  /\ acquireMonitor "obj_2" "thread_main" lockedOnce = (lockedOnce, true)
  /\ monitors (releaseMonitor "obj_2" "thread_main" lockedOnce) !! "obj_2" = Some None.
Proof.
  apply (reentrant_acquire_is_not_counted "obj_2" "thread_main"
           (state (exampleRun 1 lockProgram)) lockedOnce).
  vm_compute. reflexivity.
Defined.

(** ** Waiting threads and the tick *)

Lemma tick_view_tick_thread n all t : tick_view (tick_thread n all t) = tick_view t.
Proof.
  unfold tick_thread, tick_view.
  repeat case_match; cbn; try done;
    repeat match goal with
           | H : bool_decide _ = true |- _ => apply bool_decide_eq_true in H
           | H : _ && _ = true |- _ => apply andb_true_iff in H as [? ?]
           end;
    repeat match goal with H : t_status _ = _ |- _ => cbn in H; rewrite H end; done.
Qed.

Lemma gone_view target ts ts' :
  tick_view <$> ts' = tick_view <$> ts -> gone target ts' = gone target ts.
Proof.
  unfold gone, find_thread. revert ts'.
  induction ts as [|x l IH]; intros [|y l'] Hv; try done.
  rewrite !fmap_cons in Hv. injection Hv as Hid Hst Hl. cbn [list_find].
  rewrite Hid. destruct (decide (t_id x = target)); [exact Hst|].
  specialize (IH l' Hl).
  destruct (list_find _ l') as [[? ?]|], (list_find _ l) as [[? ?]|]; cbn in *; done.
Qed.

(** The loop of [tickThreads]: every index visited once is updated by the
    loop body, run against a table with the same ids and the same
    TERMINATED threads as at the start. *)
Lemma tick_fold_view n l : forall ts0 ts j t,
  tick_view <$> ts = tick_view <$> ts0 ->
  NoDup l -> ts !! j = Some t ->
  exists t',
    fold_left (fun ts i => alter (tick_thread n ts) i ts) l ts !! j = Some t'
    /\ (j ∈ l -> exists all, tick_view <$> all = tick_view <$> ts0
                             /\ t' = tick_thread n all t)
    /\ (j ∉ l -> t' = t).
Proof.
  induction l as [|o l IH]; intros ts0 ts j t Hv Hnd Hj.
  - exists t. cbn. split; [done|]. split; [|done]. by intros ?%elem_of_nil.
  - apply NoDup_cons in Hnd as [Ho Hnd]. cbn [fold_left].
    assert (Hv' : tick_view <$> alter (tick_thread n ts) o ts = tick_view <$> ts0).
    { rewrite <- Hv. apply fmap_alter_same. intros x. apply tick_view_tick_thread. }
    destruct (decide (j = o)) as [->|Hne].
    + destruct (IH ts0 (alter (tick_thread n ts) o ts) o (tick_thread n ts t) Hv' Hnd)
        as (t' & Hl & _ & Hout).
      { by rewrite list_lookup_alter_eq, Hj. }
      exists t'. split; [done|]. rewrite (Hout Ho). split.
      * intros _. by exists ts.
      * intros Hnot. exfalso. apply Hnot. by left.
    + destruct (IH ts0 (alter (tick_thread n ts) o ts) j t Hv' Hnd) as (t' & Hl & Hin & Hout).
      { by rewrite list_lookup_alter_ne. }
      exists t'. split; [done|]. split.
      * intros [?|?]%elem_of_cons; [done|by apply Hin].
      * intros Hnot. apply Hout. intros ?. apply Hnot. by right.
Qed.

(** What the tick phase does to a thread that waits on [target]. *)
Lemma tickThreads_waiting s i t target :
  threads s !! i = Some t ->
  t_status t = WAITING ->
  t_waitingOnMonitor t = Some target ->
  target <> "" ->
  threads (tickThreads s) !! i
  = Some (if gone target (threads s)
          then set_t_waitingOnMonitor None (set_t_status RUNNABLE t)
          else t).
Proof.
  intros Hi Hs Hw Hne. unfold tickThreads. cbn [threads set_threads].
  destruct (tick_fold_view (stepNumber s) (seq 0 (length (threads s))) (threads s)
              (threads s) i t eq_refl (NoDup_seq _ _) Hi) as (t' & Hl & Hin & _).
  destruct Hin as (all & Hv & ->).
  { apply elem_of_seq. apply lookup_lt_Some in Hi. lia. }
  rewrite Hl. f_equal. unfold tick_thread.
  assert (H1 : match t_sleepUntilStep t with
               | Some d =>
                   if bool_decide (t_status t = TIMED_WAITING)
                      && deadline_reached (stepNumber s) d
                   then set_t_sleepUntilStep None (set_t_status RUNNABLE t) else t
               | None => t
               end = t).
  { destruct (t_sleepUntilStep t); [|done]. rewrite Hs.
    by rewrite bool_decide_eq_false_2. }
  rewrite H1, Hw, (truthy_id_Some _ Hne), Hs, bool_decide_eq_true_2 by done.
  rewrite <- (gone_view target (threads s) all Hv). unfold gone.
  destruct (find_thread target all) as [[? th]|]; [|done].
  by destruct (bool_decide (t_status th = TERMINATED)).
Qed.

(** X8. The tick phase turns a WAITING thread back into a RUNNABLE one
    exactly when no thread bears the id it waits on, or the first thread
    with that id is TERMINATED; otherwise it leaves the thread alone. *)
Theorem tick_wakes_waiting_thread (s : JVMState) (i : nat) (t : ThreadState)
    (target : string) :
  threads s !! i = Some t ->
  t_status t = WAITING ->
  t_waitingOnMonitor t = Some target ->
  target <> "" ->
  threads (tickThreads s) !! i
  = Some (if gone target (threads s)
          then set_t_waitingOnMonitor None (set_t_status RUNNABLE t)
          else t).
Proof. apply tickThreads_waiting. Qed.

(** X9. [Thread.join] on a thread object, whose [$threadId] field gives the
    target's id, makes the caller WAITING on that id exactly when a thread
    with that id exists and its first bearer is not TERMINATED; when the
    target is absent or TERMINATED the call changes nothing.  Monitors and
    heap are untouched either way. *)
Theorem join_waits_for_live_target
    {host : JsHost} {lib : DataStdlib}
    (fr : StackFrame) (args : list Value) (className : string) (objRef : option Value)
    (ent : HostEntropy) (m : Simulator) (targetId : string) :
  truthy_id (field_string "$threadId" (snd <$> receiver_object objRef (state m)))
  = Some targetId ->
  activeThreadState (state m) <> None ->
  exists m',
    threadFamily fr "join" args className objRef ent m
    = Some (SHandled fr m' "Thread.join()")
    /\ threads (state m')
       = (if gone targetId (threads (state m)) then threads (state m)
          else alter (fun t => set_t_waitingOnMonitor (Some targetId) (set_t_status WAITING t))
                 (activeThread (state m)) (threads (state m)))
    /\ monitors (state m') = monitors (state m)
    /\ heap (state m') = heap (state m).
Proof.
  intros Hid Hact.
  destruct (activeThreadState (state m)) as [activeT|] eqn:Ea; [clear Hact|done].
  unfold threadFamily.
  rewrite !bool_decide_eq_false_2 by done.
  rewrite bool_decide_eq_true_2 by done.
  rewrite Ea, Hid.
  destruct (receiver_object objRef (state m)) as [[oi o]|]; [|done].
  cbn [fmap option_fmap option_map snd].
  unfold gone.
  destruct (find_thread targetId (threads (state m))) as [[j tt]|];
    [destruct (bool_decide (t_status tt = TERMINATED))|];
    eexists; (split; [reflexivity|]); done.
Qed.





(** ** Round robin *)

Lemma find_seq_first (f : nat -> bool) a n x :
  find f (seq a n) = Some x ->
  (a <= x < a + n)%nat /\ f x = true /\ (forall y, (a <= y < x)%nat -> f y = false).
Proof.
  revert a. induction n as [|n IH]; intros a; [done|]. cbn [seq find].
  destruct (f a) eqn:Ea.
  - intros [= <-]. split; [lia|]. split; [done|]. intros y Hy. lia.
  - intros H. destruct (IH _ H) as (Hr & Hx & Hfirst). split; [lia|]. split; [done|].
    intros y Hy. destruct (decide (y = a)) as [->|Hne]; [done|]. apply Hfirst. lia.
Qed.

Lemma find_seq_none (f : nat -> bool) a n :
  find f (seq a n) = None -> forall y, (a <= y < a + n)%nat -> f y = false.
Proof.
  intros H y Hy. apply (find_none f _ H). apply in_seq. lia.
Qed.

(** X11. [rotateThread] only moves [activeThread].  It moves it to the
    nearest schedulable thread after the active one in cyclic table order,
    and leaves it where it is when no other thread is schedulable. *)
Theorem rotateThread_is_round_robin (s : JVMState) :
  rotateThread s = set_activeThread (activeThread (rotateThread s)) s
  /\ ((exists k, (1 <= k < length (threads s))%nat
                 /\ schedulable_after s k = true
                 /\ (forall j, (1 <= j < k)%nat -> schedulable_after s j = false)
                 /\ activeThread (rotateThread s)
                    = ((activeThread s + k) mod length (threads s))%nat)
      \/ ((forall j, (1 <= j < length (threads s))%nat -> schedulable_after s j = false)
          /\ rotateThread s = s))
  /\ ((activeThread s < length (threads s))%nat ->
      (activeThread (rotateThread s) < length (threads s))%nat).
Proof.
  unfold rotateThread.
  destruct (length (threads s) <=? 1)%nat eqn:En.
  - apply Nat.leb_le in En. split; [by destruct s|]. split; [|done].
    right. split; [|done]. intros j Hj. lia.
  - apply Nat.leb_gt in En. fold (schedulable_after s).
    destruct (find (schedulable_after s) (seq 1 (length (threads s) - 1))) as [k|] eqn:Ef.
    + destruct (find_seq_first _ _ _ _ Ef) as (Hr & Hk & Hfirst).
      split; [done|]. split.
      * left. exists k. split; [lia|]. split; [done|]. split; [|done].
        intros j Hj. apply Hfirst. lia.
      * intros _. cbn. apply Nat.mod_upper_bound. lia.
    + split; [by destruct s|]. split; [|done].
      right. split; [|done]. intros j Hj. apply (find_seq_none _ _ _ Ef). lia.
Qed.

(** The theorem at the call of [join] in the join program. *)
Lemma join_waits_for_live_target_witness :
  gone "thread_1" (threads (state beforeJoin)) = false
  /\ exists m',
       @threadFamily exampleHost (frameWith []) "join" [] "Worker"
         (Some (Reference (Some "obj_2"))) exampleEntropy beforeJoin
       = Some (SHandled (frameWith []) m' "Thread.join()")
       /\ threads (state m')
          = (if gone "thread_1" (threads (state beforeJoin)) then threads (state beforeJoin)
             else alter (fun t => set_t_waitingOnMonitor (Some "thread_1")
                                    (set_t_status WAITING t))
                    (activeThread (state beforeJoin)) (threads (state beforeJoin)))
       /\ monitors (state m') = monitors (state beforeJoin)
       /\ heap (state m') = heap (state beforeJoin).
Proof.
  split; [vm_compute; reflexivity|].
  apply (@join_waits_for_live_target exampleHost silentStdlib (frameWith []) [] "Worker"
           (Some (Reference (Some "obj_2"))) exampleEntropy beforeJoin "thread_1").
  - vm_compute. reflexivity.
  - vm_compute. discriminate.
Defined.

(** The theorem at the main thread after [join]: the worker is alive, so
    the tick leaves the main thread WAITING. *)
Lemma tick_wakes_waiting_thread_witness :
  exists t,
    threads (state afterJoin) !! 0%nat = Some t
    /\ t_status t = WAITING
    /\ t_waitingOnMonitor t = Some "thread_1"
    /\ gone "thread_1" (threads (state afterJoin)) = false
    /\ threads (tickThreads (state afterJoin)) !! 0%nat
       = Some (if gone "thread_1" (threads (state afterJoin))
               then set_t_waitingOnMonitor None (set_t_status RUNNABLE t)
               else t).
Proof.
  eexists. split; [vm_compute; reflexivity|].
  split; [reflexivity|]. split; [reflexivity|]. split; [vm_compute; reflexivity|].
  apply (tick_wakes_waiting_thread (state afterJoin) 0 _ "thread_1").
  - vm_compute. reflexivity.
  - reflexivity.
  - reflexivity.
  - discriminate.
Defined.


(** The theorem at [helloDone]. *)
Lemma step_when_cannot_step_forward_witness :
  canStepForward helloDone = false
  /\ exists m' r,
       @step exampleHost silentStdlib exampleEntropy helloDone = StepReturns m' r
       /\ er_instruction r = None
       /\ er_state r = getState m'
       /\ is_finished (state m') = true
       /\ threads (state m') = threads (state helloDone)
       /\ heap (state m') = heap (state helloDone)
       /\ output (state m') = output (state helloDone)
       /\ stepNumber (state m') = stepNumber (state helloDone)
       /\ monitors (state m') = monitors (state helloDone).
Proof.
  split; [vm_compute; reflexivity|].
  apply (@step_when_cannot_step_forward exampleHost silentStdlib exampleEntropy helloDone).
  vm_compute. reflexivity.
Defined.

(** ** Local variables *)

Lemma find_list_find {A} (P : A -> Prop) `{!forall x, Decision (P x)} (l : list A) :
  List.find (fun x => bool_decide (P x)) l = snd <$> list_find P l.
Proof.
  induction l as [|x l IH]; [done|]. cbn [find list_find].
  destruct (decide (P x)) as [Hp|Hp].
  - by rewrite bool_decide_eq_true_2.
  - rewrite bool_decide_eq_false_2 by done. rewrite IH.
    by destruct (list_find P l) as [[? ?]|].
Qed.

Lemma list_find_alter_found {A} (P : A -> Prop) `{!forall x, Decision (P x)}
    (g : A -> A) (l : list A) i x :
  (forall y, P (g y) <-> P y) ->
  list_find P l = Some (i, x) -> list_find P (alter g i l) = Some (i, g x).
Proof.
  intros Hg Hf. apply list_find_Some in Hf as (Hi & Hx & Hbefore).
  apply list_find_Some. split; [by rewrite list_lookup_alter_eq, Hi|].
  split; [by apply Hg|].
  intros j y Hj Hlt. rewrite list_lookup_alter_ne in Hj by lia. by eapply Hbefore.
Qed.

Lemma list_find_alter_other {A} (P Q : A -> Prop) `{!forall x, Decision (P x)}
    `{!forall x, Decision (Q x)} (g : A -> A) (l : list A) i x :
  (forall y, Q (g y) <-> Q y) ->
  l !! i = Some x -> ~ Q x ->
  snd <$> list_find Q (alter g i l) = snd <$> list_find Q l.
Proof.
  intros Hg Hi Hnq.
  destruct (list_find Q l) as [[j y]|] eqn:Ef.
  - apply list_find_Some in Ef as (Hj & Hy & Hbefore).
    assert (j <> i) by (intros ->; congruence).
    assert (list_find Q (alter g i l) = Some (j, y)) as ->; [|done].
    apply list_find_Some. split; [by rewrite list_lookup_alter_ne|]. split; [done|].
    intros k z Hk Hlt. destruct (decide (k = i)) as [->|Hne].
    + rewrite list_lookup_alter_eq, Hi in Hk. injection Hk as <-. by rewrite Hg.
    + rewrite list_lookup_alter_ne in Hk by done. by eapply Hbefore.
  - assert (list_find Q (alter g i l) = None) as ->; [|done].
    apply list_find_None. apply Forall_lookup_2. intros k z Hk.
    rewrite list_find_None in Ef.
    destruct (decide (k = i)) as [->|Hne].
    + rewrite list_lookup_alter_eq, Hi in Hk. injection Hk as <-. by rewrite Hg.
    + rewrite list_lookup_alter_ne in Hk by done.
      exact (Forall_lookup_1 _ _ _ _ Ef Hk).
Qed.

(** X12. STORE_LOCAL followed by LOAD_LOCAL of the same slot gives back the
    stored value (null when the operand stack was empty); no other slot
    changes its value, whether the slot was there before or is created by
    the store. *)
Theorem store_local_then_load_local
    {host : JsHost} {lib : DataStdlib}
    (ti : nat) (line : Z) (cmt : option string) (index : Z) (name name' : string)
    (frame : StackFrame) (ent : HostEntropy) (m : Simulator) :
  exists frame1 d d',
    executeInstruction ti (mkInstruction (OpCode.STORE_LOCAL index name) line cmt) frame ent m
    = Normal (commit ti frame1 m) d
    /\ f_operandStack frame1 = tail (f_operandStack frame)
    /\ f_pc frame1 = f_pc frame + 1
    /\ local_value index frame1
       = Some (default createNullValue (head (f_operandStack frame)))
    /\ (forall j, j <> index -> local_value j frame1 = local_value j frame)
    /\ executeInstruction ti (mkInstruction (OpCode.LOAD_LOCAL index name') line cmt)
         frame1 ent (commit ti frame1 m)
       = Normal
           (commit ti
              (advance (push (default createNullValue (head (f_operandStack frame))) frame1))
              (commit ti frame1 m)) d'.
Proof.
  assert (Hval : local_value index (frame_after_store index name frame)
                 = Some (default createNullValue (head (f_operandStack frame)))).
  { unfold local_value, frame_after_store.
    cbn [f_localVariables advance set_f_pc set_f_localVariables set_f_operandStack].
    rewrite find_list_find.
    destruct (list_find _ (f_localVariables frame)) as [[i x]|] eqn:Ef.
    - erewrite list_find_alter_found; [done|done|exact Ef].
    - apply list_find_None in Ef.
      destruct (list_find _ (_ ++ _)) as [[k y]|] eqn:Ek.
      + apply list_find_Some in Ek as (Hk & Hy & _).
        apply lookup_app_Some in Hk as [Hk|[_ Hk]].
        * exfalso. exact (Forall_lookup_1 _ _ _ _ Ef Hk Hy).
        * apply list_lookup_singleton_Some in Hk as [_ <-]. done.
      + exfalso. apply list_find_None in Ek. apply Forall_app in Ek as [_ Ek].
        by apply Forall_inv in Ek. }
  assert (Hstore : exists d,
            executeInstruction ti (mkInstruction (OpCode.STORE_LOCAL index name) line cmt)
              frame ent m
            = Normal (commit ti (frame_after_store index name frame) m) d).
  { unfold executeInstruction. cbn [opcode]. unfold pop, frame_after_store.
    destruct frame as [? ? ? ? ? ops ? ? ?]. cbn [f_operandStack].
    destruct ops as [|v ops]; eexists; reflexivity. }
  destruct Hstore as [d Hstore]. exists (frame_after_store index name frame), d. eexists.
  split; [exact Hstore|]. split; [done|]. split; [done|].
  split; [exact Hval|]. split.
  { intros j Hj. unfold local_value, frame_after_store.
    cbn [f_localVariables advance set_f_pc set_f_localVariables set_f_operandStack].
    rewrite !find_list_find. f_equal.
    destruct (list_find (fun v => lv_slot v = index) (f_localVariables frame)) as [[i x]|] eqn:Ef.
    - apply list_find_Some in Ef as (Hi & Hx & _).
      apply (list_find_alter_other (fun v => lv_slot v = index) (fun v => lv_slot v = j)
               _ _ i x); [done|done|congruence].
    - destruct (list_find (fun v => lv_slot v = j) (f_localVariables frame)) as [[k y]|] eqn:Ej.
      + by erewrite list_find_app_l.
      + assert (list_find (fun v => lv_slot v = j)
                  (f_localVariables frame ++ [mkLocalVariable name "Object"
                     (default createNullValue (head (f_operandStack frame))) index])
                = None) as ->; [|done].
        apply list_find_None. apply Forall_app.
        split; [exact (proj1 (list_find_None _ _) Ej)|].
        constructor; [cbn; congruence|constructor]. }
  unfold executeInstruction. cbn [opcode]. fold (local_value index (frame_after_store index name frame)).
  unfold local_value in Hval.
  destruct (find _ (f_localVariables (frame_after_store index name frame))) as [lv|] eqn:El;
    [|done].
  injection Hval as ->. reflexivity.
Qed.

(** ** Fields *)

Lemma find_object_upd (g : HeapObject -> HeapObject) id h oi obj :
  (forall o, ho_id (g o) = ho_id o) ->
  find_object id h = Some (oi, obj) ->
  find_object id (alter g oi h) = Some (oi, g obj).
Proof.
  intros Hg Hf. unfold find_object in *.
  apply (list_find_alter_found (fun o => ho_id o = id)); [|done].
  intros y. by rewrite Hg.
Qed.

Lemma heap_commit ti fr m : heap (state (commit ti fr m)) = heap (state m).
Proof. reflexivity. Qed.

(** X13. PUTFIELD on a reference to a heap object, followed by GETFIELD of
    the same field on the same reference, gives back the stored value,
    whether the field existed or is created by the store.  The one
    exception is the name [length] on an array, which GETFIELD answers
    with the array length. *)
Theorem putfield_then_getfield
    {host : JsHost} {lib : DataStdlib}
    (ti : nat) (line : Z) (cmt : option string) (fieldName owner owner' : string)
    (frame frame2 : StackFrame) (ent : HostEntropy) (m : Simulator)
    (value objRef : Value) (rest rest2 : list Value) (oi : nat) (obj : HeapObject) :
  f_operandStack frame = value :: objRef :: rest ->
  deref (Some objRef) (state m) = Some (oi, obj) ->
  ~ (fieldName = "length" /\ ho_type obj = KArray) ->
  f_operandStack frame2 = objRef :: rest2 ->
  exists m1 d d',
    executeInstruction ti (mkInstruction (OpCode.PUTFIELD fieldName owner) line cmt) frame ent m
    = Normal m1 d
    /\ ho_id <$> heap (state m1) = ho_id <$> heap (state m)
    /\ executeInstruction ti (mkInstruction (OpCode.GETFIELD fieldName owner') line cmt)
         frame2 ent m1
       = Normal (commit ti (advance (push value (set_f_operandStack rest2 frame2))) m1) d'.
Proof.
  intros Hops Href Hnl Hops2.
  unfold executeInstruction at 1. cbn [opcode]. unfold pop. rewrite Hops.
  cbn [f_operandStack set_f_operandStack default]. rewrite Href.
  set (g := fun o => match find_field fieldName (ho_fields o) with
                     | Some (i, _) =>
                         set_ho_fields (alter (set_hf_value value) i (ho_fields o)) o
                     | None => add_fields [mkHeapField fieldName "Object" value false] o
                     end).
  assert (Hgid : forall o, ho_id (g o) = ho_id o).
  { intros o. unfold g. by destruct (find_field _ _) as [[? ?]|]. }
  eexists _, _, _. split; [reflexivity|].
  match goal with |- context [executeInstruction _ _ frame2 _ ?mm] => set (m1 := mm) end.
  assert (Hh : heap (state m1) = alter g oi (heap (state m))) by reflexivity.
  assert (Hderef : deref (Some objRef) (state m1) = Some (oi, g obj)).
  { unfold deref in *. destruct objRef as [| o | |]; try done.
    destruct (truthy_id o) as [id|]; [|done].
    rewrite Hh. by apply find_object_upd. }
  split.
  { rewrite Hh. by apply fmap_alter_same. }
  unfold executeInstruction. cbn [opcode]. unfold pop. rewrite Hops2.
  rewrite Hderef.
  assert (Htype : ho_type (g obj) = ho_type obj).
  { unfold g. by destruct (find_field _ _) as [[? ?]|]. }
  assert (Hcond : bool_decide (fieldName = "length") && bool_decide (ho_type (g obj) = KArray)
                  = false).
  { rewrite Htype. apply not_true_is_false. intros [H1 H2]%andb_true_iff.
    apply Hnl. split; [by apply bool_decide_eq_true in H1|by apply bool_decide_eq_true in H2]. }
  rewrite Hcond.
  assert (Hfield : snd <$> find_field fieldName (ho_fields (g obj))
                   = Some (mkHeapField fieldName
                             (default "Object"
                                (hf_type ∘ snd <$> find_field fieldName (ho_fields obj)))
                             value
                             (default false
                                (hf_isStatic ∘ snd <$> find_field fieldName (ho_fields obj))))).
  { unfold g, find_field. destruct (list_find _ (ho_fields obj)) as [[i f]|] eqn:Ef.
    - cbn [ho_fields set_ho_fields].
      erewrite (list_find_alter_found (fun f => hf_name f = fieldName)); [|done|exact Ef].
      apply list_find_Some in Ef as (_ & Hn & _). destruct f. cbn in *. by rewrite Hn.
    - cbn [ho_fields add_fields set_ho_fields].
      destruct (list_find _ (_ ++ _)) as [[k y]|] eqn:Ek.
      + apply list_find_Some in Ek as (Hk & Hy & _).
        apply lookup_app_Some in Hk as [Hk|[_ Hk]].
        * exfalso. apply list_find_None in Ef. exact (Forall_lookup_1 _ _ _ _ Ef Hk Hy).
        * apply list_lookup_singleton_Some in Hk as [_ <-]. done.
      + exfalso. apply list_find_None in Ek. apply Forall_app in Ek as [_ Ek].
        by apply Forall_inv in Ek. }
  rewrite Hfield. reflexivity.
Qed.

(** ** Arrays *)




(** The theorem at a field [count] of [obj_2], which has no such field
    before the store. *)
Lemma putfield_then_getfield_witness :
  exists m1 d d',
    @executeInstruction exampleHost silentStdlib 0
      (mkInstruction (OpCode.PUTFIELD "count" "") 1 None)
      (frameWith [intValue 7; Reference (Some "obj_2")]) exampleEntropy lockAllocated
    = Normal m1 d
    /\ ho_id <$> heap (state m1) = ho_id <$> heap (state lockAllocated)
    /\ @executeInstruction exampleHost silentStdlib 0
         (mkInstruction (OpCode.GETFIELD "count" "") 1 None)
         (frameWith [Reference (Some "obj_2")]) exampleEntropy m1
       = Normal (commit 0 (advance (push (intValue 7)
                                      (set_f_operandStack []
                                         (frameWith [Reference (Some "obj_2")])))) m1) d'.
Proof.
  eapply (@putfield_then_getfield exampleHost silentStdlib 0 1 None "count" "" ""
            (frameWith [intValue 7; Reference (Some "obj_2")])
            (frameWith [Reference (Some "obj_2")]) exampleEntropy lockAllocated
            (intValue 7) (Reference (Some "obj_2")) [] []).
  - reflexivity.
  - vm_compute. reflexivity.
  - intros [E _]. discriminate E.
  - reflexivity.
Defined.


(** ** The arity the compiler writes and the interpreter reads *)

Lemma digit_value_pretty d : (d < 10)%N -> digit_value (pretty_N_char d) = Some d.
Proof.
  intros Hd. unfold pretty_N_char.
  destruct d as [|p]; [done|].
  do 4 (destruct p as [p|p|]; try done; try lia).
Qed.

Lemma parse_pretty_N_go x : forall s,
  parse_digits_from 0 (pretty_N_go x s) = parse_digits_from x s.
Proof.
  induction (N.lt_wf_0 x) as [x _ IH]. intros s.
  destruct (decide (x = 0)%N) as [->|Hx]; [by rewrite pretty_N_go_0|].
  rewrite pretty_N_go_step by lia.
  rewrite IH by (apply N.div_lt; lia).
  cbn [parse_digits_from]. rewrite digit_value_pretty by (apply N.mod_lt; lia).
  f_equal. pose proof (N.div_mod x 10). lia.
Qed.

Lemma all_digits_pretty_N_go x : forall s, all_digits s -> all_digits (pretty_N_go x s).
Proof.
  induction (N.lt_wf_0 x) as [x _ IH]. intros s Hs.
  destruct (decide (x = 0)%N) as [->|Hx]; [by rewrite pretty_N_go_0|].
  rewrite pretty_N_go_step by lia. apply IH; [apply N.div_lt; lia|].
  constructor; [|done]. rewrite digit_value_pretty by (apply N.mod_lt; lia). by eexists.
Qed.

Lemma all_digits_pretty (n : N) : all_digits (pretty n).
Proof.
  unfold pretty, pretty_N. case_decide.
  - repeat constructor. by eexists.
  - apply all_digits_pretty_N_go. constructor.
Qed.

Lemma parse_pretty (n : N) : parse_digits (pretty n) = Some n.
Proof.
  unfold pretty, pretty_N. case_decide as Hn; [by subst|].
  pose proof (parse_pretty_N_go n "") as Hp. cbn [parse_digits_from] in Hp.
  unfold parse_digits. destruct (pretty_N_go n "") eqn:E; [|done].
  cbn in Hp. congruence.
Qed.

Lemma take_digits_stop s c r :
  all_digits s -> digit_value c = None ->
  take_digits (s +:+ String c r) = (s, String c r).
Proof.
  intros Hs Hc. induction s as [|a s IH].
  - change (take_digits (String c r) = ("", String c r)).
    cbn [take_digits]. by rewrite Hc.
  - change (take_digits (String a (s +:+ String c r)) = (String a s, String c r)).
    apply Forall_cons in Hs as [[d Hd] Hs].
    cbn [take_digits]. rewrite Hd. by rewrite (IH Hs).
Qed.

(** X15. The number of arguments the interpreter reads back from a method
    descriptor is the number of arguments of the call expression the
    compiler wrote it for. *)
Theorem arity_descriptor_round_trip (arguments : list Expression) :
  numArgsOf (arityDescriptor arguments) = length arguments.
Proof.
  unfold arityDescriptor.
  assert (H : match_arity_here ("(" ++ pretty (length arguments) ++ ")")
              = Some (N.of_nat (length arguments))).
  { change ("(" ++ pretty (length arguments) ++ ")")
      with (String "("%char (pretty (N.of_nat (length arguments)) +:+ String ")"%char "")).
    cbn [match_arity_here]. rewrite bool_decide_eq_true_2 by done.
    rewrite (take_digits_stop _ ")"%char "") by (apply all_digits_pretty || done).
    rewrite bool_decide_eq_true_2 by done. apply parse_pretty. }
  destruct ("(" ++ pretty (length arguments) ++ ")") eqn:E; [done|].
  cbn [numArgsOf]. rewrite H. apply Nat2N.id.
Qed.

(** ** The shape of a compiled program *)

Lemma located_app all off code more :
  located all off code -> located (all ++ more) off code.
Proof.
  intros [H0 Ht]. split; [done|].
  assert (Hlen : (length code <= length (drop (Z.to_nat off) all))%nat).
  { rewrite <- Ht at 1. rewrite length_take. lia. }
  destruct (decide (Z.to_nat off <= length all)%nat) as [Hle|Hgt].
  - rewrite drop_app_le by done. by rewrite take_app_le.
  - rewrite length_drop in Hlen. assert (length code = 0%nat) as Hz by lia.
    rewrite Hz. rewrite Hz in Ht. by destruct code.
Qed.

Lemma located_end all code : located (all ++ code) (Z.of_nat (length all)) code.
Proof.
  split; [lia|]. rewrite Nat2Z.id. rewrite drop_app_length. apply firstn_all.
Qed.

Lemma method_code_snoc ms cm : method_code (ms ++ [cm]) = (method_code ms ++ cm_instructions cm)%list.
Proof. unfold method_code. rewrite bind_app. cbn. by rewrite app_nil_r. Qed.

Lemma class_code_snoc cs c : class_code (cs ++ [c]) = (class_code cs ++ method_code (cc_methods c))%list.
Proof. unfold class_code. rewrite bind_app. cbn. by rewrite app_nil_r. Qed.

Lemma mid_class_method c0 cn fs ms c r :
  mid_class c0 cn (fs, ms, c) -> method_step cn c r ->
  mid_class c0 cn (fs, (ms ++ [r.1])%list, r.2).
Proof.
  intros (Hc & Ha & Ho) (Sc & Sa & So). unfold mid_class in *. cbn [fst snd] in *.
  split; [congruence|]. split.
  { rewrite Sa, Ha, method_code_snoc. by rewrite app_assoc. }
  intros key off Hk. rewrite So in Hk.
  destruct (decide (key = cn ++ "." ++ cm_signature r.1)) as [->|Hne].
  - rewrite lookup_insert_eq in Hk. injection Hk as <-.
    exists cn, r.1. split; [done|]. split.
    + rewrite Sa. apply located_end.
    + right. split; [done|]. apply elem_of_app. right. by left.
  - rewrite lookup_insert_ne in Hk by done.
    destruct (Ho key off Hk) as (owner & mth & Hkey & Hloc & Hwhere).
    exists owner, mth. split; [done|]. split.
    + rewrite Sa. by apply located_app.
    + destruct Hwhere as [(cls & Hin & Hn & Hm)|[-> Hm]].
      * left. exists cls. by rewrite Sc.
      * right. split; [done|]. apply elem_of_app. by left.
Qed.

Section Shape.
Context {gen : CodeGenerator}.

Lemma compileMethod_step node cn c : method_step cn c (compileMethod node cn c).
Proof. done. Qed.

Lemma compileConstructor_step node cn c : method_step cn c (compileConstructor node cn c).
Proof. done. Qed.

Lemma compileDefaultMethod_step node cn c : method_step cn c (compileDefaultMethod node cn c).
Proof. done. Qed.

Lemma mid_class_start c : between_classes c -> forall cn, mid_class c cn ([], [], c).
Proof.
  intros [Ha Ho] cn. split; [done|]. split; [by rewrite app_nil_r|].
  intros key off Hk. destruct (Ho key off Hk) as (owner & mth & Hkey & Hloc & Hwhere).
  exists owner, mth. split; [done|]. split; [done|].
  destruct Hwhere as [?|[_ Hm]]; [by left|]. by apply elem_of_nil in Hm.
Qed.

Lemma mid_class_end c0 cn fs ms c cls :
  between_classes c0 -> mid_class c0 cn (fs, ms, c) ->
  cc_name cls = cn -> cc_methods cls = ms ->
  bc_classes (push_class cls c) = (bc_classes c0 ++ [cls])%list
  /\ between_classes (push_class cls c).
Proof.
  intros [Ha0 _] (Hc & Ha & Ho) Hn Hm. cbn [fst snd] in *.
  split; [cbn; by rewrite Hc|]. split.
  - cbn [push_class bc_allInstructions bc_classes].
    by rewrite Ha, Hc, class_code_snoc, Ha0, Hm.
  - intros key off Hk. cbn [push_class bc_methodOffsets] in Hk.
    destruct (Ho key off Hk) as (owner & mth & Hkey & Hloc & Hwhere).
    exists owner, mth. split; [done|]. split; [done|]. left.
    cbn [push_class bc_classes].
    destruct Hwhere as [(k & Hin & Hkn & Hkm)|[-> Hin]].
    + exists k. split; [|done]. apply elem_of_app. by left.
    + exists cls. split; [|by rewrite Hm]. apply elem_of_app. right. by left.
Qed.

Lemma compileClass_shape node c :
  between_classes c ->
  between_classes (compileClass node c)
  /\ cc_name <$> bc_classes (compileClass node c)
     = ((cc_name <$> bc_classes c) ++ [cls_name node])%list.
Proof.
  intros Hb. unfold compileClass.
  match goal with |- context [fold_left ?f _ _] => set (body := f) end.
  assert (H : forall ms acc, mid_class c (cls_name node) acc ->
            mid_class c (cls_name node) (fold_left body ms acc)).
  { induction ms as [|mb ms IH]; intros [[fs mths] c0] Hacc; [done|].
    cbn [fold_left]. apply IH. destruct mb as [f|mth|k]; cbn [body].
    - exact Hacc.
    - pose proof (mid_class_method c (cls_name node) fs mths c0 _ Hacc
                    (compileMethod_step mth (cls_name node) c0)) as Hm.
      by destruct (compileMethod mth (cls_name node) c0).
    - pose proof (mid_class_method c (cls_name node) fs mths c0 _ Hacc
                    (compileConstructor_step k (cls_name node) c0)) as Hm.
      by destruct (compileConstructor k (cls_name node) c0). }
  specialize (H (cls_members node) ([], [], c) (mid_class_start c Hb _)).
  destruct (fold_left body _ _) as [[fs mths] c1].
  match goal with
  | |- context [push_class ?k c1] =>
      destruct (mid_class_end c (cls_name node) fs mths c1 k Hb H eq_refl eq_refl)
        as [Hcls Hbet]
  end.
  split; [exact Hbet|]. rewrite Hcls, fmap_app. reflexivity.
Qed.

Lemma compileInterface_shape node c :
  between_classes c ->
  between_classes (compileInterface node c)
  /\ cc_name <$> bc_classes (compileInterface node c)
     = ((cc_name <$> bc_classes c) ++ [itf_name node])%list.
Proof.
  intros Hb. unfold compileInterface.
  match goal with |- context [fold_left ?f _ _] => set (body := f) end.
  assert (H : forall ms acc, mid_class c (itf_name node) acc ->
            mid_class c (itf_name node) (fold_left body ms acc)).
  { induction ms as [|mb ms IH]; intros [[fs mths] c0] Hacc; [done|].
    cbn [fold_left]. apply IH. destruct mb as [n|d|f]; cbn [body].
    - exact Hacc.
    - pose proof (mid_class_method c (itf_name node) fs mths c0 _ Hacc
                    (compileDefaultMethod_step d (itf_name node) c0)) as Hm.
      by destruct (compileDefaultMethod d (itf_name node) c0).
    - exact Hacc. }
  specialize (H (itf_members node) ([], [], c) (mid_class_start c Hb _)).
  destruct (fold_left body _ _) as [[fs mths] c1].
  match goal with
  | |- context [push_class ?k c1] =>
      destruct (mid_class_end c (itf_name node) fs mths c1 k Hb H eq_refl eq_refl)
        as [Hcls Hbet]
  end.
  split; [exact Hbet|]. rewrite Hcls, fmap_app. reflexivity.
Qed.

Lemma compile_pass_shape ds c :
  between_classes c ->
  between_classes
    (fold_left (fun c decl => match decl with
                              | D_Class k => compileClass k c
                              | D_Interface i => compileInterface i c
                              end) ds c)
  /\ cc_name <$> bc_classes
                   (fold_left (fun c decl => match decl with
                                             | D_Class k => compileClass k c
                                             | D_Interface i => compileInterface i c
                                             end) ds c)
     = ((cc_name <$> bc_classes c) ++ (decl_name <$> ds))%list.
Proof.
  revert c. induction ds as [|d ds IH]; intros c Hb.
  - split; [done|]. by rewrite app_nil_r.
  - cbn [fold_left fmap list_fmap].
    destruct d as [k|i].
    + destruct (compileClass_shape k c Hb) as [Hb' Hn].
      destruct (IH _ Hb') as [Hb'' Hn'']. split; [done|].
      rewrite Hn'', Hn. cbn. by rewrite <- app_assoc.
    + destruct (compileInterface_shape i c Hb) as [Hb' Hn].
      destruct (IH _ Hb') as [Hb'' Hn'']. split; [done|].
      rewrite Hn'', Hn. cbn. by rewrite <- app_assoc.
Qed.

Lemma between_classes_new : between_classes newBytecodeCompiler.
Proof. split; [done|]. intros key off Hk. cbn in Hk. by rewrite lookup_empty in Hk. Qed.

End Shape.

(** X16. [compile] lists one compiled class per declaration, in declaration
    order and under the declaration's name, and the flattened instruction
    list is the code of all methods of all classes laid end to end in that
    order. *)
Theorem compile_keeps_order {gen : CodeGenerator} (prog : Program) :
  cc_name <$> classes (compile prog) = decl_name <$> declarations prog
  /\ allInstructions (compile prog) = class_code (classes (compile prog)).
Proof.
  destruct (compile_pass_shape (declarations prog) newBytecodeCompiler between_classes_new)
    as [[Ha _] Hn].
  unfold compile. cbn [classes allInstructions]. split; [exact Hn|exact Ha].
Qed.

(** X17. Every offset [compile] records in [methodOffsets] is the start, in
    the flattened instruction list, of the code of a method of a compiled
    class whose key (class name, a dot, the signature) is the one the
    offset is recorded under. *)
Theorem method_offsets_are_sound {gen : CodeGenerator} (prog : Program)
    (key : string) (off : Z) :
  methodOffsets (compile prog) !! key = Some off ->
  exists cls mth,
    cls ∈ classes (compile prog)
    /\ mth ∈ cc_methods cls
    /\ key = cc_name cls ++ "." ++ cm_signature mth
    /\ 0 <= off
    /\ take (length (cm_instructions mth)) (drop (Z.to_nat off) (allInstructions (compile prog)))
       = cm_instructions mth.
Proof.
  destruct (compile_pass_shape (declarations prog) newBytecodeCompiler between_classes_new)
    as [[_ Ho] _].
  unfold compile. cbn [classes allInstructions methodOffsets]. intros Hk.
  destruct (Ho key off Hk) as (owner & mth & Hkey & [H0 Hloc] & Hwhere).
  destruct Hwhere as [(cls & Hin & Hn & Hm)|[_ Hm]]; [|by apply elem_of_nil in Hm].
  exists cls, mth. rewrite Hn. done.
Qed.

(** The theorem at the main method of [Second] in [twoMains], which starts
    at offset 1. *)
Lemma method_offsets_are_sound_witness :
  methodOffsets (@compile emptyBodies twoMains) !! "Second.main(String[])void" = Some 1
  /\ exists cls mth,
       cls ∈ classes (@compile emptyBodies twoMains) /\ mth ∈ cc_methods cls
       /\ "Second.main(String[])void" = cc_name cls ++ "." ++ cm_signature mth /\ 0 <= 1
       /\ take (length (cm_instructions mth))
            (drop (Z.to_nat 1) (allInstructions (@compile emptyBodies twoMains)))
          = cm_instructions mth.
Proof.
  split; [vm_compute; reflexivity|].
  apply (@method_offsets_are_sound emptyBodies twoMains). vm_compute; reflexivity.
Defined.

(** ** Loading the classes *)

Lemma loadClasses_only_methodArea p cs s :
  loadClasses p cs s = set_methodArea (methodArea (loadClasses p cs s)) s.
Proof.
  unfold loadClasses. revert s. induction cs as [|c cs IH]; intros s; [by destruct s|].
  cbn [fold_left]. rewrite IH at 1. by destruct s.
Qed.


Lemma state_initialize_no_main fid m0 :
  mainClass (program m0) = "" ->
  state (initialize fid m0) = loadClasses (program m0) (classes (program m0)) (state m0).
Proof.
  intros H. unfold initialize. rewrite bool_decide_eq_true_2 by done. by destruct m0.
Qed.



(** ** A program without a main class *)

Section NoMain.
Context {host : JsHost} {lib : DataStdlib}.

(** X19. A program in which no main class was found gets a simulator with
    no thread and status idle, which nevertheless can step forward; its
    first step runs nothing and completes the execution, after which it
    can only step back. *)
Theorem program_without_main_completes_at_once (frameId : string) (ent : HostEntropy)
    (p : CompiledProgram) :
  mainClass p = "" ->
  let m := newSimulator frameId p in
  threads (state m) = [] /\ status (state m) = st_idle /\ canStepForward m = true
  /\ exists m' r,
       step ent m = StepReturns m' r
       /\ er_instruction r = None /\ er_description r = "All threads completed"
       /\ status (state m') = st_completed /\ stepNumber (state m') = 0
       /\ threads (state m') = [] /\ output (state m') = [] /\ heap (state m') = []
       /\ canStepForward m' = false /\ canStepBack m' = true.
Proof.
  intros Hp. cbv zeta. unfold newSimulator.
  set (m0 := {| program := p; state := createInitialJVMState; history := [];
                maxHistory := 500; nextObjectId := 1 |}).
  pose proof (state_initialize_no_main frameId m0 Hp) as Hs.
  pose proof (shell_initialize frameId m0) as [= Hprog Hhist Hmax].
  cbn [program state m0] in Hs.
  rewrite loadClasses_only_methodArea in Hs.
  set (area := methodArea _) in Hs.
  destruct (initialize frameId m0) as [p1 s1 h1 mh1 n1] eqn:Em.
  cbn [state] in Hs. cbn [history m0] in Hhist. subst s1 h1.
  split; [done|]. split; [done|]. split; [done|].
  cbn in Hmax. subst mh1.
  eexists _, _. split; [reflexivity|]. by cbn.
Qed.

End NoMain.

(** The theorem at the program compiled from no declaration. *)
Lemma program_without_main_completes_at_once_witness :
  mainClass nothingDeclared = ""
  /\ canStepForward (newSimulator "frame_0" nothingDeclared) = true
  /\ exists m' r,
       @step exampleHost silentStdlib exampleEntropy (newSimulator "frame_0" nothingDeclared)
       = StepReturns m' r
       /\ er_description r = "All threads completed"
       /\ status (state m') = st_completed /\ canStepForward m' = false.
Proof.
  split; [vm_compute; reflexivity|].
  destruct (@program_without_main_completes_at_once exampleHost silentStdlib "frame_0"
              exampleEntropy nothingDeclared eq_refl)
    as (_ & _ & Hc & m' & r & Hs & _ & Hd & Hst & _ & _ & _ & _ & Hf & _).
  split; [exact Hc|]. by exists m', r.
Defined.

(** ** What stepBack returns *)

Section Snapshots.
Context {host : JsHost} {lib : DataStdlib}.

Lemma api_history_snapshots m : api_reachable m -> Forall is_snapshot (history m).
Proof.
  induction 1 as [fid p|ent m m' _ IH Hstep|m _ IH|fid m _ _].
  - rewrite history_newSimulator. constructor.
  - destruct (is_finished (state m)) eqn:Hfin.
    + unfold step in Hstep. rewrite Hfin in Hstep. unfold returning in Hstep.
      by injection Hstep as <-.
    + apply (shell_step ent m m' Hfin) in Hstep. injection Hstep as _ -> _.
      apply Forall_saveHistory; [done|]. apply clone_JVMState_idem.
  - unfold stepBack. destruct (last (history m)) as [snap|] eqn:El; cbn [fst history]; [|done].
    cbn. by apply Forall_removelast.
  - rewrite history_reset. constructor.
Qed.

(** X20. In a simulator reached through the public methods, a [stepBack]
    that has something to undo installs the most recent snapshot, drops
    it from the history, and returns as the result's state exactly the
    state it installed; the program and the object counter are left as
    they were. *)
Theorem stepBack_returns_installed_state (m : Simulator) :
  api_reachable m -> canStepBack m = true ->
  exists snapshot,
    last (history m) = Some snapshot
    /\ state (stepBack m).1 = snapshot
    /\ er_state (stepBack m).2 = snapshot
    /\ er_instruction (stepBack m).2 = None
    /\ er_description (stepBack m).2 = "Stepped back"
    /\ history m = (history (stepBack m).1 ++ [snapshot])%list
    /\ program (stepBack m).1 = program m
    /\ nextObjectId (stepBack m).1 = nextObjectId m.
Proof.
  intros Hr Hc. apply api_history_snapshots in Hr.
  unfold canStepBack in Hc. apply bool_decide_eq_true_1 in Hc.
  unfold stepBack. destruct (last (history m)) as [snap|] eqn:El.
  - exists snap. pose proof (Forall_last _ _ _ Hr El) as Hsnap.
    apply last_Some in El as [l' El]. cbn. rewrite El.
    rewrite removelast_last. unfold cloneState. cbn. by rewrite Hsnap.
  - apply last_None in El. rewrite El in Hc. cbn in Hc. lia.
Qed.

End Snapshots.

(** The theorem at the contended program after ten steps. *)
Lemma stepBack_returns_installed_state_witness :
  canStepBack (exampleRun 10 contendedProgram) = true
  /\ exists snapshot,
    last (history (exampleRun 10 contendedProgram)) = Some snapshot
    /\ state (stepBack (exampleRun 10 contendedProgram)).1 = snapshot
    /\ er_state (stepBack (exampleRun 10 contendedProgram)).2 = snapshot
    /\ er_instruction (stepBack (exampleRun 10 contendedProgram)).2 = None
    /\ er_description (stepBack (exampleRun 10 contendedProgram)).2 = "Stepped back"
    /\ history (exampleRun 10 contendedProgram)
       = (history (stepBack (exampleRun 10 contendedProgram)).1 ++ [snapshot])%list
    /\ program (stepBack (exampleRun 10 contendedProgram)).1
       = program (exampleRun 10 contendedProgram)
    /\ nextObjectId (stepBack (exampleRun 10 contendedProgram)).1
       = nextObjectId (exampleRun 10 contendedProgram).
Proof.
  split; [vm_compute; reflexivity|].
  apply (@stepBack_returns_installed_state exampleHost silentStdlib).
  - apply api_run_steps. apply api_new.
  - vm_compute; reflexivity.
Defined.

(** ** The string hash *)






(** ** Call and return *)

Lemma imap_lv_value {A} (f : nat -> Value -> A) (g : A -> Value) (l : list Value) :
  (forall i v, g (f i v) = v) -> g <$> imap f l = l.
Proof.
  revert f. induction l as [|v l IH]; intros f Hf; [done|].
  cbn. rewrite Hf. f_equal. apply IH. intros i w. apply Hf.
Qed.

Lemma argumentLocals_values isStatic table args :
  lv_value <$> argumentLocals isStatic table args = args.
Proof. unfold argumentLocals. by apply imap_lv_value. Qed.

(** X22. A static call of a method of the program that the library does not
    handle pops the arguments, advances the caller past the call and
    pushes a frame for the callee: at the method's offset, with an empty
    operand stack and the arguments as its locals.  A RETURN_VALUE
    executed in the callee, whatever the callee did to its own frame,
    removes that frame and leaves the returned value on top of the
    caller's operand stack; the heap is not touched by either. *)
Theorem static_call_then_return {host : JsHost} {lib : DataStdlib}
    (m : Simulator) (ti : nat) (t : ThreadState) (frame : StackFrame)
    (callers : list StackFrame) (methodName descriptor target : string)
    (ent : HostEntropy) (targetClass : CompiledClass) (methodNode : CompiledMethod)
    (args : list Value) (caller : StackFrame) :
  activeThread (state m) = ti ->
  threads (state m) !! ti = Some t ->
  t_stack t = frame :: callers ->
  target <> "" ->
  pop_args (numArgsOf descriptor) [] frame = (args, caller) ->
  invokeStdlib caller methodName args true target None ent m = SNotHandled caller m ->
  lookupMethod (program m) target methodName = Some (Some (targetClass, methodNode)) ->
  exists m1 callee,
    executeInstruction ti
      (instr (OpCode.INVOKE OpCode.INVOKE_STATIC methodName descriptor (Some target)))
      frame ent m
    = Normal m1 ("Invoke " ++ methodName ++ "(...)")
    /\ stackOf ti m1 = Some (callee :: advance caller :: callers)
    /\ f_pc callee
       = default 0 (methodOffsets (program m)
                      !! (cc_name targetClass ++ "." ++ cm_signature methodNode))
    /\ f_operandStack callee = []
    /\ lv_value <$> f_localVariables callee = args
    /\ heap (state m1) = heap (state m)
    /\ forall (callee' : StackFrame) (v : Value) (rest : list Value) (ent' : HostEntropy),
         f_operandStack callee' = v :: rest ->
         exists m2,
           executeInstruction ti (instr OpCode.RETURN_VALUE) callee' ent' m1
           = Normal m2 ("Return " ++ valueToString v)
           /\ stackOf ti m2 = Some (push v (advance caller) :: callers)
           /\ heap (state m2) = heap (state m).
Proof.
  intros Hact Ht Hst Htarget Hpop Hlib Hlook.
  unfold executeInstruction. cbn [opcode instr]. unfold invokeMethod.
  rewrite !andb_false_r. rewrite Hpop. cbv beta iota zeta. cbn [default from_option]. unfold id. rewrite Hlib.
  rewrite bool_decide_eq_false_2 by done. rewrite Hlook.
  assert (Hthreads : threads (state (commit ti (advance caller) m))
                     = alter (fun t => set_t_stack (upd_top (fun _ => advance caller)
                                                     (t_stack t)) t) ti (threads (state m)))
    by reflexivity.
  assert (Hactive : activeThread (state (commit ti (advance caller) m)) = ti)
    by (rewrite <- Hact; reflexivity).
  unfold activeThreadState. rewrite Hactive, Hthreads.
  rewrite list_lookup_alter_eq, Ht. cbn [fmap option_fmap option_map].
  eexists _, _. split; [reflexivity|].
  unfold stackOf. cbn [state upd_state set_state upd_thread threads set_threads].
  rewrite Hactive, Hthreads.
  rewrite !list_lookup_alter_eq, Ht. cbn. rewrite Hst. cbn [upd_top].
  split; [reflexivity|]. split; [reflexivity|]. split; [reflexivity|].
  split; [apply argumentLocals_values|]. split; [reflexivity|].
  intros callee' v rest ent' Hv.
  unfold pop. rewrite Hv.
  eexists. split; [reflexivity|].
  cbn [state upd_state set_state upd_thread threads set_threads commit put_frame
       activeThread set_f_operandStack].
  rewrite Hact.
  rewrite !list_lookup_alter_eq, Ht. cbn. rewrite Hst. cbn.
  split; reflexivity.
Qed.

(** The theorem at the call of [twice(7)], and the whole run: six steps
    later 14 has been printed. *)
Lemma static_call_then_return_witness :
  topFrameAt 0 callSite = Some callFrame
  /\ output (state (exampleRun 7 callProgram)) = ["14"; ""]
  /\ exists m1 callee,
       @executeInstruction exampleHost silentStdlib 0
         (instr (OpCode.INVOKE OpCode.INVOKE_STATIC "twice" "(1)" (Some "Main")))
         callFrame exampleEntropy callSite
       = Normal m1 "Invoke twice(...)"
       /\ stackOf 0 m1 = Some [callee; advance (set_f_operandStack [] callFrame)]
       /\ f_pc callee = 4
       /\ f_operandStack callee = []
       /\ lv_value <$> f_localVariables callee = [createPrimitiveValue TInt (PNum 7%float)]
       /\ heap (state m1) = heap (state callSite)
       /\ forall (callee' : StackFrame) (v : Value) (rest : list Value) (ent' : HostEntropy),
            f_operandStack callee' = v :: rest ->
            exists m2,
              @executeInstruction exampleHost silentStdlib 0 (instr OpCode.RETURN_VALUE)
                callee' ent' m1
              = Normal m2 ("Return " ++ @valueToString exampleHost v)
              /\ stackOf 0 m2 = Some [push v (advance (set_f_operandStack [] callFrame))]
              /\ heap (state m2) = heap (state callSite).
Proof.
  split; [vm_compute; reflexivity|]. split; [vm_compute; reflexivity|].
  eapply (@static_call_then_return exampleHost silentStdlib callSite 0 _ callFrame []
            "twice" "(1)" "Main" exampleEntropy callClass twiceMethod
            [createPrimitiveValue TInt (PNum 7%float)] (set_f_operandStack [] callFrame));
    try (vm_compute; reflexivity).
  done.
Defined.
